(** * SoftwareRenderer: a scanline occlusion-culling rasterizer

    A shallow embedding of goo's [SoftwareRenderer] (the w-buffer
    rasterizer and the occlusion probe) and the properties its design
    document states about it.

    Numbers.  JavaScript numbers are embedded as exact rationals [Q];
    pixel columns, scanlines and buffer indices, which the code obtains
    from [Math.floor] / [Math.ceil] or from integer counters, are [Z].
    Rounding to float32 on a typed-array store is therefore not part of
    the model, and a division by zero yields [0] here where JavaScript
    yields an infinity or NaN; the statements below either exclude such
    a division by their hypotheses or do not depend on its value.
    Objects are records, so a method never meets a missing field; the
    one reference that may be absent is the renderer's camera.

    Effects.  The renderer object is a record threaded through every
    method that mutates it.  Two fields are instrumentation only:
    [console] collects the [console.error] calls, [accessed] the depth
    tests made: the index at which [_depthData] was read, and written
    when the test succeeded, with the depth it was compared to.  The
    debug colour buffer is left out. *)

From Stdlib Require Import ZArith QArith Qround Lqa Lia String.
From stdpp Require Import base option list strings.

Local Open Scope Z_scope.
Local Open Scope Q_scope.

(** ** JavaScript comparisons on numbers *)

Definition Qltb (a b : Q) : bool := negb (Qle_bool b a).
Definition Qgtb (a b : Q) : bool := Qltb b a.
Definition Qleb (a b : Q) : bool := Qle_bool a b.

(** ** Vector4 and Triangle *)

(** Modelled from the spec: [goo/math/Vector4] is not part of the
    sources at hand.  A vertex is "homogeneous (x,y,z,w)"; the fields
    stand for [data[0]] to [data[3]], which the accessors [x], [y], [z],
    [w] alias. *)
Record Vector4 := mkVector4 { vx : Q; vy : Q; vz : Q; vw : Q }.

#[global] Instance Vector4_inhabited : Inhabited Vector4 :=
  populate (mkVector4 0 0 0 0).

(** Modelled from the spec: [goo/renderer/scanline/Triangle] is not part
    of the sources at hand.  A triangle is an "ordered triple
    (v1,v2,v3)". *)
Record Triangle := mkTriangle { v1 : Vector4; v2 : Vector4; v3 : Vector4 }.

(** ** Back-face test in camera view space

    The products and sums are those of the source, in its order, over
    exact rationals; the source rounds each of them to a double. *)

Definition _isBackFacingCameraViewSpace (v1 v2 v3 : Vector4) : bool :=
  let '(e1_0, e1_1, e1_2) := (vx v2 - vx v1, vy v2 - vy v1, vz v2 - vz v1) in
  let '(e2_0, e2_1, e2_2) := (vx v3 - vx v1, vy v3 - vy v1, vz v3 - vz v1) in
  let faceNormal0 := e2_2 * e1_1 - e2_1 * e1_2 in
  let faceNormal1 := e2_0 * e1_2 - e2_2 * e1_0 in
  let faceNormal2 := e2_1 * e1_0 - e2_0 * e1_1 in
  let dot := faceNormal0 * vx v1 + faceNormal1 * vy v1 + faceNormal2 * vz v1 in
  Qgtb dot 0.

(** Vector algebra in the words of the design document, used to state
    the sign convention of the test. *)

Definition Vec3 : Type := Q * Q * Q.

Definition xyz (v : Vector4) : Vec3 := (vx v, vy v, vz v).

Definition sub3 (a b : Vec3) : Vec3 :=
  let '(a0, a1, a2) := a in let '(b0, b1, b2) := b in
  (a0 - b0, a1 - b1, a2 - b2).

Definition cross3 (a b : Vec3) : Vec3 :=
  let '(a0, a1, a2) := a in let '(b0, b1, b2) := b in
  (a1 * b2 - a2 * b1, a2 * b0 - a0 * b2, a0 * b1 - a1 * b0).

Definition dot3 (a b : Vec3) : Q :=
  let '(a0, a1, a2) := a in let '(b0, b1, b2) := b in
  a0 * b0 + a1 * b1 + a2 * b2.

(** ** Near-plane clipping *)

(** [_categorizeVertices]: the loop over [i = 0, 1, 2], pushing [i] on
    [insideIndices] or [outsideIndices]. *)
Definition _categorizeVertices (outsideIndices insideIndices : list nat)
    (vertices : list Vector4) (cameraNear : Q) : list nat * list nat :=
  foldl (fun (indices : list nat * list nat) i =>
           if Qleb (vz (vertices !!! i)) cameraNear
           then (indices.1, indices.2 ++ [i])
           else (indices.1 ++ [i], indices.2))
        (outsideIndices, insideIndices) [0; 1; 2]%nat.

Definition _calculateIntersectionRatio (origin target : Vector4) (near : Q) : Q :=
  (vz origin + near) / (vz origin - vz target).

(** The [switch (outsideIndices.length)] of [_createTrianglesForEntity].
    [None] stands for [continue] (the triangle is skipped). *)
Definition clipToNearPlane (near : Q) (vertices : list Vector4)
    (outsideIndices insideIndices : list nat) : option (list Vector4) :=
  match length outsideIndices with
  | 0%nat => Some vertices
  | 3%nat => None
  | 1%nat =>
      let origin := vertices !!! (outsideIndices !!! 0%nat) in
      let target := vertices !!! (insideIndices !!! 0%nat) in
      let ratio := _calculateIntersectionRatio origin target near in
      let newV1 :=
        (vx origin + ratio * (vx target - vx origin),
         vy origin + ratio * (vy target - vy origin),
         vz origin + ratio * (vz target - vz origin)) in
      let target := vertices !!! (insideIndices !!! 1%nat) in
      let ratio := _calculateIntersectionRatio origin target near in
      let newV2 :=
        mkVector4 (vx origin + ratio * (vx target - vx origin))
                  (vy origin + ratio * (vy target - vy origin))
                  (vz origin + ratio * (vz target - vz origin))
                  1 in
      let vertices :=
        <[outsideIndices !!! 0%nat :=
            mkVector4 newV1.1.1 newV1.1.2 newV1.2 (vw origin)]> vertices in
      Some (vertices ++ [newV2])
  | 2%nat =>
      let origin := vertices !!! (outsideIndices !!! 0%nat) in
      let target := vertices !!! (insideIndices !!! 0%nat) in
      let ratio := _calculateIntersectionRatio origin target near in
      let vertices :=
        <[outsideIndices !!! 0%nat :=
            mkVector4 (vx origin + ratio * (vx target - vx origin))
                      (vy origin + ratio * (vy target - vy origin))
                      (vz origin + ratio * (vz target - vz origin))
                      (vw origin)]> vertices in
      let origin := vertices !!! (outsideIndices !!! 1%nat) in
      let ratio := _calculateIntersectionRatio origin target near in
      let vertices :=
        <[outsideIndices !!! 1%nat :=
            mkVector4 (vx origin + ratio * (vx target - vx origin))
                      (vy origin + ratio * (vy target - vy origin))
                      (vz origin + ratio * (vz target - vz origin))
                      (vw origin)]> vertices in
      Some vertices
  | _ => Some vertices
  end.

Definition _createTriangles (vertices : list Vector4)
    (outsideIndices insideIndices : list nat) (triangles : list Triangle)
    : list Triangle :=
  if (length vertices =? 4)%nat then
    triangles ++
      [mkTriangle (vertices !!! (outsideIndices !!! 0%nat))
                  (vertices !!! (insideIndices !!! 0%nat))
                  (vertices !!! 3%nat);
       mkTriangle (vertices !!! 3%nat)
                  (vertices !!! (insideIndices !!! 0%nat))
                  (vertices !!! (insideIndices !!! 1%nat))]
  else
    triangles ++
      [mkTriangle (vertices !!! 0%nat) (vertices !!! 1%nat) (vertices !!! 2%nat)].

(** The camera-space part of one iteration of the triangle loop of
    [_createTrianglesForEntity]: back-face test, categorisation,
    clipping.  [None] stands for [continue]. *)
Definition clipStage (near : Q) (v1 v2 v3 : Vector4)
    : option (list Vector4 * list nat * list nat) :=
  let vertices := [v1; v2; v3] in
  if _isBackFacingCameraViewSpace v1 v2 v3 then None
  else
    let '(outsideIndices, insideIndices) :=
      _categorizeVertices [] [] vertices (- near) in
    match clipToNearPlane near vertices outsideIndices insideIndices with
    | None => None
    | Some vertices => Some (vertices, outsideIndices, insideIndices)
    end.

Definition verticesOf (t : Triangle) : list Vector4 := [v1 t; v2 t; v3 t].

(** The statement of the sign convention as the design document words it. *)
Definition backface_sign_as_documented : Prop :=
  forall v1 v2 v3 : Vector4,
    _isBackFacingCameraViewSpace v1 v2 v3 = true <->
    0 < dot3 (cross3 (sub3 (xyz v3) (xyz v1)) (sub3 (xyz v2) (xyz v1))) (xyz v1).

(** A counter-clockwise triangle in front of the camera. *)
Definition ccw_v1 : Vector4 := mkVector4 0 0 (-1) 1.
Definition ccw_v2 : Vector4 := mkVector4 1 0 (-1) 1.
Definition ccw_v3 : Vector4 := mkVector4 0 1 (-1) 1.

(** The near-plane intersection in the words of the design document:
    origin + r (target - origin) with r = (origin.z + n) / (origin.z - target.z). *)
Definition intersect3 (near : Q) (origin target : Vec3) : Vec3 :=
  let '(ox, oy, oz) := origin in let '(tx, ty, tz) := target in
  let r := (oz + near) / (oz - tz) in
  (ox + r * (tx - ox), oy + r * (ty - oy), oz + r * (tz - oz)).

(** How the clipped vertex array relates to the original one, by the
    number of vertices outside the near plane. *)
Definition clippedAsDocumented (near : Q) (original clipped : list Vector4)
    (outsideIndices insideIndices : list nat) : Prop :=
  match outsideIndices, insideIndices with
  | [o], [i0; i1] =>
      xyz (clipped !!! o) = intersect3 near (xyz (original !!! o)) (xyz (original !!! i0)) /\
      xyz (clipped !!! 3%nat) = intersect3 near (xyz (original !!! o)) (xyz (original !!! i1)) /\
      clipped !!! i0 = original !!! i0 /\ clipped !!! i1 = original !!! i1
  | [o0; o1], [i0] =>
      xyz (clipped !!! o0) = intersect3 near (xyz (original !!! o0)) (xyz (original !!! i0)) /\
      xyz (clipped !!! o1) = intersect3 near (xyz (original !!! o1)) (xyz (original !!! i0)) /\
      clipped !!! i0 = original !!! i0
  | _, _ => False
  end.

(** A triangle crossing the near plane [near = 1]: z = -1/2, -2, -2. *)
Definition split_v1 : Vector4 := mkVector4 0 0 (-(1#2)) 1.
Definition split_v2 : Vector4 := mkVector4 1 0 (-2) 1.
Definition split_v3 : Vector4 := mkVector4 0 1 (-2) 1.

(** ** Matrices and the camera *)

(** Modelled from the spec: [goo/math/Matrix4x4] is not part of the
    sources at hand.  [applyPost] is the product of a matrix with a
    column vector ("v' = P v") and [combine] the matrix product
    ("VP = P V"). *)
Record Matrix4x4 := mkMatrix4x4 { row0 : Vector4; row1 : Vector4; row2 : Vector4; row3 : Vector4 }.

(** The product of a row with a column vector. *)
Definition dot4 (a b : Vector4) : Q :=
  vx a * vx b + vy a * vy b + vz a * vz b + vw a * vw b.

(** Modelled from the spec: [matrix.applyPost(v)] replaces [v] by the
    product of [matrix] with [v] ("v' = P v"). *)
Definition applyPost (m : Matrix4x4) (v : Vector4) : Vector4 :=
  mkVector4 (dot4 (row0 m) v) (dot4 (row1 m) v) (dot4 (row2 m) v) (dot4 (row3 m) v).

Definition transpose (m : Matrix4x4) : Matrix4x4 :=
  mkMatrix4x4
    (mkVector4 (vx (row0 m)) (vx (row1 m)) (vx (row2 m)) (vx (row3 m)))
    (mkVector4 (vy (row0 m)) (vy (row1 m)) (vy (row2 m)) (vy (row3 m)))
    (mkVector4 (vz (row0 m)) (vz (row1 m)) (vz (row2 m)) (vz (row3 m)))
    (mkVector4 (vw (row0 m)) (vw (row1 m)) (vw (row2 m)) (vw (row3 m))).

(** Modelled from the spec: [Matrix4x4.combine(a, b)] is the matrix
    product a b ("VP = P V"). *)
Definition combine (a b : Matrix4x4) : Matrix4x4 :=
  let bt := transpose b in
  let times (r : Vector4) :=
    mkVector4 (dot4 r (row0 bt)) (dot4 r (row1 bt)) (dot4 r (row2 bt)) (dot4 r (row3 bt)) in
  mkMatrix4x4 (times (row0 a)) (times (row1 a)) (times (row2 a)) (times (row3 a)).

Definition identity4 : Matrix4x4 :=
  mkMatrix4x4 (mkVector4 1 0 0 0) (mkVector4 0 1 0 0) (mkVector4 0 0 1 0) (mkVector4 0 0 0 1).

(** Modelled from the spec: [goo/renderer/Camera] is not part of the
    sources at hand.  The camera "provides getViewMatrix(),
    getProjectionMatrix(), and near", which is all the renderer reads. *)
Record Camera := mkCamera {
  near : Q;
  getViewMatrix : Matrix4x4;
  getProjectionMatrix : Matrix4x4
}.

(** ** Completions *)

Inductive JsError := RangeError | TypeError.

Inductive Completion (A : Type) :=
  | Normal (a : A)
  | Throw (e : JsError).
Arguments Normal {A} a.
Arguments Throw {A} e.

(** ** Typed arrays

    A [Float32Array] is a list of numbers.  Reading outside the array
    gives [undefined] ([None]); writing outside is ignored.  A store
    keeps the number as it is: the rounding to float32 is not
    modelled. *)

Definition typedArrayGet (a : list Q) (index : Z) : option Q :=
  if (index <? 0)%Z then None else a !! Z.to_nat index.

Definition typedArraySet (a : list Q) (index : Z) (v : Q) : list Q :=
  if (index <? 0)%Z then a else <[Z.to_nat index := v]> a.

(** [target.set(source)]: copies [source] over the front of [target];
    a source longer than the target is a [RangeError]. *)
Definition typedArraySetAll (target source : list Q) : Completion (list Q) :=
  if (length source <=? length target)%nat
  then Normal (source ++ drop (length source) target)
  else Throw RangeError.

(** [depth > stored], where [stored] may be [undefined]: a comparison
    with [undefined] is false. *)
Definition gtStored (depth : Q) (stored : option Q) : bool :=
  match stored with
  | Some s => Qgtb depth s
  | None => false
  end.

(** ** The renderer object *)

Record SoftwareRenderer := mkSoftwareRenderer {
  width : Z;
  height : Z;
  _clipY : Z;
  _clipX : Z;
  camera : option Camera;
  _depthData : list Q;
  _depthClear : list Q;
  console : list (string * Q);
  accessed : list (Z * Q)
}.

Definition set_depthData (d : list Q) (r : SoftwareRenderer) : SoftwareRenderer :=
  mkSoftwareRenderer (width r) (height r) (_clipY r) (_clipX r) (camera r)
    d (_depthClear r) (console r) (accessed r).

Definition console_error (label : string) (value : Q) (r : SoftwareRenderer)
    : SoftwareRenderer :=
  mkSoftwareRenderer (width r) (height r) (_clipY r) (_clipX r) (camera r)
    (_depthData r) (_depthClear r) (console r ++ [(label, value)]) (accessed r).

Definition note_access (index : Z) (depth : Q) (r : SoftwareRenderer)
    : SoftwareRenderer :=
  mkSoftwareRenderer (width r) (height r) (_clipY r) (_clipX r) (camera r)
    (_depthData r) (_depthClear r) (console r) (accessed r ++ [(index, depth)]).

(** Constructor parameters: [{width, height, camera}]; the camera may be
    absent. *)
Record Parameters := mkParameters {
  p_width : Z;
  p_height : Z;
  p_camera : option Camera
}.

(** [new SoftwareRenderer(parameters)].  [new ArrayBuffer(n)] throws a
    [RangeError] for a negative [n]; a fresh buffer is zero-filled.  The
    loop then stores [0.0] in every cell of [_depthClear]. *)
Definition SoftwareRenderer_new (parameters : Parameters) : Completion SoftwareRenderer :=
  let width := p_width parameters in
  let height := p_height parameters in
  let _clipY := (height - 1)%Z in
  let _clipX := (width - 1)%Z in
  let camera := p_camera parameters in
  let numOfPixels := (width * height)%Z in
  let colorBytes := (numOfPixels * 4 * 1)%Z in
  let depthBytes := (numOfPixels * 4)%Z in
  if (colorBytes + depthBytes * 2 <? 0)%Z then Throw RangeError
  else
    let _depthData := replicate (Z.to_nat numOfPixels) 0 in
    let _depthClear := replicate (Z.to_nat numOfPixels) 0 in
    let _depthClear :=
      foldl (fun a i => typedArraySet a (Z.of_nat i) 0) _depthClear
            (seq 0 (Z.to_nat numOfPixels)) in
    Normal (mkSoftwareRenderer width height _clipY _clipX camera
              _depthData _depthClear [] []).

Definition _clearDepthData (r : SoftwareRenderer) : Completion SoftwareRenderer :=
  match typedArraySetAll (_depthData r) (_depthClear r) with
  | Normal d => Normal (set_depthData d r)
  | Throw e => Throw e
  end.

(** ** Scanlines *)

(** The test [z < 0 || z > 1.0000001] that guards [console.error]. *)
Definition outsideDepthRange (z : Q) : bool :=
  Qltb z 0 || Qgtb z (10000001 # 10000000).

(** The pixel loop of [_fillPixels], run for [n] more pixels. *)
Fixpoint fillLoop (n : nat) (index : Z) (depth depthIncrement : Q)
    (r : SoftwareRenderer) : SoftwareRenderer :=
  match n with
  | O => r
  | S n' =>
      let r := note_access index depth r in
      let r :=
        if gtStored depth (typedArrayGet (_depthData r) index)
        then set_depthData (typedArraySet (_depthData r) index depth) r
        else r in
      fillLoop n' (index + 1)%Z (depth + depthIncrement) depthIncrement r
  end.

(** The horizontal clipping shared by [_fillPixels] and
    [_isScanlineOccluded]: the span and its end depths after both
    clamps. *)
Definition clipSpan (clipX leftX rightX : Z) (leftZ rightZ : Q) : Z * Z * Q * Q :=
  let '(leftX, leftZ) :=
    if (leftX <? 0)%Z then
      let t := inject_Z (- leftX) / inject_Z (rightX - leftX + 1) in
      (0%Z, (1 - t) * leftZ + t * rightZ)
    else (leftX, leftZ) in
  let diff := (rightX - clipX + 1)%Z in
  let '(rightX, rightZ) :=
    if (diff >? 0)%Z then
      let t := inject_Z diff / inject_Z (rightX - leftX + 1) in
      (clipX, (1 - t) * rightZ + t * leftZ)
    else (rightX, rightZ) in
  (leftX, rightX, leftZ, rightZ).

(** The guard [rightX < 0 || leftX > clipX || rightX < leftX]. *)
Definition emptySpan (clipX leftX rightX : Z) : bool :=
  (rightX <? 0)%Z || (leftX >? clipX)%Z || (rightX <? leftX)%Z.

Definition warnDepths (leftLabel : string) (leftZ rightZ : Q)
    (r : SoftwareRenderer) : SoftwareRenderer :=
  let r := if outsideDepthRange leftZ then console_error leftLabel leftZ r else r in
  if outsideDepthRange rightZ then console_error "rightZ : " rightZ r else r.

Definition _fillPixels (leftX rightX y : Z) (leftZ rightZ : Q)
    (r : SoftwareRenderer) : SoftwareRenderer :=
  if emptySpan (_clipX r) leftX rightX then r
  else
    let r := warnDepths "leftz : " leftZ rightZ r in
    let '(leftX, rightX, leftZ, rightZ) := clipSpan (_clipX r) leftX rightX leftZ rightZ in
    let index := (y * width r + leftX)%Z in
    let depth := leftZ in
    let depthIncrement := (rightZ - leftZ) / inject_Z (rightX - leftX) in
    fillLoop (Z.to_nat (rightX - leftX + 1)) index depth depthIncrement r.

(** The pixel loop of [_isScanlineOccluded]; it returns at the first
    pixel that is closer than the stored depth.  Before each depth test
    the source paints a debug pixel,
    [this._colorData.set([..., 0, 0], index * 4)]; the colour buffer is
    not part of the record, and the loop here is the source's loop as
    long as that write lies inside the colour buffer
    ([colorWriteFits] below): outside it the source throws a
    [RangeError] at that pixel. *)
Fixpoint probeLoop (n : nat) (index : Z) (depth depthIncrement : Q)
    (r : SoftwareRenderer) : bool * SoftwareRenderer :=
  match n with
  | O => (true, r)
  | S n' =>
      let r := note_access index depth r in
      if gtStored depth (typedArrayGet (_depthData r) index)
      then (false, r)
      else probeLoop n' (index + 1)%Z (depth + depthIncrement) depthIncrement r
  end.

Definition _isScanlineOccluded (leftX rightX y : Z) (leftZ rightZ : Q)
    (r : SoftwareRenderer) : bool * SoftwareRenderer :=
  if emptySpan (_clipX r) leftX rightX then (true, r)
  else
    let r := warnDepths "leftZ : " leftZ rightZ r in
    let '(leftX, rightX, leftZ, rightZ) := clipSpan (_clipX r) leftX rightX leftZ rightZ in
    let index := (y * width r + leftX)%Z in
    let depth := leftZ in
    let depthIncrement := (rightZ - leftZ) / inject_Z (rightX - leftX) in
    probeLoop (Z.to_nat (rightX - leftX + 1)) index depth depthIncrement r.

(** The debug colour write of the probe at the pixel [index], three
    bytes from [index * 4] on into the colour buffer of
    [4 * width * height] bytes, lies inside that buffer.  A
    [TypedArray.prototype.set] that does not is a [RangeError]. *)
Definition colorWriteFits (r : SoftwareRenderer) (index : Z) : Prop :=
  (0 <= index * 4)%Z /\ (index * 4 + 3 <= 4 * (width r * height r))%Z.

(** ** Edges *)

(** Modelled from the spec: [goo/renderer/scanline/Edge] is not part of
    the sources at hand.  An edge holds its two endpoints ordered so that
    [y0 <= y1] (the endpoints are swapped, depths included, when needed)
    and the endpoint depths, taken from the vertices' [w]. *)
Record Edge := mkEdge { x0 : Q; y0 : Q; z0 : Q; x1 : Q; y1 : Q; z1 : Q }.

#[global] Instance Edge_inhabited : Inhabited Edge := populate (mkEdge 0 0 0 0 0 0).

(** Modelled from the spec: [new Edge(a, b)] orders the endpoints "so
    y0 <= y1 (swap if needed; swap z accordingly)". *)
Definition Edge_new (a b : Vector4) : Edge :=
  if Qleb (vy a) (vy b)
  then mkEdge (vx a) (vy a) (vw a) (vx b) (vy b) (vw b)
  else mkEdge (vx b) (vy b) (vw b) (vx a) (vy a) (vw a).

Definition Math_floor (q : Q) : Q := inject_Z (Qfloor q).
Definition Math_ceil (q : Q) : Q := inject_Z (Qceiling q).
Definition Math_max (a b : Q) : Q := if Qltb a b then b else a.

(** Modelled from the spec: "x0 = ceil(x0_raw), x1 = floor(x1_raw),
    y0 = ceil(y0_raw), y1 = floor(y1_raw) - shrinks area". *)
Definition roundOccluderCoordinates (e : Edge) : Edge :=
  mkEdge (Math_ceil (x0 e)) (Math_ceil (y0 e)) (z0 e)
         (Math_floor (x1 e)) (Math_floor (y1 e)) (z1 e).

(** Modelled from the spec: "x0 = floor, x1 = ceil, y0 = floor,
    y1 = ceil - grows area". *)
Definition roundOccludeeCoordinates (e : Edge) : Edge :=
  mkEdge (Math_floor (x0 e)) (Math_floor (y0 e)) (z0 e)
         (Math_ceil (x1 e)) (Math_ceil (y1 e)) (z1 e).

(** Modelled from the spec: [invertZ] replaces both depths by their
    reciprocals ("z holds 1/w"). *)
Definition invertZ (e : Edge) : Edge :=
  mkEdge (x0 e) (y0 e) (1 / z0 e) (x1 e) (y1 e) (1 / z1 e).

(** Modelled from the spec: [goo/renderer/scanline/EdgeData] is not part
    of the sources at hand.  It holds the integer line range and the
    eight interpolants and increments in the order in which
    [_edgePreRenderProcess] passes them; [updateXValues] adds each
    increment to its interpolant.  The lines handed over are integers
    already (rounded edge coordinates, [0] or [_clipY]); [Qfloor] is the
    identity on them. *)
Record EdgeData := mkEdgeData {
  getStartLine : Z;
  getStopLine : Z;
  getLongX : Q;
  getShortX : Q;
  getLongZ : Q;
  getShortZ : Q;
  getLongXIncrement : Q;
  getShortXIncrement : Q;
  getLongZIncrement : Q;
  getShortZIncrement : Q
}.

(** Modelled from the spec: [new EdgeData([startLine, stopLine, ...])]
    with an "integer y range". *)
Definition EdgeData_new (startLine stopLine longX shortX longZ shortZ
    longXInc shortXInc longZInc shortZInc : Q) : EdgeData :=
  mkEdgeData (Qfloor startLine) (Qfloor stopLine) longX shortX longZ shortZ
             longXInc shortXInc longZInc shortZInc.

(** Modelled from the spec: "advance EdgeData interpolants by their
    per-scanline increments". *)
Definition updateXValues (d : EdgeData) : EdgeData :=
  mkEdgeData (getStartLine d) (getStopLine d)
    (getLongX d + getLongXIncrement d) (getShortX d + getShortXIncrement d)
    (getLongZ d + getLongZIncrement d) (getShortZ d + getShortZIncrement d)
    (getLongXIncrement d) (getShortXIncrement d)
    (getLongZIncrement d) (getShortZIncrement d).

Definition _updateEdgeDataToNextLine (edgeData : EdgeData) : EdgeData :=
  updateXValues edgeData.

(** ** Triangle set-up *)

(** The three edges and [[longEdge, shortEdge1, shortEdge2]]. *)
Definition _createEdgesForTriangle (triangle : Triangle) : list Edge * (nat * nat * nat) :=
  let _edges :=
    [Edge_new (v1 triangle) (v2 triangle);
     Edge_new (v2 triangle) (v3 triangle);
     Edge_new (v3 triangle) (v1 triangle)] in
  let '(maxHeight, longEdge) :=
    foldl (fun (acc : Q * nat) i =>
             let height := y1 (_edges !!! i) - y0 (_edges !!! i) in
             if Qgtb height acc.1 then (height, i) else acc)
          (0, 0%nat) [0; 1; 2]%nat in
  let shortEdge1 := ((longEdge + 1) mod 3)%nat in
  let shortEdge2 := ((longEdge + 2) mod 3)%nat in
  (_edges, (longEdge, shortEdge1, shortEdge2)).

(** [[long edge on the right, triangle leaning inwards]]. *)
Definition _calculateOrientationData (edgeData : EdgeData) (shortEdge longEdge : Edge)
    : bool * bool :=
  let shortX := getShortX edgeData in
  let longX := getLongX edgeData in
  if Qeq_bool shortX longX
  then (Qgtb (getLongXIncrement edgeData) (getShortXIncrement edgeData),
        Qltb (z1 longEdge) (z1 shortEdge))
  else (Qgtb longX shortX, Qltb (z1 longEdge) (z0 shortEdge)).

Definition _verticalLongEdgeCull (r : SoftwareRenderer) (longEdge : Edge) : bool :=
  Qltb (y1 longEdge) 0 || Qgtb (y0 longEdge) (inject_Z (_clipY r)).

Definition _horizontalLongEdgeCull (r : SoftwareRenderer) (longEdge : Edge)
    (orientationData : bool * bool) : bool :=
  if orientationData.1
  then Qltb (x1 longEdge) 0 && Qltb (x0 longEdge) 0
  else Qgtb (x1 longEdge) (inject_Z (_clipX r)) && Qgtb (x0 longEdge) (inject_Z (_clipX r)).

Definition _edgePreRenderProcess (r : SoftwareRenderer) (longEdge shortEdge : Edge)
    : option EdgeData :=
  let shortEdgeDeltaY := y1 shortEdge - y0 shortEdge in
  if Qleb shortEdgeDeltaY 0 then None
  else
    let longEdgeDeltaY := y1 longEdge - y0 longEdge in
    let longEdgeDeltaX := x1 longEdge - x0 longEdge in
    let shortEdgeDeltaX := x1 shortEdge - x0 shortEdge in
    let longStartZ := z0 longEdge in
    let shortStartZ := z0 shortEdge in
    let longEdgeDeltaZ := z1 longEdge - longStartZ in
    let shortEdgeDeltaZ := z1 shortEdge - shortStartZ in
    let longStartCoeff := (y0 shortEdge - y0 longEdge) / longEdgeDeltaY in
    let longX := x0 longEdge + longEdgeDeltaX * longStartCoeff in
    let longZ := longStartZ + longEdgeDeltaZ * longStartCoeff in
    let longEdgeXincrement := longEdgeDeltaX / longEdgeDeltaY in
    let longEdgeZincrement := longEdgeDeltaZ / longEdgeDeltaY in
    let shortX := x0 shortEdge in
    let shortZ := shortStartZ in
    let shortEdgeXincrement := shortEdgeDeltaX / shortEdgeDeltaY in
    let shortEdgeZincrement := shortEdgeDeltaZ / shortEdgeDeltaY in
    let startLine := y0 shortEdge in
    let stopLine := y1 shortEdge in
    let '(longX, shortX, longZ, shortZ, startLine) :=
      if Qltb startLine 0 then
        (longX + - startLine * longEdgeXincrement,
         shortX + - startLine * shortEdgeXincrement,
         longZ + - startLine * longEdgeZincrement,
         shortZ + - startLine * shortEdgeZincrement,
         0)
      else (longX, shortX, longZ, shortZ, startLine) in
    let stopLine :=
      if Qgtb stopLine (inject_Z (_clipY r)) then inject_Z (_clipY r) else stopLine in
    Some (EdgeData_new startLine stopLine longX shortX longZ shortZ
            longEdgeXincrement shortEdgeXincrement
            longEdgeZincrement shortEdgeZincrement).

(** The number of iterations of [for (y = startLine; y <= stopLine; y++)]. *)
Definition lineCount (edgeData : EdgeData) : nat :=
  Z.to_nat (getStopLine edgeData - getStartLine edgeData + 1).

(** ** Occluder path: drawing *)

(** One scanline of [_drawEdges].  The four copies of the loop in the
    source differ only in which edge supplies the left and the right
    values ([orientationData[0]]) and in the end of the span whose depth
    is biased ([orientationData[1]]).  Where the two edges meet
    ([spanLength] is zero) the source divides by zero and goes on with
    NaN or an infinity; here the quotient is [0]. *)
Definition drawScanline (orientationData : bool * bool) (edgeData : EdgeData)
    (y : Z) (r : SoftwareRenderer) : SoftwareRenderer :=
  let '(realLeftX, realRightX, leftZ, rightZ) :=
    if orientationData.1
    then (getShortX edgeData, getLongX edgeData, getShortZ edgeData, getLongZ edgeData)
    else (getLongX edgeData, getShortX edgeData, getLongZ edgeData, getShortZ edgeData) in
  let leftX := Qceiling realLeftX in
  let rightX := Qfloor realRightX in
  if orientationData.2 then
    let offset := inject_Z leftX - realLeftX in
    let spanLength := realRightX - realLeftX in
    let t := offset / spanLength in
    let leftZ := (1 - t) * leftZ + t * rightZ in
    let spanLength := inject_Z (rightX - leftX + 1) in
    let t := (1 # 2) / spanLength in
    let leftZ := (1 - t) * leftZ + t * rightZ in
    _fillPixels leftX rightX y leftZ rightZ r
  else
    let offset := realRightX - inject_Z rightX in
    let spanLength := realRightX - realLeftX in
    let t := offset / spanLength in
    let rightZ := (1 - t) * rightZ + t * leftZ in
    let spanLength := inject_Z (rightX - leftX + 1) in
    let t := (1 # 2) / spanLength in
    let rightZ := (1 - t) * rightZ + t * leftZ in
    _fillPixels leftX rightX y leftZ rightZ r.

Fixpoint drawLoop (n : nat) (orientationData : bool * bool) (edgeData : EdgeData)
    (y : Z) (r : SoftwareRenderer) : SoftwareRenderer :=
  match n with
  | O => r
  | S n' =>
      let r := drawScanline orientationData edgeData y r in
      let edgeData := _updateEdgeDataToNextLine edgeData in
      drawLoop n' orientationData edgeData (y + 1)%Z r
  end.

Definition _drawEdges (edgeData : EdgeData) (orientationData : bool * bool)
    (r : SoftwareRenderer) : SoftwareRenderer :=
  let startLine := getStartLine edgeData in
  drawLoop (lineCount edgeData) orientationData edgeData startLine r.

(** ** Occludee path: probing *)

(** One scanline of [_isEdgeOccluded]; as in [_drawEdges], the four
    copies of the loop are one body. *)
Definition probeScanline (orientationData : bool * bool) (edgeData : EdgeData)
    (y : Z) (r : SoftwareRenderer) : bool * SoftwareRenderer :=
  let '(realLeftX, realRightX, leftZ, rightZ) :=
    if orientationData.1
    then (getShortX edgeData, getLongX edgeData, getShortZ edgeData, getLongZ edgeData)
    else (getLongX edgeData, getShortX edgeData, getLongZ edgeData, getShortZ edgeData) in
  let leftX := Qfloor realLeftX in
  let rightX := Qceiling realRightX in
  let dif := (rightX - leftX)%Z in
  let '(leftZ, rightZ) :=
    if (dif >? 1)%Z then
      let slope := (rightZ - leftZ) / (realRightX - realLeftX) in
      let rightZ' := leftZ + (inject_Z rightX - realLeftX) * slope in
      let leftZ' := leftZ + (inject_Z leftX - realLeftX) * slope in
      (Math_max 0 leftZ', Math_max 0 rightZ')
    else (leftZ, rightZ) in
  let t := (1 # 2) / inject_Z (dif + 1) in
  if orientationData.2 then
    let rightZ := (1 - t) * rightZ + t * leftZ in
    _isScanlineOccluded leftX rightX y leftZ rightZ r
  else
    let leftZ := (1 - t) * leftZ + t * rightZ in
    _isScanlineOccluded leftX rightX y leftZ rightZ r.

Fixpoint probeLines (n : nat) (orientationData : bool * bool) (edgeData : EdgeData)
    (y : Z) (r : SoftwareRenderer) : bool * SoftwareRenderer :=
  match n with
  | O => (true, r)
  | S n' =>
      let '(occluded, r) := probeScanline orientationData edgeData y r in
      if negb occluded then (false, r)
      else
        let edgeData := _updateEdgeDataToNextLine edgeData in
        probeLines n' orientationData edgeData (y + 1)%Z r
  end.

Definition _isEdgeOccluded (edgeData : EdgeData) (orientationData : bool * bool)
    (r : SoftwareRenderer) : bool * SoftwareRenderer :=
  let startLine := getStartLine edgeData in
  probeLines (lineCount edgeData) orientationData edgeData startLine r.

(** ** Triangles: rendering and probing *)

(** The second half of [_renderTriangle]: the long edge paired with the
    second short edge.  [orientationData] is [None] where the source
    holds [null]. *)
Definition renderSecondPortion (_edges : list Edge) (longEdge : Edge) (s2 : nat)
    (orientationData : option (bool * bool)) (r : SoftwareRenderer) : SoftwareRenderer :=
  let shortEdge := _edges !!! s2 in
  match _edgePreRenderProcess r longEdge shortEdge with
  | Some edgeData =>
      match orientationData with
      | None =>
          let orientationData := _calculateOrientationData edgeData shortEdge longEdge in
          if _horizontalLongEdgeCull r longEdge orientationData then r
          else _drawEdges edgeData orientationData r
      | Some orientationData => _drawEdges edgeData orientationData r
      end
  | None => r
  end.

Definition _renderTriangle (triangle : Triangle) (r : SoftwareRenderer) : SoftwareRenderer :=
  let '(_edges, (longEdgeIndex, s1, s2)) := _createEdgesForTriangle triangle in
  let longEdge := _edges !!! longEdgeIndex in
  if _verticalLongEdgeCull r longEdge then r
  else
    let _edges := (fun e => invertZ (roundOccluderCoordinates e)) <$> _edges in
    let longEdge := _edges !!! longEdgeIndex in
    let shortEdge := _edges !!! s1 in
    match _edgePreRenderProcess r longEdge shortEdge with
    | Some edgeData =>
        let orientationData := _calculateOrientationData edgeData shortEdge longEdge in
        if _horizontalLongEdgeCull r longEdge orientationData then r
        else
          let r := _drawEdges edgeData orientationData r in
          renderSecondPortion _edges longEdge s2 (Some orientationData) r
    | None => renderSecondPortion _edges longEdge s2 None r
    end.

Definition probeSecondPortion (_edges : list Edge) (longEdge : Edge) (s2 : nat)
    (orientationData : option (bool * bool)) (r : SoftwareRenderer)
    : bool * SoftwareRenderer :=
  let shortEdge := _edges !!! s2 in
  match _edgePreRenderProcess r longEdge shortEdge with
  | Some edgeData =>
      match orientationData with
      | None =>
          let orientationData := _calculateOrientationData edgeData shortEdge longEdge in
          if _horizontalLongEdgeCull r longEdge orientationData then (true, r)
          else _isEdgeOccluded edgeData orientationData r
      | Some orientationData => _isEdgeOccluded edgeData orientationData r
      end
  | None => (true, r)
  end.

Definition isRenderedTriangleOccluded (triangle : Triangle) (r : SoftwareRenderer)
    : bool * SoftwareRenderer :=
  let '(_edges, (longEdgeIndex, s1, s2)) := _createEdgesForTriangle triangle in
  let longEdge := _edges !!! longEdgeIndex in
  if _verticalLongEdgeCull r longEdge then (true, r)
  else
    let _edges := (fun e => invertZ (roundOccludeeCoordinates e)) <$> _edges in
    let longEdge := _edges !!! longEdgeIndex in
    let shortEdge := _edges !!! s1 in
    match _edgePreRenderProcess r longEdge shortEdge with
    | Some edgeData =>
        let orientationData := _calculateOrientationData edgeData shortEdge longEdge in
        if _horizontalLongEdgeCull r longEdge orientationData then (true, r)
        else
          let '(occluded, r) := _isEdgeOccluded edgeData orientationData r in
          if negb occluded then (false, r)
          else probeSecondPortion _edges longEdge s2 (Some orientationData) r
    | None => probeSecondPortion _edges longEdge s2 None r
    end.

(** ** Entities *)

(** Modelled from the spec: the bound classes are not part of the
    sources at hand.  A bound is a "discriminated union (Box{center,
    extents} or Sphere{center, radius})"; [OtherBound] stands for any
    value that is an instance of neither class. *)
Inductive ModelBound :=
  | BoundingSphere (center : Vec3) (radius : Q)
  | BoundingBox (center : Vec3) (xExtent yExtent zExtent : Q)
  | OtherBound.

(** An entity, as far as the renderer reads it:
    [meshRendererComponent.cullMode], [meshDataComponent.modelBound],
    [occluderComponent.meshData.dataViews.POSITION],
    [occluderComponent.meshData.indexData.data] and
    [transformComponent.worldTransform.matrix]. *)
Record Entity := mkEntity {
  cullMode : string;
  modelBound : ModelBound;
  POSITION : list Q;
  indexData : list nat;
  worldTransform : Matrix4x4
}.

#[global] Instance Q_inhabited : Inhabited Q := populate 0.

Definition _projectionTransform (vertices : list Vector4) (matrix : Matrix4x4)
    : list Vector4 :=
  (fun v =>
     let v := applyPost matrix v in
     let div := 1 / vw v in
     mkVector4 (vx v * div) (vy v * div) (vz v) (vw v)) <$> vertices.

Definition _transformToScreenSpace (r : SoftwareRenderer) (vertices : list Vector4)
    : list Vector4 :=
  (fun vertex =>
     mkVector4 ((vx vertex + 1) * (inject_Z (_clipX r) / 2))
               ((vy vertex + 1) * (inject_Z (_clipY r) / 2))
               (vz vertex) (vw vertex)) <$> vertices.

(** The first loop of [_createTrianglesForEntity]: every position triple
    is taken to camera space.  [posArray.set([x, y, z], i)] runs past the
    end of [posArray], a [RangeError], when the positions do not come in
    whole triples. *)
Fixpoint transformPositions (combinedMatrix : Matrix4x4) (originalPositions : list Q)
    : Completion (list Q) :=
  match originalPositions with
  | [] => Normal []
  | x :: y :: z :: rest =>
      let tempVertex := applyPost combinedMatrix (mkVector4 x y z 1) in
      match transformPositions combinedMatrix rest with
      | Normal posArray => Normal (vx tempVertex :: vy tempVertex :: vz tempVertex :: posArray)
      | Throw e => Throw e
      end
  | _ => Throw RangeError
  end.

(** The second loop of [_createTrianglesForEntity], over index triples.
    A position index outside [posArray] and an incomplete last triple
    make the source compute with [undefined]; here such a read gives [0]
    and an incomplete triple ends the loop. *)
Fixpoint trianglesLoop (r : SoftwareRenderer) (cam : Camera)
    (cameraProjectionMatrix : Matrix4x4) (posArray : list Q)
    (vertIndexArray : list nat) (triangles : list Triangle) : list Triangle :=
  match vertIndexArray with
  | i1 :: i2 :: i3 :: rest =>
      let vertexAt (i : nat) :=
        let posIndex := (i * 3)%nat in
        mkVector4 (posArray !!! posIndex) (posArray !!! (posIndex + 1)%nat)
                  (posArray !!! (posIndex + 2)%nat) 1 in
      let triangles :=
        match clipStage (near cam) (vertexAt i1) (vertexAt i2) (vertexAt i3) with
        | None => triangles
        | Some (vertices, outsideIndices, insideIndices) =>
            let vertices := _projectionTransform vertices cameraProjectionMatrix in
            let vertices := _transformToScreenSpace r vertices in
            _createTriangles vertices outsideIndices insideIndices triangles
        end in
      trianglesLoop r cam cameraProjectionMatrix posArray rest triangles
  | _ => triangles
  end.

Definition _createTrianglesForEntity (r : SoftwareRenderer) (cam : Camera)
    (entity : Entity) (cameraViewMatrix cameraProjectionMatrix : Matrix4x4)
    : Completion (list Triangle) :=
  let originalPositions := POSITION entity in
  let vertIndexArray := indexData entity in
  let entitityWorldTransformMatrix := worldTransform entity in
  let combinedMatrix := combine cameraViewMatrix entitityWorldTransformMatrix in
  match transformPositions combinedMatrix originalPositions with
  | Throw e => Throw e
  | Normal posArray =>
      Normal (trianglesLoop r cam cameraProjectionMatrix posArray vertIndexArray [])
  end.

(** ** [render] *)

Definition renderTriangles (triangles : list Triangle) (r : SoftwareRenderer)
    : SoftwareRenderer :=
  foldl (fun r t => _renderTriangle t r) r triangles.

(** The loop over [renderList]. *)
Fixpoint renderLoop (cam : Camera) (renderList : list Entity) (r : SoftwareRenderer)
    : Completion unit * SoftwareRenderer :=
  match renderList with
  | [] => (Normal tt, r)
  | entity :: rest =>
      match _createTrianglesForEntity r cam entity
              (getViewMatrix cam) (getProjectionMatrix cam) with
      | Throw e => (Throw e, r)
      | Normal triangles => renderLoop cam rest (renderTriangles triangles r)
      end
  end.

(** [render(renderList)]: the completion and the renderer afterwards.
    Reading [this.camera.getViewMatrix] on a missing camera is a
    [TypeError]. *)
Definition render (renderList : list Entity) (r : SoftwareRenderer)
    : Completion unit * SoftwareRenderer :=
  match _clearDepthData r with
  | Throw e => (Throw e, r)
  | Normal r =>
      match camera r with
      | None => (Throw TypeError, r)
      | Some cam => renderLoop cam renderList r
      end
  end.

(** ** [performOcclusionCulling] *)

Section OcclusionCulling.

(** The two occlusion modules ([BoundingSphereOcclusionModule],
    [BoundingBoxOcclusionModule]) are not part of the sources at hand;
    their [occlusionCull] methods are parameters.  Each receives the
    renderer it was built around and answers whether the entity is
    occluded. *)
Variable boundingSphereModule_occlusionCull :
  SoftwareRenderer -> Entity -> Matrix4x4 -> Matrix4x4 -> Q -> bool * SoftwareRenderer.
Variable boundingBoxModule_occlusionCull :
  SoftwareRenderer -> Entity -> Matrix4x4 -> bool * SoftwareRenderer.

(** What the loop of [performOcclusionCulling] carries from one
    iteration to the next.  [cull] is declared with [var] inside the
    loop body and is therefore one variable of the whole function:
    [None] is [undefined], its value before the first assignment.
    [probed] is instrumentation: the entities handed to a module. *)
Record CullState := mkCullState {
  cull : option bool;
  visibleEntities : list Entity;
  probed : list Entity;
  renderer : SoftwareRenderer
}.

(** [!cull]. *)
Definition notCull (cull : option bool) : bool :=
  match cull with
  | Some c => negb c
  | None => true
  end.

Definition cullStep (cameraViewMatrix cameraProjectionMatrix
    cameraViewProjectionMatrix : Matrix4x4) (cameraNearZInWorld : Q)
    (s : CullState) (entity : Entity) : CullState :=
  if negb (String.eqb (cullMode entity) "NeverOcclusionCull") then
    let s :=
      match modelBound entity with
      | BoundingSphere _ _ =>
          let '(c, r) :=
            boundingSphereModule_occlusionCull (renderer s) entity
              cameraViewMatrix cameraProjectionMatrix cameraNearZInWorld in
          mkCullState (Some c) (visibleEntities s) (probed s ++ [entity]) r
      | BoundingBox _ _ _ _ =>
          let '(c, r) :=
            boundingBoxModule_occlusionCull (renderer s) entity
              cameraViewProjectionMatrix in
          mkCullState (Some c) (visibleEntities s) (probed s ++ [entity]) r
      | OtherBound => s
      end in
    if notCull (cull s)
    then mkCullState (cull s) (visibleEntities s ++ [entity]) (probed s) (renderer s)
    else s
  else
    mkCullState (cull s) (visibleEntities s ++ [entity]) (probed s) (renderer s).

(** The state after the loop, when the camera is there. *)
Definition cullLoop (cam : Camera) (renderList : list Entity) (r : SoftwareRenderer)
    : CullState :=
  let cameraViewMatrix := getViewMatrix cam in
  let cameraProjectionMatrix := getProjectionMatrix cam in
  let cameraViewProjectionMatrix := combine cameraProjectionMatrix cameraViewMatrix in
  let cameraNearZInWorld := - near cam in
  foldl (cullStep cameraViewMatrix cameraProjectionMatrix
           cameraViewProjectionMatrix cameraNearZInWorld)
        (mkCullState None [] [] r) renderList.

Definition performOcclusionCulling (renderList : list Entity) (r : SoftwareRenderer)
    : Completion (list Entity) * SoftwareRenderer :=
  match camera r with
  | None => (Throw TypeError, r)
  | Some cam =>
      let s := cullLoop cam renderList r in
      (Normal (visibleEntities s), renderer s)
  end.

End OcclusionCulling.

(** An entity exempt from occlusion culling. *)
Definition neverCulled (e : Entity) : Prop :=
  cullMode e = "NeverOcclusionCull"%string.

#[global] Instance neverCulled_dec (e : Entity) : Decision (neverCulled e).
Proof. unfold neverCulled. apply _. Defined.

(** ** Sample objects *)

Definition sampleCamera : Camera := mkCamera 1 identity4 identity4.

Definition sampleParameters : Parameters := mkParameters 8 8 (Some sampleCamera).

(** The renderer [new SoftwareRenderer({width: 8, height: 8, camera})]. *)
Definition sampleRenderer : SoftwareRenderer :=
  mkSoftwareRenderer 8 8 7 7 (Some sampleCamera)
    (replicate 64 0) (replicate 64 0) [] [].

(** Modules that report every entity as occluded, as they do for
    entities hidden behind a full-screen occluder. *)
Definition sphereAlwaysOccluded (r : SoftwareRenderer) (e : Entity)
    (V P : Matrix4x4) (nearZ : Q) : bool * SoftwareRenderer := (true, r).

Definition boxAlwaysOccluded (r : SoftwareRenderer) (e : Entity)
    (VP : Matrix4x4) : bool * SoftwareRenderer := (true, r).

Definition hiddenSphere : Entity :=
  mkEntity "Dynamic" (BoundingSphere (0, 0, -5) 1) [] [] identity4.

Definition unboundedEntity : Entity :=
  mkEntity "Dynamic" OtherBound [] [] identity4.

Definition exemptEntity : Entity :=
  mkEntity "NeverOcclusionCull" (BoundingSphere (0, 0, -5) 1) [] [] identity4.

(** ** Statements in the words of the design document *)

(** "ConfigError: non-positive W or H, missing camera, near <= 0.
    Reported at construction." *)
Definition invalidConfiguration (p : Parameters) : Prop :=
  (p_width p <= 0)%Z \/ (p_height p <= 0)%Z \/ p_camera p = None \/
  (exists c, p_camera p = Some c /\ near c <= 0).

Definition config_error_as_documented : Prop :=
  forall p, invalidConfiguration p -> exists e, SoftwareRenderer_new p = Throw e.

(** "A depth value falls outside [0, 1+eps]; logged and clamped." *)
Definition clampDepth (z : Q) : Q :=
  if Qltb z 0 then 0
  else if Qgtb z (10000001 # 10000000) then 10000001 # 10000000
  else z.

Definition depth_clamped_as_documented : Prop :=
  forall (leftX rightX y : Z) (leftZ rightZ : Q) (r : SoftwareRenderer),
    Forall2 Qeq
      (_depthData (_fillPixels leftX rightX y leftZ rightZ r))
      (_depthData (_fillPixels leftX rightX y (clampDepth leftZ) (clampDepth rightZ) r)) /\
    (_isScanlineOccluded leftX rightX y leftZ rightZ r).1 =
    (_isScanlineOccluded leftX rightX y (clampDepth leftZ) (clampDepth rightZ) r).1.

(** The entries [console.error] receives for a pair of end depths. *)
Definition depthWarnings (leftLabel : string) (leftZ rightZ : Q) : list (string * Q) :=
  (if outsideDepthRange leftZ then [(leftLabel, leftZ)] else []) ++
  (if outsideDepthRange rightZ then [("rightZ : "%string, rightZ)] else []).

(** An entity whose bound is neither a sphere nor a box is visible. *)
Definition unbounded_visible_as_documented : Prop :=
  forall sphereCull boxCull (renderList : list Entity) (r : SoftwareRenderer)
         (cam : Camera) (e : Entity),
    camera r = Some cam ->
    e ∈ renderList -> modelBound e = OtherBound ->
    e ∈ visibleEntities (cullLoop sphereCull boxCull cam renderList r).

(** ** Reachable renderers *)

(** The renderers that exist at run time: built by the constructor and
    then changed only through the methods of the class.  The occlusion
    modules reach the renderer through [isRenderedTriangleOccluded]. *)
Inductive Reachable : SoftwareRenderer -> Prop :=
  | reach_new (p : Parameters) (r : SoftwareRenderer) :
      SoftwareRenderer_new p = Normal r -> Reachable r
  | reach_render (renderList : list Entity) (r : SoftwareRenderer) :
      Reachable r -> Reachable (render renderList r).2
  | reach_renderTriangle (t : Triangle) (r : SoftwareRenderer) :
      Reachable r -> Reachable (_renderTriangle t r)
  | reach_probe (t : Triangle) (r : SoftwareRenderer) :
      Reachable r -> Reachable (isRenderedTriangleOccluded t r).2.

(** The renderer's dimensions agree with its clip bounds. *)
Definition wellSized (r : SoftwareRenderer) : Prop :=
  _clipX r = (width r - 1)%Z /\ _clipY r = (height r - 1)%Z.

Definition inBounds (r : SoftwareRenderer) (index : Z) : Prop :=
  (0 <= index < width r * height r)%Z.

(** Every depth test in [tests] is at an index inside the buffer. *)
Definition allInBounds (r : SoftwareRenderer) (tests : list (Z * Q)) : Prop :=
  Forall (fun test => inBounds r test.1) tests.

(** [r'] has the configuration of [r]: same dimensions, clip bounds,
    camera and clear buffer, and a depth buffer of the same length. *)
Definition sameFrame (r r' : SoftwareRenderer) : Prop :=
  width r' = width r /\ height r' = height r /\
  _clipX r' = _clipX r /\ _clipY r' = _clipY r /\
  camera r' = camera r /\ _depthClear r' = _depthClear r /\
  length (_depthData r') = length (_depthData r).

(** [r'] is [r] after further depth tests, all inside the buffer. *)
Definition extendsInBounds (r r' : SoftwareRenderer) : Prop :=
  sameFrame r r' /\
  exists tests, accessed r' = accessed r ++ tests /\ allInBounds r tests.

(** [r'] has the configuration of [r] and at least its depth in every
    cell. *)
Definition depthLe (r r' : SoftwareRenderer) : Prop :=
  sameFrame r r' /\ Forall2 Qle (_depthData r) (_depthData r').

(** [r'] is [r] after some depth tests, the last of which, at a pixel
    (x, y) of the viewport, found the probed depth above the stored
    one. *)
Definition endsAtVisiblePixel (r r' : SoftwareRenderer) : Prop :=
  exists tests x y depth stored,
    accessed r' = accessed r ++ tests ++ [((y * width r + x)%Z, depth)] /\
    (0 <= x <= _clipX r)%Z /\ (0 <= y <= _clipY r)%Z /\
    typedArrayGet (_depthData r) (y * width r + x) = Some stored /\
    stored < depth.

(** A screen-space triangle at depth 1/2 (w = 2). *)
Definition sampleTriangle : Triangle :=
  mkTriangle (mkVector4 1 1 (-2) 2) (mkVector4 5 1 (-2) 2) (mkVector4 1 5 (-2) 2).

(** A value read off the renderer that depends on its configuration
    only, not on the depth buffer. *)
Definition frameOnly {A : Type} (v : SoftwareRenderer -> A) : Prop :=
  forall r r', sameFrame r r' -> v r' = v r.

(** An operation on the renderer that can only raise stored depths, and
    raises them no less when it starts from greater ones. *)
Definition DepthOp (f : SoftwareRenderer -> SoftwareRenderer) : Prop :=
  (forall r, depthLe r (f r)) /\
  (forall r r', depthLe r r' -> depthLe (f r) (f r')).

(** A camera at the origin looking down -z whose projection leaves x, y
    and z alone and sets w = -z; two occluders, each one triangle at
    z = -2 and z = -4. *)
Definition projectingCamera : Camera :=
  mkCamera 1 identity4
    (mkMatrix4x4 (mkVector4 1 0 0 0) (mkVector4 0 1 0 0)
                 (mkVector4 0 0 1 0) (mkVector4 0 0 (-1) 0)).

Definition projectingRenderer : SoftwareRenderer :=
  mkSoftwareRenderer 8 8 7 7 (Some projectingCamera)
    (replicate 64 0) (replicate 64 0) [] [].

Definition nearOccluder : Entity :=
  mkEntity "Dynamic" OtherBound
    [-1; -1; -2;  1; -1; -2;  -1; 1; -2] [0; 1; 2]%nat identity4.

Definition farOccluder : Entity :=
  mkEntity "Dynamic" OtherBound
    [-4; -4; -4;  4; -4; -4;  4; 4; -4] [0; 1; 2]%nat identity4.

(** The image of a triangle under a map on vertices. *)
Definition mapTriangle (f : Vector4 -> Vector4) (t : Triangle) : Triangle :=
  mkTriangle (f (v1 t)) (f (v2 t)) (f (v3 t)).

(** ** Depth tests as data *)

(** One depth test of [_fillPixels]: the body of its pixel loop. *)
Definition fillStep (index : Z) (depth : Q) (r : SoftwareRenderer) : SoftwareRenderer :=
  let r := note_access index depth r in
  if gtStored depth (typedArrayGet (_depthData r) index)
  then set_depthData (typedArraySet (_depthData r) index depth) r
  else r.

(** The effect of one recorded depth test on a buffer, and of a list of
    them in order. *)
Definition applyTest (b : list Q) (test : Z * Q) : list Q :=
  if gtStored test.2 (typedArrayGet b test.1)
  then typedArraySet b test.1 test.2
  else b.

Definition applyTests (tests : list (Z * Q)) (b : list Q) : list Q :=
  foldl applyTest b tests.

(** The buffer [b] already holds, at the test's index, a depth that the
    test does not exceed (or the index is outside the buffer). *)
Definition passes (b : list Q) (test : Z * Q) : Prop :=
  gtStored test.2 (typedArrayGet b test.1) = false.

(** An operation that makes a list of depth tests fixed by the
    configuration of the renderer alone, and leaves the buffer those
    tests produce. *)
Definition TraceOp (f : SoftwareRenderer -> SoftwareRenderer) : Prop :=
  forall r, exists tests, forall r', sameFrame r r' ->
    sameFrame r' (f r') /\
    accessed (f r') = accessed r' ++ tests /\
    _depthData (f r') = applyTests tests (_depthData r').

(** One iteration of the loop of [render] on a renderer with camera
    [cam]: the triangles of [entity] are drawn; nothing is drawn when
    creating them throws. *)
Definition renderEntity (cam : Camera) (entity : Entity) (r : SoftwareRenderer)
    : SoftwareRenderer :=
  match _createTrianglesForEntity r cam entity
          (getViewMatrix cam) (getProjectionMatrix cam) with
  | Normal triangles => renderTriangles triangles r
  | Throw _ => r
  end.

(** Two renderers of one configuration whose depth buffers agree cell
    by cell as numbers. *)
Definition depthEq (r r' : SoftwareRenderer) : Prop :=
  sameFrame r r' /\ Forall2 Qeq (_depthData r) (_depthData r').

(** The triangles of [entity] can be created: its positions come in
    whole triples. *)
Definition renderable (r : SoftwareRenderer) (cam : Camera) (entity : Entity) : Prop :=
  exists triangles,
    _createTrianglesForEntity r cam entity (getViewMatrix cam) (getProjectionMatrix cam)
    = Normal triangles.

(** A small screen-space triangle at depth 1/8, behind [farOccluder]. *)
Definition hiddenTriangle : Triangle :=
  mkTriangle (mkVector4 4 1 (-8) 8) (mkVector4 6 1 (-8) 8) (mkVector4 6 2 (-8) 8).

(** The scalar triple product v1 . (v2 x v3). *)
Definition triple3 (a b c : Vec3) : Q := dot3 a (cross3 b c).

(** [_isBackFacingProjected]: the back-face test on projected vertices. *)
Definition _isBackFacingProjected (v1 v2 v3 : Vector4) : bool :=
  let e1X := vx v2 - vx v1 in
  let e1Y := vy v2 - vy v1 in
  let e2X := vx v3 - vx v1 in
  let e2Y := vy v3 - vy v1 in
  let faceNormalZ := e2Y * e1X - e2X * e1Y in
  Qltb faceNormalZ 0.

(** Twice the signed area of a triangle in the x-y plane, positive when
    counter-clockwise. *)
Definition signedArea2 (a b c : Vector4) : Q :=
  (vx b - vx a) * (vy c - vy a) - (vx c - vx a) * (vy b - vy a).

(** The height of an edge. *)
Definition edgeHeight (e : Edge) : Q := y1 e - y0 e.

(** The x coordinate and the depth of an edge on the line [y], by
    linear interpolation between its endpoints. *)
Definition edgeXAt (e : Edge) (y : Q) : Q :=
  x0 e + (y - y0 e) * ((x1 e - x0 e) / (y1 e - y0 e)).

Definition edgeZAt (e : Edge) (y : Q) : Q :=
  z0 e + (y - y0 e) * ((z1 e - z0 e) / (y1 e - y0 e)).

(** [edgeData] after [n] calls of [_updateEdgeDataToNextLine]. *)
Definition afterLines (n : nat) (edgeData : EdgeData) : EdgeData :=
  Nat.iter n _updateEdgeDataToNextLine edgeData.

(** The tests of the pixel loop of [_fillPixels]: [n] pixels from
    [index] on, the depth growing by [depthIncrement] at each. *)
Fixpoint spanTests (n : nat) (index : Z) (depth depthIncrement : Q) : list (Z * Q) :=
  match n with
  | O => []
  | S n' => (index, depth) :: spanTests n' (index + 1)%Z (depth + depthIncrement) depthIncrement
  end.

(** ** The colour buffer *)

(** The conversion a [Uint8Array] applies to a stored number:
    truncation towards zero, then modulo 256. *)
Definition ToUint8 (x : Q) : Z := (Z.quot (Qnum x) (Z.pos (Qden x)) mod 256)%Z.

(** [a[index] = v] on a [Uint8Array]: a write outside the array is
    ignored. *)
Definition uint8ArraySet (a : list Z) (index : Z) (v : Q) : list Z :=
  if (index <? 0)%Z then a else <[Z.to_nat index := ToUint8 v]> a.

(** The loop of [copyDepthToColor] over the cells of the depth buffer
    still to come. *)
Fixpoint copyLoop (depthData : list Q) (colorIndex : Z) (_colorData : list Z) : list Z :=
  match depthData with
  | [] => _colorData
  | d :: rest =>
      let depth := d * 255 in
      let _colorData := uint8ArraySet _colorData colorIndex depth in
      let colorIndex := (colorIndex + 1)%Z in
      let _colorData := uint8ArraySet _colorData colorIndex depth in
      let colorIndex := (colorIndex + 1)%Z in
      let _colorData := uint8ArraySet _colorData colorIndex depth in
      let colorIndex := (colorIndex + 1)%Z in
      let _colorData := uint8ArraySet _colorData colorIndex 255 in
      let colorIndex := (colorIndex + 1)%Z in
      copyLoop rest colorIndex _colorData
  end.

(** [copyDepthToColor]; the colour buffer, which the renderer record
    leaves out, is passed and returned. *)
Definition copyDepthToColor (r : SoftwareRenderer) (_colorData : list Z) : list Z :=
  copyLoop (_depthData r) 0 _colorData.

(** The grey, opaque RGBA pixel of a depth. *)
Definition greyPixel (d : Q) : list Z :=
  let g := Qfloor (d * 255) in [g; g; g; 255%Z].

(** * Properties *)

Lemma Qltb_lt (a b : Q) : Qltb a b = true <-> a < b.
Proof.
  unfold Qltb. rewrite negb_true_iff, <- not_true_iff_false, Qle_bool_iff.
  split; [apply Qnot_le_lt | apply Qlt_not_le].
Qed.

Lemma Qltb_ge (a b : Q) : Qltb a b = false <-> b <= a.
Proof.
  unfold Qltb. rewrite negb_false_iff. apply Qle_bool_iff.
Qed.

Lemma Qleb_le (a b : Q) : Qleb a b = true <-> a <= b.
Proof. apply Qle_bool_iff. Qed.

Lemma Qleb_gt (a b : Q) : Qleb a b = false <-> b < a.
Proof.
  unfold Qleb. rewrite <- not_true_iff_false, Qle_bool_iff.
  split; [apply Qnot_le_lt | apply Qlt_not_le].
Qed.

(** ** Back-face test *)


(** C1, as documented, fails: the counter-clockwise triangle
    (0,0,-1), (1,0,-1), (0,1,-1) facing the camera has
    ((v3-v1) x (v2-v1)) . v1 = 1 > 0, yet the test answers [false]. *)
Lemma backface_sign_as_documented_fails : ~ backface_sign_as_documented.
Proof.
  intros H. specialize (H ccw_v1 ccw_v2 ccw_v3).
  assert (Hpos : 0 < dot3 (cross3 (sub3 (xyz ccw_v3) (xyz ccw_v1))
                                  (sub3 (xyz ccw_v2) (xyz ccw_v1))) (xyz ccw_v1))
    by (vm_compute; reflexivity).
  apply H in Hpos. vm_compute in Hpos. discriminate Hpos.
Qed.

(** C1, amended: in exact arithmetic, with no product or sum of the
    test rounded, [_isBackFacingCameraViewSpace v1 v2 v3] answers [true]
    exactly when ((v2-v1) x (v3-v1)) . v1 > 0, that is, when the normal
    e1 x e2 of the triangle points away from the camera. *)
Theorem backface_sign (v1 v2 v3 : Vector4) :
  _isBackFacingCameraViewSpace v1 v2 v3 = true <->
  0 < dot3 (cross3 (sub3 (xyz v2) (xyz v1)) (sub3 (xyz v3) (xyz v1))) (xyz v1).
Proof.
  destruct v1 as [x1 y1 z1 w1], v2 as [x2 y2 z2 w2], v3 as [x3 y3 z3 w3].
  unfold _isBackFacingCameraViewSpace, Qgtb; cbn [vx vy vz vw xyz sub3 cross3 dot3].
  rewrite Qltb_lt.
  match goal with |- 0 < ?a <-> 0 < ?b => assert (E : a == b) by ring end.
  rewrite E. reflexivity.
Qed.

(** ** Near-plane clipping *)

Lemma intersection_on_near_plane (near oz tz : Q) :
  tz <= - near -> - near < oz ->
  oz + (oz + near) / (oz - tz) * (tz - oz) == - near.
Proof. intros Ht Ho. field. lra. Qed.

Lemma intersection_behind_near (near oz tz : Q) :
  tz <= - near -> - near < oz ->
  oz + (oz + near) / (oz - tz) * (tz - oz) <= - near.
Proof.
  intros Ht Ho. rewrite (intersection_on_near_plane near oz tz Ht Ho).
  apply Qle_refl.
Qed.

(** C2: a front-facing triangle with one or two vertices in front of
    the near plane is clipped; every intersection point is
    origin + r (target - origin) with r = (origin.z + n) / (origin.z - target.z),
    and every vertex of every emitted triangle has z <= -n. *)
Theorem clip_emits_behind_near (near : Q) (a b c : Vector4)
    (outsideIndices insideIndices : list nat) :
  _isBackFacingCameraViewSpace a b c = false ->
  _categorizeVertices [] [] [a; b; c] (- near) = (outsideIndices, insideIndices) ->
  (length outsideIndices = 1 \/ length outsideIndices = 2)%nat ->
  exists clipped,
    clipStage near a b c = Some (clipped, outsideIndices, insideIndices) /\
    clippedAsDocumented near [a; b; c] clipped outsideIndices insideIndices /\
    Forall (fun t => Forall (fun v => vz v <= - near) (verticesOf t))
           (_createTriangles clipped outsideIndices insideIndices []).
Proof.
  intros Hfront Hcat Hlen. unfold clipStage. rewrite Hfront, Hcat. clear Hfront.
  unfold _categorizeVertices in Hcat. simpl in Hcat.
  destruct (Qleb (vz a) (- near)) eqn:Ha, (Qleb (vz b) (- near)) eqn:Hb,
           (Qleb (vz c) (- near)) eqn:Hc;
    simpl in Hcat; injection Hcat as <- <-; simpl in Hlen;
    try (exfalso; lia);
    rewrite ?Qleb_le, ?Qleb_gt in *;
    (eexists; split; [reflexivity|]);
    (split; [cbn; repeat split; reflexivity|]);
    cbn; unfold _calculateIntersectionRatio;
    repeat (first [apply Forall_cons; split | apply Forall_nil]);
    cbn; try exact I; try assumption; apply intersection_behind_near; assumption.
Qed.

Lemma clip_emits_behind_near_witness :
  exists clipped,
    clipStage 1 split_v1 split_v2 split_v3 = Some (clipped, [0%nat], [1%nat; 2%nat]) /\
    clippedAsDocumented 1 [split_v1; split_v2; split_v3] clipped [0%nat] [1%nat; 2%nat] /\
    Forall (fun t => Forall (fun v => vz v <= - 1) (verticesOf t))
           (_createTriangles clipped [0%nat] [1%nat; 2%nat] []).
Proof.
  apply (clip_emits_behind_near 1 split_v1 split_v2 split_v3 [0%nat] [1%nat; 2%nat]).
  - reflexivity.
  - reflexivity.
  - left; reflexivity.
Defined.

(** Projection and screen mapping act on each vertex, so the triangles
    [_createTrianglesForEntity] pushes are the images of the camera-space
    triangles formed from the clipped vertices. *)
Lemma createTriangles_fmap (near : Q) (a b c : Vector4) (clipped : list Vector4)
    (outsideIndices insideIndices : list nat) (f : Vector4 -> Vector4)
    (triangles : list Triangle) :
  clipStage near a b c = Some (clipped, outsideIndices, insideIndices) ->
  _createTriangles (f <$> clipped) outsideIndices insideIndices triangles
  = triangles ++ (mapTriangle f <$> _createTriangles clipped outsideIndices insideIndices []).
Proof.
  unfold clipStage. destruct (_isBackFacingCameraViewSpace a b c); [discriminate|].
  unfold _categorizeVertices. simpl.
  destruct (Qleb (vz a) (- near)), (Qleb (vz b) (- near)), (Qleb (vz c) (- near));
    simpl; intros [= <- <- <-]; reflexivity.
Qed.

(** The split of the design document's fifth scenario: the vertex at
    z = -1/2 moves to the near plane with ratio 1/3 along both edges. *)
Example split_ratio :
  _calculateIntersectionRatio split_v1 split_v2 1 == 1 # 3 /\
  _calculateIntersectionRatio split_v1 split_v3 1 == 1 # 3.
Proof. split; reflexivity. Qed.

(** ** Occlusion culling: order and exempt entities *)

Section OcclusionCullingProperties.

Variable sphereCull :
  SoftwareRenderer -> Entity -> Matrix4x4 -> Matrix4x4 -> Q -> bool * SoftwareRenderer.
Variable boxCull :
  SoftwareRenderer -> Entity -> Matrix4x4 -> bool * SoftwareRenderer.

Variables (V P VP : Matrix4x4) (nearZ : Q).

Local Abbreviation step := (cullStep sphereCull boxCull V P VP nearZ).

Lemma cullStep_never (s : CullState) (e : Entity) :
  neverCulled e ->
  step s e = mkCullState (cull s) (visibleEntities s ++ [e]) (probed s) (renderer s).
Proof.
  intros Hn. unfold cullStep. rewrite Hn. reflexivity.
Qed.

Lemma cullStep_not_never (s : CullState) (e : Entity) :
  ~ neverCulled e ->
  exists vs ps,
    visibleEntities (step s e) = visibleEntities s ++ vs /\
    vs `sublist_of` [e] /\
    probed (step s e) = probed s ++ ps /\
    ps `sublist_of` [e].
Proof.
  intros Hn. unfold cullStep.
  destruct (String.eqb_spec (cullMode e) "NeverOcclusionCull") as [Heq|_];
    [contradiction|]. cbn [negb].
  destruct (modelBound e) as [c rad|c ex ey ez|].
  - destruct (sphereCull _ _ _ _ _) as [[] r']; cbn.
    + exists [], [e]. rewrite app_nil_r. repeat split; [apply sublist_nil_l|done].
    + exists [e], [e]. done.
  - destruct (boxCull _ _ _) as [[] r']; cbn.
    + exists [], [e]. rewrite app_nil_r. repeat split; [apply sublist_nil_l|done].
    + exists [e], [e]. done.
  - destruct (notCull (cull s)); cbn.
    + exists [e], []. rewrite app_nil_r. repeat split; [done|apply sublist_nil_l].
    + exists [], []. rewrite !app_nil_r. repeat split; apply sublist_nil_l.
Qed.

Lemma cullLoop_invariant (renderList : list Entity) (s : CullState) :
  exists vs ps,
    visibleEntities (foldl step s renderList) = visibleEntities s ++ vs /\
    vs `sublist_of` renderList /\
    filter neverCulled renderList `sublist_of` vs /\
    probed (foldl step s renderList) = probed s ++ ps /\
    Forall (fun e => ~ neverCulled e) ps.
Proof.
  revert s. induction renderList as [|e l IH]; intros s.
  - exists [], []. cbn. rewrite !app_nil_r. repeat split; try done.
  - cbn [foldl]. destruct (IH (step s e)) as (vs & ps & Hv & Hsub & Hnev & Hp & Hps).
    destruct (decide (neverCulled e)) as [Hn|Hn].
    + rewrite (cullStep_never s e Hn) in Hv, Hp |- *. cbn in Hv, Hp.
      exists (e :: vs), ps. rewrite Hv, Hp, <- app_assoc. cbn.
      split; [done|]. split; [by apply sublist_skip|].
      split; [|done].
      rewrite decide_True by done. by apply sublist_skip.
    + destruct (cullStep_not_never s e Hn) as (v1 & p1 & Hv1 & Hs1 & Hp1 & Hq1).
      exists (v1 ++ vs), (p1 ++ ps). rewrite Hv, Hp, Hv1, Hp1, <- !app_assoc.
      split; [done|]. split.
      { change (e :: l) with ([e] ++ l). by apply sublist_app. }
      split.
      { rewrite filter_cons_False by done. by apply sublist_inserts_l. }
      split; [done|].
      { apply Forall_app. split; [|done].
        apply Forall_forall. intros x Hx.
        assert (Hin : x ∈ [e]) by (by apply (sublist_subseteq p1 [e] Hq1)).
        apply list_elem_of_singleton in Hin. by subst. }
Qed.

(** After an entity that a module reports as occluded, an entity whose
    bound is neither a sphere nor a box is left out: [cull] still holds
    the previous answer. *)
Lemma cullStep_stale (s : CullState) (e : Entity) :
  ~ neverCulled e -> modelBound e = OtherBound -> cull s = Some true ->
  step s e = s.
Proof.
  intros Hn Hb Hc. unfold cullStep.
  destruct (String.eqb_spec (cullMode e) "NeverOcclusionCull") as [Heq|_];
    [contradiction|].
  cbn [negb]. rewrite Hb, Hc. reflexivity.
Qed.

End OcclusionCullingProperties.

(** C4: [performOcclusionCulling] keeps the relative order of the
    entities it returns, returns every entity whose [cullMode] is
    ['NeverOcclusionCull'], and hands no such entity to an occlusion
    module. *)
Theorem culling_keeps_order_and_exempt
    (sphereCull : SoftwareRenderer -> Entity -> Matrix4x4 -> Matrix4x4 -> Q ->
                  bool * SoftwareRenderer)
    (boxCull : SoftwareRenderer -> Entity -> Matrix4x4 -> bool * SoftwareRenderer)
    (r : SoftwareRenderer) (cam : Camera) (renderList : list Entity) :
  camera r = Some cam ->
  let s := cullLoop sphereCull boxCull cam renderList r in
  performOcclusionCulling sphereCull boxCull renderList r
    = (Normal (visibleEntities s), renderer s) /\
  visibleEntities s `sublist_of` renderList /\
  filter neverCulled renderList `sublist_of` visibleEntities s /\
  Forall (fun e => ~ neverCulled e) (probed s).
Proof.
  intros Hcam s. split.
  - unfold performOcclusionCulling. rewrite Hcam. reflexivity.
  - destruct (cullLoop_invariant sphereCull boxCull
                (getViewMatrix cam) (getProjectionMatrix cam)
                (combine (getProjectionMatrix cam) (getViewMatrix cam))
                (- near cam) renderList (mkCullState None [] [] r))
      as (vs & ps & Hv & Hsub & Hnev & Hp & Hps).
    subst s. unfold cullLoop. rewrite Hv, Hp. cbn. done.
Qed.

(** C10: the code does not include every entity whose bound is neither
    a sphere nor a box.  [cull] keeps the answer given for the previous
    entity: after a sphere that is occluded, an entity without a known
    bound is left out, although alone it is returned. *)
Theorem stale_cull_hides_unbounded_entity :
  performOcclusionCulling sphereAlwaysOccluded boxAlwaysOccluded
    [hiddenSphere; unboundedEntity] sampleRenderer = (Normal [], sampleRenderer) /\
  performOcclusionCulling sphereAlwaysOccluded boxAlwaysOccluded
    [unboundedEntity] sampleRenderer = (Normal [unboundedEntity], sampleRenderer).
Proof. split; reflexivity. Qed.

Lemma unbounded_visible_as_documented_fails : ~ unbounded_visible_as_documented.
Proof.
  intros H.
  specialize (H sphereAlwaysOccluded boxAlwaysOccluded
                [hiddenSphere; unboundedEntity] sampleRenderer sampleCamera
                unboundedEntity eq_refl).
  assert (Hin : unboundedEntity ∈ [hiddenSphere; unboundedEntity])
    by (apply list_elem_of_further, list_elem_of_here).
  specialize (H Hin eq_refl). vm_compute in H. inversion H.
Qed.

Lemma culling_keeps_order_and_exempt_witness :
  let s := cullLoop sphereAlwaysOccluded boxAlwaysOccluded sampleCamera
             [hiddenSphere; exemptEntity; unboundedEntity] sampleRenderer in
  performOcclusionCulling sphereAlwaysOccluded boxAlwaysOccluded
    [hiddenSphere; exemptEntity; unboundedEntity] sampleRenderer
    = (Normal (visibleEntities s), renderer s) /\
  visibleEntities s `sublist_of` [hiddenSphere; exemptEntity; unboundedEntity] /\
  filter neverCulled [hiddenSphere; exemptEntity; unboundedEntity]
    `sublist_of` visibleEntities s /\
  Forall (fun e => ~ neverCulled e) (probed s).
Proof.
  apply (culling_keeps_order_and_exempt sphereAlwaysOccluded boxAlwaysOccluded
           sampleRenderer sampleCamera [hiddenSphere; exemptEntity; unboundedEntity]).
  reflexivity.
Defined.

(** ** Construction *)

Lemma typedArraySet_zero (n : nat) (i : Z) :
  typedArraySet (replicate n 0) i 0 = replicate n 0.
Proof.
  unfold typedArraySet. destruct (i <? 0)%Z; [reflexivity|].
  destruct (decide (Z.to_nat i < n)%nat) as [Hlt|Hge].
  - apply list_insert_id. by apply lookup_replicate_2.
  - apply list_insert_ge. rewrite length_replicate. lia.
Qed.

Lemma clear_buffer_init (n : nat) (indices : list nat) :
  foldl (fun a i => typedArraySet a (Z.of_nat i) 0) (replicate n 0) indices
  = replicate n 0.
Proof.
  induction indices as [|i l IH]; [reflexivity|].
  cbn [foldl]. rewrite typedArraySet_zero. exact IH.
Qed.

Lemma SoftwareRenderer_new_eq (p : Parameters) :
  SoftwareRenderer_new p =
  if (p_width p * p_height p <? 0)%Z then Throw RangeError
  else Normal (mkSoftwareRenderer (p_width p) (p_height p)
                 (p_height p - 1) (p_width p - 1) (p_camera p)
                 (replicate (Z.to_nat (p_width p * p_height p)) 0)
                 (replicate (Z.to_nat (p_width p * p_height p)) 0) [] []).
Proof.
  unfold SoftwareRenderer_new. rewrite clear_buffer_init.
  destruct (Z.ltb_spec (p_width p * p_height p) 0),
           (Z.ltb_spec (p_width p * p_height p * 4 * 1
                        + p_width p * p_height p * 4 * 2) 0);
    try reflexivity; lia.
Qed.

(** C6, as documented, fails: a renderer of width 0 without a camera is
    constructed without any error. *)
Lemma config_error_as_documented_fails : ~ config_error_as_documented.
Proof.
  intros H.
  destruct (H (mkParameters 0 8 None)) as [e He].
  - left. cbn. lia.
  - vm_compute in He. discriminate He.
Qed.

(** C6, amended: the constructor checks nothing.  It fails only when
    the byte length handed to [ArrayBuffer] is negative, that is when
    width * height < 0, and then with the platform's [RangeError];
    otherwise, whatever the sizes, the camera and its near distance, it
    returns a renderer with zeroed depth and clear buffers of
    width * height cells. *)
Theorem constructor_validates_nothing (p : Parameters) :
  ((p_width p * p_height p < 0)%Z /\ SoftwareRenderer_new p = Throw RangeError) \/
  ((0 <= p_width p * p_height p)%Z /\
   exists r, SoftwareRenderer_new p = Normal r /\
     width r = p_width p /\ height r = p_height p /\ camera r = p_camera p /\
     _depthData r = replicate (Z.to_nat (p_width p * p_height p)) 0 /\
     _depthClear r = replicate (Z.to_nat (p_width p * p_height p)) 0 /\
     console r = []).
Proof.
  rewrite SoftwareRenderer_new_eq.
  destruct (Z.ltb_spec (p_width p * p_height p) 0) as [Hneg|Hpos].
  - left. split; [exact Hneg|reflexivity].
  - right. split; [exact Hpos|]. eexists. split; [reflexivity|].
    cbn. repeat split; reflexivity.
Qed.

Lemma sampleRenderer_constructed : SoftwareRenderer_new sampleParameters = Normal sampleRenderer.
Proof. reflexivity. Qed.

(** ** Frames: what the methods leave unchanged *)

Lemma sameFrame_refl (r : SoftwareRenderer) : sameFrame r r.
Proof. unfold sameFrame. repeat split; reflexivity. Qed.

Lemma sameFrame_trans (r1 r2 r3 : SoftwareRenderer) :
  sameFrame r1 r2 -> sameFrame r2 r3 -> sameFrame r1 r3.
Proof.
  unfold sameFrame. intros (?&?&?&?&?&?&?) (?&?&?&?&?&?&?).
  repeat split; congruence.
Qed.

Lemma sameFrame_note_access (i : Z) (d : Q) (r : SoftwareRenderer) :
  sameFrame r (note_access i d r).
Proof. unfold sameFrame. repeat split; reflexivity. Qed.

Lemma sameFrame_console_error (l : string) (v : Q) (r : SoftwareRenderer) :
  sameFrame r (console_error l v r).
Proof. unfold sameFrame. repeat split; reflexivity. Qed.

Lemma sameFrame_set_depthData (d : list Q) (r : SoftwareRenderer) :
  length d = length (_depthData r) -> sameFrame r (set_depthData d r).
Proof. intros H. unfold sameFrame. cbn. repeat split; try reflexivity. exact H. Qed.

Lemma typedArraySet_length (a : list Q) (i : Z) (v : Q) :
  length (typedArraySet a i v) = length a.
Proof. unfold typedArraySet. destruct (i <? 0)%Z; [reflexivity|apply length_insert]. Qed.

Lemma sameFrame_warnDepths (l : string) (lz rz : Q) (r : SoftwareRenderer) :
  sameFrame r (warnDepths l lz rz r).
Proof.
  unfold warnDepths.
  destruct (outsideDepthRange lz), (outsideDepthRange rz);
    unfold sameFrame; repeat split; reflexivity.
Qed.

Lemma sameFrame_fillLoop (n : nat) (index : Z) (depth inc : Q) (r : SoftwareRenderer) :
  sameFrame r (fillLoop n index depth inc r).
Proof.
  revert index depth r. induction n as [|n IH]; intros index depth r.
  - apply sameFrame_refl.
  - cbn [fillLoop]. eapply sameFrame_trans; [|apply IH].
    destruct (gtStored _ _).
    + eapply sameFrame_trans; [apply (sameFrame_note_access index depth)|].
      apply sameFrame_set_depthData. apply typedArraySet_length.
    + apply sameFrame_note_access.
Qed.

Lemma sameFrame_fillPixels (leftX rightX y : Z) (leftZ rightZ : Q) (r : SoftwareRenderer) :
  sameFrame r (_fillPixels leftX rightX y leftZ rightZ r).
Proof.
  unfold _fillPixels. destruct (emptySpan _ _ _); [apply sameFrame_refl|].
  destruct (clipSpan _ _ _ _ _) as [[[lx rx] lz] rz].
  eapply sameFrame_trans; [apply sameFrame_warnDepths|apply sameFrame_fillLoop].
Qed.

Lemma probeLoop_depthData (n : nat) (index : Z) (depth inc : Q) (r : SoftwareRenderer) :
  _depthData (probeLoop n index depth inc r).2 = _depthData r /\
  sameFrame r (probeLoop n index depth inc r).2.
Proof.
  revert index depth r. induction n as [|n IH]; intros index depth r.
  - split; [reflexivity|apply sameFrame_refl].
  - cbn [probeLoop]. destruct (gtStored _ _).
    + split; [reflexivity|apply sameFrame_note_access].
    + destruct (IH (index + 1)%Z (depth + inc) (note_access index depth r)) as [Hd Hf].
      split; [exact Hd|].
      eapply sameFrame_trans; [apply (sameFrame_note_access index depth)|exact Hf].
Qed.

Lemma isScanlineOccluded_depthData (leftX rightX y : Z) (leftZ rightZ : Q)
    (r : SoftwareRenderer) :
  _depthData (_isScanlineOccluded leftX rightX y leftZ rightZ r).2 = _depthData r /\
  sameFrame r (_isScanlineOccluded leftX rightX y leftZ rightZ r).2.
Proof.
  unfold _isScanlineOccluded. destruct (emptySpan _ _ _).
  - split; [reflexivity|apply sameFrame_refl].
  - destruct (clipSpan _ _ _ _ _) as [[[lx rx] lz] rz].
    match goal with |- context [probeLoop ?n ?i ?d ?c ?s] =>
      destruct (probeLoop_depthData n i d c s) as [Hd Hf] end.
    split.
    + rewrite Hd. unfold warnDepths.
      destruct (outsideDepthRange leftZ), (outsideDepthRange rightZ); reflexivity.
    + eapply sameFrame_trans; [apply sameFrame_warnDepths|exact Hf].
Qed.

Lemma sameFrame_drawScanline (o : bool * bool) (d : EdgeData) (y : Z) (r : SoftwareRenderer) :
  sameFrame r (drawScanline o d y r).
Proof.
  unfold drawScanline. destruct o as [[] []]; cbn; apply sameFrame_fillPixels.
Qed.

Lemma sameFrame_drawLoop (n : nat) (o : bool * bool) (d : EdgeData) (y : Z)
    (r : SoftwareRenderer) :
  sameFrame r (drawLoop n o d y r).
Proof.
  revert d y r. induction n as [|n IH]; intros d y r; cbn [drawLoop].
  - apply sameFrame_refl.
  - eapply sameFrame_trans; [apply sameFrame_drawScanline|apply IH].
Qed.

Lemma sameFrame_drawEdges (d : EdgeData) (o : bool * bool) (r : SoftwareRenderer) :
  sameFrame r (_drawEdges d o r).
Proof. apply sameFrame_drawLoop. Qed.

Lemma sameFrame_renderSecondPortion (es : list Edge) (le : Edge) (s2 : nat)
    (o : option (bool * bool)) (r : SoftwareRenderer) :
  sameFrame r (renderSecondPortion es le s2 o r).
Proof.
  unfold renderSecondPortion.
  destruct (_edgePreRenderProcess _ _ _); [|apply sameFrame_refl].
  destruct o; [apply sameFrame_drawEdges|].
  destruct (_horizontalLongEdgeCull _ _ _);
    [apply sameFrame_refl|apply sameFrame_drawEdges].
Qed.

Lemma sameFrame_renderTriangle (t : Triangle) (r : SoftwareRenderer) :
  sameFrame r (_renderTriangle t r).
Proof.
  unfold _renderTriangle.
  destruct (_createEdgesForTriangle t) as [es [[li s1] s2]].
  destruct (_verticalLongEdgeCull _ _); [apply sameFrame_refl|].
  destruct (_edgePreRenderProcess _ _ _); [|apply sameFrame_renderSecondPortion].
  destruct (_horizontalLongEdgeCull _ _ _); [apply sameFrame_refl|].
  eapply sameFrame_trans; [apply sameFrame_drawEdges|apply sameFrame_renderSecondPortion].
Qed.

Lemma sameFrame_renderTriangles (ts : list Triangle) (r : SoftwareRenderer) :
  sameFrame r (renderTriangles ts r).
Proof.
  revert r. induction ts as [|t ts IH]; intros r; cbn.
  - apply sameFrame_refl.
  - eapply sameFrame_trans; [apply sameFrame_renderTriangle|apply IH].
Qed.

Lemma sameFrame_renderLoop (cam : Camera) (l : list Entity) (r : SoftwareRenderer) :
  sameFrame r (renderLoop cam l r).2.
Proof.
  revert r. induction l as [|e l IH]; intros r; cbn [renderLoop].
  - apply sameFrame_refl.
  - destruct (_createTrianglesForEntity _ _ _ _ _); [|apply sameFrame_refl].
    eapply sameFrame_trans; [apply sameFrame_renderTriangles|apply IH].
Qed.

Lemma clearDepthData_spec (r : SoftwareRenderer) :
  length (_depthClear r) = length (_depthData r) ->
  _clearDepthData r = Normal (set_depthData (_depthClear r) r).
Proof.
  intros Hlen. unfold _clearDepthData, typedArraySetAll.
  rewrite Hlen, Nat.leb_refl, drop_all, app_nil_r. reflexivity.
Qed.

Lemma sameFrame_clearDepthData (r r' : SoftwareRenderer) :
  _clearDepthData r = Normal r' -> sameFrame r r'.
Proof.
  unfold _clearDepthData, typedArraySetAll.
  destruct (Nat.leb_spec (length (_depthClear r)) (length (_depthData r))) as [Hle|];
    [|discriminate].
  intros [= <-]. apply sameFrame_set_depthData.
  rewrite length_app, length_drop. lia.
Qed.

Lemma sameFrame_render (l : list Entity) (r : SoftwareRenderer) :
  sameFrame r (render l r).2.
Proof.
  unfold render. destruct (_clearDepthData r) as [r'|e] eqn:Hc; [|apply sameFrame_refl].
  apply sameFrame_clearDepthData in Hc.
  destruct (camera r'); [|exact Hc].
  eapply sameFrame_trans; [exact Hc|apply sameFrame_renderLoop].
Qed.

(** The probe never writes the depth buffer. *)
Lemma probeScanline_depthData (o : bool * bool) (d : EdgeData) (y : Z)
    (r : SoftwareRenderer) :
  _depthData (probeScanline o d y r).2 = _depthData r /\
  sameFrame r (probeScanline o d y r).2.
Proof.
  unfold probeScanline.
  repeat match goal with
         | |- context [let '(_, _) := ?x in _] => destruct x
         | |- context [if ?b then _ else _] => destruct b
         end; apply isScanlineOccluded_depthData.
Qed.

Lemma probeLines_depthData (n : nat) (o : bool * bool) (d : EdgeData) (y : Z)
    (r : SoftwareRenderer) :
  _depthData (probeLines n o d y r).2 = _depthData r /\
  sameFrame r (probeLines n o d y r).2.
Proof.
  revert d y r. induction n as [|n IH]; intros d y r; cbn [probeLines].
  - split; [reflexivity|apply sameFrame_refl].
  - destruct (probeScanline_depthData o d y r) as [Hd Hf].
    destruct (probeScanline o d y r) as [[] r1]; cbn [negb snd] in *.
    + destruct (IH (_updateEdgeDataToNextLine d) (y + 1)%Z r1) as [Hd' Hf'].
      split; [congruence|]. eapply sameFrame_trans; eauto.
    + split; assumption.
Qed.

Lemma isEdgeOccluded_depthData (d : EdgeData) (o : bool * bool) (r : SoftwareRenderer) :
  _depthData (_isEdgeOccluded d o r).2 = _depthData r /\
  sameFrame r (_isEdgeOccluded d o r).2.
Proof. apply probeLines_depthData. Qed.

Lemma probeSecondPortion_depthData (es : list Edge) (le : Edge) (s2 : nat)
    (o : option (bool * bool)) (r : SoftwareRenderer) :
  _depthData (probeSecondPortion es le s2 o r).2 = _depthData r /\
  sameFrame r (probeSecondPortion es le s2 o r).2.
Proof.
  unfold probeSecondPortion.
  destruct (_edgePreRenderProcess _ _ _);
    [|split; [reflexivity|apply sameFrame_refl]].
  destruct o; [apply isEdgeOccluded_depthData|].
  destruct (_horizontalLongEdgeCull _ _ _);
    [split; [reflexivity|apply sameFrame_refl]|apply isEdgeOccluded_depthData].
Qed.

Lemma isRenderedTriangleOccluded_depthData (t : Triangle) (r : SoftwareRenderer) :
  _depthData (isRenderedTriangleOccluded t r).2 = _depthData r /\
  sameFrame r (isRenderedTriangleOccluded t r).2.
Proof.
  unfold isRenderedTriangleOccluded.
  destruct (_createEdgesForTriangle t) as [es [[li s1] s2]].
  destruct (_verticalLongEdgeCull _ _); [split; [reflexivity|apply sameFrame_refl]|].
  destruct (_edgePreRenderProcess _ _ _) as [d|]; [|apply probeSecondPortion_depthData].
  destruct (_horizontalLongEdgeCull _ _ _); [split; [reflexivity|apply sameFrame_refl]|].
  match goal with |- context [_isEdgeOccluded ?d ?o ?r] =>
    destruct (isEdgeOccluded_depthData d o r) as [Hd Hf];
    destruct (_isEdgeOccluded d o r) as [[] r1] end; cbn [negb snd] in *.
  - match goal with |- context [probeSecondPortion ?a ?b ?c ?o ?r] =>
      destruct (probeSecondPortion_depthData a b c o r) as [Hd' Hf'] end.
    split; [congruence|]. eapply sameFrame_trans; eauto.
  - split; assumption.
Qed.

(** ** Clearing *)

(** Every reachable renderer has a zeroed clear buffer as long as its
    depth buffer. *)
Lemma reachable_clear_zero (r : SoftwareRenderer) :
  Reachable r -> _depthClear r = replicate (length (_depthData r)) 0.
Proof.
  assert (Hframe : forall r r', sameFrame r r' ->
            _depthClear r = replicate (length (_depthData r)) 0 ->
            _depthClear r' = replicate (length (_depthData r')) 0).
  { intros a b (_&_&_&_&_&Hc&Hl) H. rewrite Hc, Hl. exact H. }
  induction 1 as [p r Hnew|l r _ IH|t r _ IH|t r _ IH].
  - rewrite SoftwareRenderer_new_eq in Hnew.
    destruct (_ <? 0)%Z; [discriminate|]. injection Hnew as <-. cbn.
    by rewrite length_replicate.
  - eapply Hframe; [apply sameFrame_render|exact IH].
  - eapply Hframe; [apply sameFrame_renderTriangle|exact IH].
  - eapply Hframe; [apply isRenderedTriangleOccluded_depthData|exact IH].
Qed.

(** C7: after [render([])] every cell of the depth buffer is 0. *)
Theorem render_empty_clears (r : SoftwareRenderer) :
  Reachable r ->
  _depthData (render [] r).2 = replicate (length (_depthData r)) 0 /\
  Forall (fun d => d = 0) (_depthData (render [] r).2).
Proof.
  intros Hr. pose proof (reachable_clear_zero r Hr) as Hz.
  assert (Heq : _depthData (render [] r).2 = replicate (length (_depthData r)) 0).
  { unfold render. rewrite clearDepthData_spec
      by (rewrite Hz at 1; apply length_replicate).
    cbn. destruct (camera r); cbn; exact Hz. }
  split; [exact Heq|]. rewrite Heq. apply Forall_replicate. reflexivity.
Qed.

Lemma render_empty_clears_witness :
  _depthData (render [] sampleRenderer).2
    = replicate (length (_depthData sampleRenderer)) 0 /\
  Forall (fun d => d = 0) (_depthData (render [] sampleRenderer).2).
Proof.
  apply (render_empty_clears sampleRenderer).
  apply (reach_new sampleParameters). reflexivity.
Defined.

(** ** Depth values outside the expected range *)

Lemma console_warnDepths (l : string) (lz rz : Q) (r : SoftwareRenderer) :
  console (warnDepths l lz rz r) = console r ++ depthWarnings l lz rz.
Proof.
  unfold warnDepths, depthWarnings.
  destruct (outsideDepthRange lz), (outsideDepthRange rz); cbn;
    rewrite ?app_nil_r, <- ?app_assoc; reflexivity.
Qed.

Lemma depthData_warnDepths (l : string) (lz rz : Q) (r : SoftwareRenderer) :
  _depthData (warnDepths l lz rz r) = _depthData r.
Proof.
  unfold warnDepths. destruct (outsideDepthRange lz), (outsideDepthRange rz); reflexivity.
Qed.

Lemma console_fillLoop (n : nat) (index : Z) (depth inc : Q) (r : SoftwareRenderer) :
  console (fillLoop n index depth inc r) = console r.
Proof.
  revert index depth r. induction n as [|n IH]; intros index depth r; cbn [fillLoop].
  - reflexivity.
  - rewrite IH. destruct (gtStored _ _); reflexivity.
Qed.

Lemma console_probeLoop (n : nat) (index : Z) (depth inc : Q) (r : SoftwareRenderer) :
  console (probeLoop n index depth inc r).2 = console r.
Proof.
  revert index depth r. induction n as [|n IH]; intros index depth r; cbn [probeLoop].
  - reflexivity.
  - destruct (gtStored _ _); [reflexivity|]. rewrite IH. reflexivity.
Qed.

Lemma typedArrayGet_set_eq (a : list Q) (i : Z) (v : Q) :
  is_Some (typedArrayGet a i) -> typedArrayGet (typedArraySet a i v) i = Some v.
Proof.
  unfold typedArrayGet, typedArraySet. destruct (i <? 0)%Z.
  - intros [x Hx]. discriminate.
  - intros Hs. apply list_lookup_insert_eq. by apply lookup_lt_is_Some.
Qed.

Lemma typedArrayGet_set_ne (a : list Q) (i j : Z) (v : Q) :
  i <> j -> typedArrayGet (typedArraySet a i v) j = typedArrayGet a j.
Proof.
  intros Hne. unfold typedArrayGet, typedArraySet.
  destruct (Z.ltb_spec j 0); [reflexivity|].
  destruct (Z.ltb_spec i 0); [reflexivity|].
  apply list_lookup_insert_ne. lia.
Qed.

(** The pixel loop leaves the cells before its first index alone. *)
Lemma fillLoop_get_before (n : nat) (index j : Z) (depth inc : Q) (r : SoftwareRenderer) :
  (j < index)%Z ->
  typedArrayGet (_depthData (fillLoop n index depth inc r)) j
  = typedArrayGet (_depthData r) j.
Proof.
  revert index depth r. induction n as [|n IH]; intros index depth r Hlt; cbn [fillLoop].
  - reflexivity.
  - rewrite IH by lia. destruct (gtStored _ _); cbn; [|reflexivity].
    apply typedArrayGet_set_ne. lia.
Qed.

Lemma clipSpan_left_inside (clipX leftX rightX : Z) (leftZ rightZ : Q) :
  (0 <= leftX)%Z -> emptySpan clipX leftX rightX = false ->
  exists rightX' rightZ',
    clipSpan clipX leftX rightX leftZ rightZ = (leftX, rightX', leftZ, rightZ') /\
    (leftX <= rightX')%Z.
Proof.
  intros Hl He. unfold emptySpan in He. unfold clipSpan.
  apply orb_false_iff in He as [He H3]. apply orb_false_iff in He as [H1 H2].
  destruct (Z.ltb_spec leftX 0); [lia|].
  destruct (Z.gtb_spec (rightX - clipX + 1) 0).
  - eexists _, _. split; [reflexivity|]. destruct (Z.gtb_spec leftX clipX); [discriminate|lia].
  - eexists _, _. split; [reflexivity|]. destruct (Z.ltb_spec rightX leftX); [discriminate|lia].
Qed.

(** C3, as documented, fails: [_fillPixels] called with both depths 2
    stores 2, where clamped depths would store 1.0000001. *)
Lemma depth_clamped_as_documented_fails : ~ depth_clamped_as_documented.
Proof.
  intros H.
  destruct (H 0%Z 1%Z 0%Z 2 2 sampleRenderer) as [Hfill _].
  vm_compute in Hfill. inversion Hfill as [|a b la lb Hab _]. discriminate Hab.
Qed.

(** ** Depth-buffer accesses stay inside the buffer *)

Lemma wellSized_sameFrame (r r' : SoftwareRenderer) :
  sameFrame r r' -> wellSized r -> wellSized r'.
Proof. unfold wellSized. intros (Hw&Hh&Hx&Hy&_) [Hcx Hcy]. split; congruence. Qed.

Lemma allInBounds_sameFrame (r r' : SoftwareRenderer) (tests : list (Z * Q)) :
  sameFrame r r' -> allInBounds r' tests -> allInBounds r tests.
Proof.
  intros (Hw&Hh&_). unfold allInBounds, inBounds. by rewrite Hw, Hh.
Qed.

Lemma extendsInBounds_refl (r : SoftwareRenderer) : extendsInBounds r r.
Proof.
  split; [apply sameFrame_refl|]. exists []. split; [by rewrite app_nil_r|].
  apply Forall_nil_2.
Qed.

Lemma extendsInBounds_trans (r1 r2 r3 : SoftwareRenderer) :
  extendsInBounds r1 r2 -> extendsInBounds r2 r3 -> extendsInBounds r1 r3.
Proof.
  intros [Hf1 (t1 & Ha1 & Hb1)] [Hf2 (t2 & Ha2 & Hb2)].
  split; [eapply sameFrame_trans; eassumption|].
  exists (t1 ++ t2). split; [by rewrite Ha2, Ha1, app_assoc|].
  apply Forall_app. split; [exact Hb1|].
  by apply (allInBounds_sameFrame r1 r2).
Qed.

Lemma pixel_inBounds (r : SoftwareRenderer) (x y : Z) :
  wellSized r -> (0 <= x <= _clipX r)%Z -> (0 <= y <= _clipY r)%Z ->
  inBounds r (y * width r + x).
Proof. unfold wellSized, inBounds. intros [Hx Hy] ? ?. nia. Qed.

Lemma clipSpan_bounds (clipX leftX rightX lx rx : Z) (leftZ rightZ lz rz : Q) :
  emptySpan clipX leftX rightX = false ->
  clipSpan clipX leftX rightX leftZ rightZ = (lx, rx, lz, rz) ->
  (0 <= lx)%Z /\ (rx <= clipX)%Z.
Proof.
  unfold emptySpan, clipSpan. intros He.
  apply orb_false_iff in He as [He H3]. apply orb_false_iff in He as [H1 H2].
  destruct (Z.ltb_spec leftX 0), (Z.gtb_spec (rightX - clipX + 1) 0);
    intros [= <- <- _ _]; lia.
Qed.

Lemma accessed_warnDepths (l : string) (lz rz : Q) (r : SoftwareRenderer) :
  accessed (warnDepths l lz rz r) = accessed r.
Proof.
  unfold warnDepths. destruct (outsideDepthRange lz), (outsideDepthRange rz); reflexivity.
Qed.

Lemma extendsInBounds_warnDepths (l : string) (lz rz : Q) (r : SoftwareRenderer) :
  extendsInBounds r (warnDepths l lz rz r).
Proof.
  split; [apply sameFrame_warnDepths|]. exists [].
  split; [by rewrite accessed_warnDepths, app_nil_r|apply Forall_nil_2].
Qed.

Lemma extendsInBounds_note_access (r : SoftwareRenderer) (x y : Z) (d : Q) :
  wellSized r -> (0 <= x <= _clipX r)%Z -> (0 <= y <= _clipY r)%Z ->
  extendsInBounds r (note_access (y * width r + x) d r).
Proof.
  intros Hw Hx Hy. split; [apply sameFrame_note_access|].
  exists [((y * width r + x)%Z, d)]. split; [reflexivity|].
  apply Forall_singleton. cbn. by apply pixel_inBounds.
Qed.

Lemma extendsInBounds_set_depthData (r : SoftwareRenderer) (d : list Q) :
  length d = length (_depthData r) -> extendsInBounds r (set_depthData d r).
Proof.
  intros Hl. split; [by apply sameFrame_set_depthData|].
  exists []. split; [by rewrite app_nil_r|apply Forall_nil_2].
Qed.

Lemma fillLoop_extends (n : nat) (x y : Z) (depth inc : Q) (r : SoftwareRenderer) :
  wellSized r -> (0 <= y <= _clipY r)%Z ->
  (0 <= x)%Z -> (Z.of_nat n = 0 \/ x + Z.of_nat n <= _clipX r + 1)%Z ->
  extendsInBounds r (fillLoop n (y * width r + x) depth inc r).
Proof.
  revert x depth r. induction n as [|n IH]; intros x depth r Hw Hy Hx Hn; cbn [fillLoop].
  - apply extendsInBounds_refl.
  - set (r1 := note_access (y * width r + x) depth r).
    assert (H1 : extendsInBounds r r1) by (apply extendsInBounds_note_access; [done|lia|done]).
    set (r2 := if gtStored depth (typedArrayGet (_depthData r1) (y * width r + x))
               then set_depthData (typedArraySet (_depthData r1) (y * width r + x) depth) r1
               else r1).
    assert (H2 : extendsInBounds r1 r2).
    { subst r2. destruct (gtStored _ _); [|apply extendsInBounds_refl].
      apply extendsInBounds_set_depthData, typedArraySet_length. }
    pose proof (extendsInBounds_trans _ _ _ H1 H2) as H12.
    eapply extendsInBounds_trans; [exact H12|].
    destruct H12 as [Hf _].
    assert (Hwid : width r2 = width r) by apply Hf.
    assert (Hcx : _clipX r2 = _clipX r) by apply Hf.
    assert (Hcy : _clipY r2 = _clipY r) by apply Hf.
    replace (y * width r + x + 1)%Z with (y * width r2 + (x + 1))%Z by (rewrite Hwid; lia).
    apply IH; [by apply (wellSized_sameFrame r)|lia|lia|lia].
Qed.

Lemma probeLoop_extends (n : nat) (x y : Z) (depth inc : Q) (r : SoftwareRenderer) :
  wellSized r -> (0 <= y <= _clipY r)%Z ->
  (0 <= x)%Z -> (Z.of_nat n = 0 \/ x + Z.of_nat n <= _clipX r + 1)%Z ->
  extendsInBounds r (probeLoop n (y * width r + x) depth inc r).2.
Proof.
  revert x depth r. induction n as [|n IH]; intros x depth r Hw Hy Hx Hn; cbn [probeLoop].
  - apply extendsInBounds_refl.
  - set (r1 := note_access (y * width r + x) depth r).
    assert (H1 : extendsInBounds r r1) by (apply extendsInBounds_note_access; [done|lia|done]).
    destruct (gtStored _ _); [exact H1|].
    eapply extendsInBounds_trans; [exact H1|].
    destruct H1 as [Hf _].
    assert (Hwid : width r1 = width r) by apply Hf.
    assert (Hcx : _clipX r1 = _clipX r) by apply Hf.
    assert (Hcy : _clipY r1 = _clipY r) by apply Hf.
    replace (y * width r + x + 1)%Z with (y * width r1 + (x + 1))%Z by (rewrite Hwid; lia).
    apply IH; [by apply (wellSized_sameFrame r)|lia|lia|lia].
Qed.

Lemma fillPixels_extends (leftX rightX y : Z) (leftZ rightZ : Q) (r : SoftwareRenderer) :
  wellSized r -> (0 <= y <= _clipY r)%Z ->
  extendsInBounds r (_fillPixels leftX rightX y leftZ rightZ r).
Proof.
  intros Hw Hy. unfold _fillPixels.
  destruct (emptySpan _ _ _) eqn:He; [apply extendsInBounds_refl|].
  pose proof (extendsInBounds_warnDepths "leftz : " leftZ rightZ r) as H1.
  set (r1 := warnDepths "leftz : " leftZ rightZ r) in *.
  destruct H1 as [Hf Ht].
  assert (Hwid : width r1 = width r) by apply Hf.
  assert (Hcx : _clipX r1 = _clipX r) by apply Hf.
  assert (Hcy : _clipY r1 = _clipY r) by apply Hf.
  rewrite Hcx.
  destruct (clipSpan _ _ _ _ _) as [[[lx rx] lz] rz] eqn:Hc.
  destruct (clipSpan_bounds _ _ _ _ _ _ _ _ _ He Hc) as [Hlx Hrx].
  eapply extendsInBounds_trans; [split; [exact Hf|exact Ht]|].
  apply fillLoop_extends; [by apply (wellSized_sameFrame r)|lia|lia|lia].
Qed.

Lemma isScanlineOccluded_extends (leftX rightX y : Z) (leftZ rightZ : Q)
    (r : SoftwareRenderer) :
  wellSized r -> (0 <= y <= _clipY r)%Z ->
  extendsInBounds r (_isScanlineOccluded leftX rightX y leftZ rightZ r).2.
Proof.
  intros Hw Hy. unfold _isScanlineOccluded.
  destruct (emptySpan _ _ _) eqn:He; [apply extendsInBounds_refl|].
  pose proof (extendsInBounds_warnDepths "leftZ : " leftZ rightZ r) as H1.
  set (r1 := warnDepths "leftZ : " leftZ rightZ r) in *.
  destruct H1 as [Hf Ht].
  assert (Hwid : width r1 = width r) by apply Hf.
  assert (Hcx : _clipX r1 = _clipX r) by apply Hf.
  assert (Hcy : _clipY r1 = _clipY r) by apply Hf.
  rewrite Hcx.
  destruct (clipSpan _ _ _ _ _) as [[[lx rx] lz] rz] eqn:Hc.
  destruct (clipSpan_bounds _ _ _ _ _ _ _ _ _ He Hc) as [Hlx Hrx].
  eapply extendsInBounds_trans; [split; [exact Hf|exact Ht]|].
  apply probeLoop_extends; [by apply (wellSized_sameFrame r)|lia|lia|lia].
Qed.

Lemma Qfloor_nonneg (q : Q) : 0 <= q -> (0 <= Qfloor q)%Z.
Proof.
  intros H. change 0%Z with (Qfloor 0). by apply Qfloor_resp_le.
Qed.

Lemma Qfloor_le_Z (q : Q) (n : Z) : q <= inject_Z n -> (Qfloor q <= n)%Z.
Proof.
  intros H. rewrite <- (Qfloor_Z n). by apply Qfloor_resp_le.
Qed.

(** The line range of an [EdgeData] lies inside [0, _clipY]. *)
Lemma edgePreRenderProcess_lines (r : SoftwareRenderer) (longEdge shortEdge : Edge)
    (edgeData : EdgeData) :
  _edgePreRenderProcess r longEdge shortEdge = Some edgeData ->
  (0 <= getStartLine edgeData)%Z /\ (getStopLine edgeData <= _clipY r)%Z.
Proof.
  unfold _edgePreRenderProcess.
  destruct (Qleb _ _); [discriminate|].
  destruct (Qltb (y0 shortEdge) 0) eqn:Hs;
    destruct (Qgtb (y1 shortEdge) (inject_Z (_clipY r))) eqn:Ht;
    intros [= <-]; cbn; unfold Qgtb in Ht;
    rewrite ?Qltb_lt, ?Qltb_ge in *; split;
    first [ reflexivity
          | by apply Qfloor_nonneg
          | rewrite Qfloor_Z; lia
          | rewrite Z.div_1_r; lia
          | by apply Qfloor_le_Z ].
Qed.

(** On a short edge with integer lines, as the rounding of the edges
    leaves them, the line range is the edge's range clipped to
    [0, _clipY]. *)
Lemma edgePreRenderProcess_lines_rounded (r : SoftwareRenderer)
    (longEdge shortEdge : Edge) (edgeData : EdgeData) (a b : Z) :
  y0 shortEdge = inject_Z a -> y1 shortEdge = inject_Z b ->
  _edgePreRenderProcess r longEdge shortEdge = Some edgeData ->
  getStartLine edgeData = Z.max 0 a /\ getStopLine edgeData = Z.min (_clipY r) b.
Proof.
  intros Ha Hb. unfold _edgePreRenderProcess. rewrite Ha, Hb.
  destruct (Qleb _ _); [discriminate|].
  destruct (Qltb (inject_Z a) 0) eqn:Hs;
    destruct (Qgtb (inject_Z b) (inject_Z (_clipY r))) eqn:Ht;
    intros [= <-]; unfold Qgtb in Ht; cbn [getStartLine getStopLine EdgeData_new];
    rewrite ?Qltb_lt, ?Qltb_ge in *;
    change 0 with (inject_Z 0) in Hs; rewrite <- ?Zlt_Qlt, <- ?Zle_Qle in *;
    rewrite ?Qfloor_Z; change (Qfloor 0) with 0%Z; lia.
Qed.

Lemma edgePreRenderProcess_sameFrame (r r' : SoftwareRenderer) (l s : Edge) :
  sameFrame r r' -> _edgePreRenderProcess r' l s = _edgePreRenderProcess r l s.
Proof.
  intros (_&_&_&Hy&_). unfold _edgePreRenderProcess. rewrite Hy. reflexivity.
Qed.

Lemma drawScanline_extends (o : bool * bool) (d : EdgeData) (y : Z) (r : SoftwareRenderer) :
  wellSized r -> (0 <= y <= _clipY r)%Z -> extendsInBounds r (drawScanline o d y r).
Proof.
  intros Hw Hy. unfold drawScanline.
  destruct o as [[] []]; cbn; by apply fillPixels_extends.
Qed.

Lemma drawLoop_extends (n : nat) (o : bool * bool) (d : EdgeData) (y : Z)
    (r : SoftwareRenderer) :
  wellSized r -> (0 <= y)%Z -> (Z.of_nat n = 0 \/ y + Z.of_nat n <= _clipY r + 1)%Z ->
  extendsInBounds r (drawLoop n o d y r).
Proof.
  revert d y r. induction n as [|n IH]; intros d y r Hw Hy Hn; cbn [drawLoop].
  - apply extendsInBounds_refl.
  - pose proof (drawScanline_extends o d y r Hw ltac:(lia)) as H1.
    eapply extendsInBounds_trans; [exact H1|].
    destruct H1 as [Hf _].
    assert (Hcy : _clipY (drawScanline o d y r) = _clipY r) by apply Hf.
    apply IH; [by apply (wellSized_sameFrame r)|lia|lia].
Qed.

Lemma drawEdges_extends (d : EdgeData) (o : bool * bool) (r : SoftwareRenderer) :
  wellSized r -> (0 <= getStartLine d)%Z -> (getStopLine d <= _clipY r)%Z ->
  extendsInBounds r (_drawEdges d o r).
Proof.
  intros Hw Hs Ht. unfold _drawEdges, lineCount. apply drawLoop_extends; [done|done|lia].
Qed.

Lemma probeScanline_extends (o : bool * bool) (d : EdgeData) (y : Z) (r : SoftwareRenderer) :
  wellSized r -> (0 <= y <= _clipY r)%Z -> extendsInBounds r (probeScanline o d y r).2.
Proof.
  intros Hw Hy. unfold probeScanline.
  repeat match goal with
         | |- context [let '(_, _) := ?x in _] => destruct x
         | |- context [if ?b then _ else _] => destruct b
         end; by apply isScanlineOccluded_extends.
Qed.

Lemma probeLines_extends (n : nat) (o : bool * bool) (d : EdgeData) (y : Z)
    (r : SoftwareRenderer) :
  wellSized r -> (0 <= y)%Z -> (Z.of_nat n = 0 \/ y + Z.of_nat n <= _clipY r + 1)%Z ->
  extendsInBounds r (probeLines n o d y r).2.
Proof.
  revert d y r. induction n as [|n IH]; intros d y r Hw Hy Hn; cbn [probeLines].
  - apply extendsInBounds_refl.
  - pose proof (probeScanline_extends o d y r Hw ltac:(lia)) as H1.
    destruct (probeScanline o d y r) as [[] r1]; cbn [negb snd] in *; [|exact H1].
    eapply extendsInBounds_trans; [exact H1|].
    destruct H1 as [Hf _].
    assert (Hcy : _clipY r1 = _clipY r) by apply Hf.
    apply IH; [by apply (wellSized_sameFrame r)|lia|lia].
Qed.

Lemma isEdgeOccluded_extends (d : EdgeData) (o : bool * bool) (r : SoftwareRenderer) :
  wellSized r -> (0 <= getStartLine d)%Z -> (getStopLine d <= _clipY r)%Z ->
  extendsInBounds r (_isEdgeOccluded d o r).2.
Proof.
  intros Hw Hs Ht. unfold _isEdgeOccluded, lineCount. apply probeLines_extends; [done|done|lia].
Qed.

Lemma renderSecondPortion_extends (es : list Edge) (le : Edge) (s2 : nat)
    (o : option (bool * bool)) (r : SoftwareRenderer) :
  wellSized r -> extendsInBounds r (renderSecondPortion es le s2 o r).
Proof.
  intros Hw. unfold renderSecondPortion.
  destruct (_edgePreRenderProcess _ _ _) as [d|] eqn:Hd; [|apply extendsInBounds_refl].
  apply edgePreRenderProcess_lines in Hd as [Hs Ht].
  destruct o; [by apply drawEdges_extends|].
  destruct (_horizontalLongEdgeCull _ _ _);
    [apply extendsInBounds_refl|by apply drawEdges_extends].
Qed.

Lemma renderTriangle_extends (t : Triangle) (r : SoftwareRenderer) :
  wellSized r -> extendsInBounds r (_renderTriangle t r).
Proof.
  intros Hw. unfold _renderTriangle.
  destruct (_createEdgesForTriangle t) as [es [[li s1] s2]].
  destruct (_verticalLongEdgeCull _ _); [apply extendsInBounds_refl|].
  destruct (_edgePreRenderProcess _ _ _) as [d|] eqn:Hd;
    [|by apply renderSecondPortion_extends].
  apply edgePreRenderProcess_lines in Hd as [Hs Ht].
  destruct (_horizontalLongEdgeCull _ _ _); [apply extendsInBounds_refl|].
  match goal with |- context [_drawEdges ?d ?o ?r] =>
    pose proof (drawEdges_extends d o r Hw Hs Ht) as H1 end.
  eapply extendsInBounds_trans; [exact H1|].
  apply renderSecondPortion_extends. destruct H1 as [Hf _].
  by apply (wellSized_sameFrame r).
Qed.

Lemma probeSecondPortion_extends (es : list Edge) (le : Edge) (s2 : nat)
    (o : option (bool * bool)) (r : SoftwareRenderer) :
  wellSized r -> extendsInBounds r (probeSecondPortion es le s2 o r).2.
Proof.
  intros Hw. unfold probeSecondPortion.
  destruct (_edgePreRenderProcess _ _ _) as [d|] eqn:Hd; [|apply extendsInBounds_refl].
  apply edgePreRenderProcess_lines in Hd as [Hs Ht].
  destruct o; [by apply isEdgeOccluded_extends|].
  destruct (_horizontalLongEdgeCull _ _ _);
    [apply extendsInBounds_refl|by apply isEdgeOccluded_extends].
Qed.

Lemma isRenderedTriangleOccluded_extends (t : Triangle) (r : SoftwareRenderer) :
  wellSized r -> extendsInBounds r (isRenderedTriangleOccluded t r).2.
Proof.
  intros Hw. unfold isRenderedTriangleOccluded.
  destruct (_createEdgesForTriangle t) as [es [[li s1] s2]].
  destruct (_verticalLongEdgeCull _ _); [apply extendsInBounds_refl|].
  destruct (_edgePreRenderProcess _ _ _) as [d|] eqn:Hd;
    [|by apply probeSecondPortion_extends].
  apply edgePreRenderProcess_lines in Hd as [Hs Ht].
  destruct (_horizontalLongEdgeCull _ _ _); [apply extendsInBounds_refl|].
  match goal with |- context [_isEdgeOccluded ?d ?o ?r] =>
    pose proof (isEdgeOccluded_extends d o r Hw Hs Ht) as H1;
    destruct (_isEdgeOccluded d o r) as [[] r1] end; cbn [negb snd] in *; [|exact H1].
  eapply extendsInBounds_trans; [exact H1|].
  apply probeSecondPortion_extends. destruct H1 as [Hf _].
  by apply (wellSized_sameFrame r).
Qed.

(** Every renderer that exists at run time is well sized. *)
Lemma reachable_wellSized (r : SoftwareRenderer) : Reachable r -> wellSized r.
Proof.
  induction 1 as [p r Hnew|l r _ IH|t r _ IH|t r _ IH].
  - rewrite SoftwareRenderer_new_eq in Hnew.
    destruct (_ <? 0)%Z; [discriminate|]. injection Hnew as <-. split; reflexivity.
  - eapply wellSized_sameFrame; [apply sameFrame_render|exact IH].
  - eapply wellSized_sameFrame; [apply sameFrame_renderTriangle|exact IH].
  - eapply wellSized_sameFrame; [apply isRenderedTriangleOccluded_depthData|exact IH].
Qed.

(** Both roundings leave integer lines on every edge. *)
Lemma rounded_edges_integer_lines (e : Edge) :
  (exists a b, y0 (invertZ (roundOccluderCoordinates e)) = inject_Z a /\
               y1 (invertZ (roundOccluderCoordinates e)) = inject_Z b) /\
  (exists a b, y0 (invertZ (roundOccludeeCoordinates e)) = inject_Z a /\
               y1 (invertZ (roundOccludeeCoordinates e)) = inject_Z b).
Proof. split; eexists _, _; split; reflexivity. Qed.

(** C8: every depth-buffer access of [_fillPixels] and
    [_isScanlineOccluded] is inside the buffer.  The lines of an
    [EdgeData] lie in [0, _clipY]; on such a line both routines touch
    only indices in [0, width * height); hence so do
    [_renderTriangle] and [isRenderedTriangleOccluded] on any triangle. *)
Theorem depth_accesses_in_bounds (r : SoftwareRenderer) :
  wellSized r ->
  (forall longEdge shortEdge edgeData,
     _edgePreRenderProcess r longEdge shortEdge = Some edgeData ->
     (0 <= getStartLine edgeData)%Z /\ (getStopLine edgeData <= _clipY r)%Z) /\
  (forall leftX rightX y leftZ rightZ,
     (0 <= y <= _clipY r)%Z ->
     extendsInBounds r (_fillPixels leftX rightX y leftZ rightZ r) /\
     extendsInBounds r (_isScanlineOccluded leftX rightX y leftZ rightZ r).2) /\
  (forall t,
     extendsInBounds r (_renderTriangle t r) /\
     extendsInBounds r (isRenderedTriangleOccluded t r).2).
Proof.
  intros Hw. split; [|split].
  - intros l s d. apply edgePreRenderProcess_lines.
  - intros lx rx y lz rz Hy.
    split; [by apply fillPixels_extends|by apply isScanlineOccluded_extends].
  - intros t.
    split; [by apply renderTriangle_extends|by apply isRenderedTriangleOccluded_extends].
Qed.

(** ** What makes a probed triangle visible *)

Lemma endsAtVisiblePixel_after (r r1 r' : SoftwareRenderer) :
  extendsInBounds r r1 -> _depthData r1 = _depthData r ->
  endsAtVisiblePixel r1 r' -> endsAtVisiblePixel r r'.
Proof.
  intros [Hf (t1 & Ha & _)] Hd (t & x & y & depth & stored & Hacc & Hx & Hy & Hget & Hlt).
  destruct Hf as (Hw & _ & Hcx & Hcy & _).
  exists (t1 ++ t), x, y, depth, stored.
  rewrite Hw, Hcx, Hcy, Hd in *.
  split; [by rewrite Hacc, Ha, <- !app_assoc|done].
Qed.

Lemma gtStored_true (depth : Q) (o : option Q) :
  gtStored depth o = true -> exists stored, o = Some stored /\ stored < depth.
Proof.
  destruct o as [s|]; cbn; [|discriminate].
  intros H. exists s. split; [reflexivity|]. by apply Qltb_lt.
Qed.

Lemma probeLoop_visible (n : nat) (x y : Z) (depth inc : Q) (r : SoftwareRenderer) :
  wellSized r -> (0 <= y <= _clipY r)%Z ->
  (0 <= x)%Z -> (Z.of_nat n = 0 \/ x + Z.of_nat n <= _clipX r + 1)%Z ->
  (probeLoop n (y * width r + x) depth inc r).1 = false ->
  endsAtVisiblePixel r (probeLoop n (y * width r + x) depth inc r).2.
Proof.
  revert x depth r. induction n as [|n IH]; intros x depth r Hw Hy Hx Hn; cbn [probeLoop].
  - discriminate.
  - set (r1 := note_access (y * width r + x) depth r).
    assert (H1 : extendsInBounds r r1) by (apply extendsInBounds_note_access; [done|lia|done]).
    destruct (gtStored _ _) eqn:Hgt.
    + intros _. apply gtStored_true in Hgt as (stored & Hget & Hlt).
      exists [], x, y, depth, stored. cbn in *. repeat split; try done; lia.
    + intros Hv. apply (endsAtVisiblePixel_after r r1); [exact H1|reflexivity|].
      destruct H1 as [Hf _].
      assert (Hwid : width r1 = width r) by apply Hf.
      assert (Hcx : _clipX r1 = _clipX r) by apply Hf.
      assert (Hcy : _clipY r1 = _clipY r) by apply Hf.
      revert Hv.
      replace (y * width r + x + 1)%Z with (y * width r1 + (x + 1))%Z by (rewrite Hwid; lia).
      apply IH; [by apply (wellSized_sameFrame r)|lia|lia|lia].
Qed.

Lemma isScanlineOccluded_visible (leftX rightX y : Z) (leftZ rightZ : Q)
    (r : SoftwareRenderer) :
  wellSized r -> (0 <= y <= _clipY r)%Z ->
  (_isScanlineOccluded leftX rightX y leftZ rightZ r).1 = false ->
  endsAtVisiblePixel r (_isScanlineOccluded leftX rightX y leftZ rightZ r).2.
Proof.
  intros Hw Hy. unfold _isScanlineOccluded.
  destruct (emptySpan _ _ _) eqn:He; [discriminate|].
  pose proof (extendsInBounds_warnDepths "leftZ : " leftZ rightZ r) as H1.
  pose proof (depthData_warnDepths "leftZ : " leftZ rightZ r) as Hd.
  set (r1 := warnDepths "leftZ : " leftZ rightZ r) in *.
  assert (Hwid : width r1 = width r) by apply H1.
  assert (Hcx : _clipX r1 = _clipX r) by apply H1.
  assert (Hcy : _clipY r1 = _clipY r) by apply H1.
  rewrite Hcx.
  destruct (clipSpan _ _ _ _ _) as [[[lx rx] lz] rz] eqn:Hc.
  destruct (clipSpan_bounds _ _ _ _ _ _ _ _ _ He Hc) as [Hlx Hrx].
  intros Hv. apply (endsAtVisiblePixel_after r r1); [exact H1|exact Hd|].
  revert Hv. apply probeLoop_visible;
    [apply (wellSized_sameFrame r); [apply H1|done]|lia|lia|lia].
Qed.

Lemma probeScanline_visible (o : bool * bool) (d : EdgeData) (y : Z) (r : SoftwareRenderer) :
  wellSized r -> (0 <= y <= _clipY r)%Z ->
  (probeScanline o d y r).1 = false ->
  endsAtVisiblePixel r (probeScanline o d y r).2.
Proof.
  intros Hw Hy. unfold probeScanline.
  repeat match goal with
         | |- context [let '(_, _) := ?x in _] => destruct x
         | |- context [if ?b then _ else _] => destruct b
         end; by apply isScanlineOccluded_visible.
Qed.

Lemma probeLines_visible (n : nat) (o : bool * bool) (d : EdgeData) (y : Z)
    (r : SoftwareRenderer) :
  wellSized r -> (0 <= y)%Z -> (Z.of_nat n = 0 \/ y + Z.of_nat n <= _clipY r + 1)%Z ->
  (probeLines n o d y r).1 = false ->
  endsAtVisiblePixel r (probeLines n o d y r).2.
Proof.
  revert d y r. induction n as [|n IH]; intros d y r Hw Hy Hn; cbn [probeLines].
  - discriminate.
  - pose proof (probeScanline_extends o d y r Hw ltac:(lia)) as H1.
    pose proof (probeScanline_depthData o d y r) as [Hd _].
    pose proof (probeScanline_visible o d y r Hw ltac:(lia)) as Hv1.
    destruct (probeScanline o d y r) as [[] r1]; cbn [negb fst snd] in *.
    + intros Hv. apply (endsAtVisiblePixel_after r r1); [exact H1|exact Hd|].
      destruct H1 as [Hf _].
      assert (Hcy : _clipY r1 = _clipY r) by apply Hf.
      revert Hv. apply IH; [by apply (wellSized_sameFrame r)|lia|lia].
    + intros _. by apply Hv1.
Qed.

Lemma isEdgeOccluded_visible (d : EdgeData) (o : bool * bool) (r : SoftwareRenderer) :
  wellSized r -> (0 <= getStartLine d)%Z -> (getStopLine d <= _clipY r)%Z ->
  (_isEdgeOccluded d o r).1 = false ->
  endsAtVisiblePixel r (_isEdgeOccluded d o r).2.
Proof.
  intros Hw Hs Ht. unfold _isEdgeOccluded, lineCount.
  apply probeLines_visible; [done|done|lia].
Qed.

Lemma probeSecondPortion_visible (es : list Edge) (le : Edge) (s2 : nat)
    (o : option (bool * bool)) (r : SoftwareRenderer) :
  wellSized r ->
  (probeSecondPortion es le s2 o r).1 = false ->
  endsAtVisiblePixel r (probeSecondPortion es le s2 o r).2.
Proof.
  intros Hw. unfold probeSecondPortion.
  destruct (_edgePreRenderProcess _ _ _) as [d|] eqn:Hd; [|discriminate].
  apply edgePreRenderProcess_lines in Hd as [Hs Ht].
  destruct o; [by apply isEdgeOccluded_visible|].
  destruct (_horizontalLongEdgeCull _ _ _);
    [discriminate|by apply isEdgeOccluded_visible].
Qed.

Lemma isRenderedTriangleOccluded_visible (t : Triangle) (r : SoftwareRenderer) :
  wellSized r ->
  (isRenderedTriangleOccluded t r).1 = false ->
  endsAtVisiblePixel r (isRenderedTriangleOccluded t r).2.
Proof.
  intros Hw. unfold isRenderedTriangleOccluded.
  destruct (_createEdgesForTriangle t) as [es [[li s1] s2]].
  destruct (_verticalLongEdgeCull _ _); [discriminate|].
  destruct (_edgePreRenderProcess _ _ _) as [d|] eqn:Hd;
    [|by apply probeSecondPortion_visible].
  apply edgePreRenderProcess_lines in Hd as [Hs Ht].
  destruct (_horizontalLongEdgeCull _ _ _); [discriminate|].
  match goal with |- context [_isEdgeOccluded ?d ?o ?r] =>
    pose proof (isEdgeOccluded_extends d o r Hw Hs Ht) as H1;
    pose proof (isEdgeOccluded_depthData d o r) as [Hdd _];
    pose proof (isEdgeOccluded_visible d o r Hw Hs Ht) as Hv1;
    destruct (_isEdgeOccluded d o r) as [[] r1] end; cbn [negb fst snd] in *.
  - intros Hv. apply (endsAtVisiblePixel_after r r1); [exact H1|exact Hdd|].
    revert Hv. apply probeSecondPortion_visible.
    destruct H1 as [Hf _]. by apply (wellSized_sameFrame r).
  - intros _. by apply Hv1.
Qed.

(** C9: [_isScanlineOccluded] answers "occluded" for a span with
    [rightX < 0], [leftX > _clipX] or [rightX < leftX] and reads nothing;
    and whenever [isRenderedTriangleOccluded] answers "visible", the
    last depth test it made was at a pixel inside the viewport whose
    stored depth was below the probed one: nothing outside the viewport
    makes a triangle visible. *)
Theorem outside_viewport_never_visible (r : SoftwareRenderer) :
  (forall leftX rightX y leftZ rightZ,
     (rightX < 0 \/ leftX > _clipX r \/ rightX < leftX)%Z ->
     _isScanlineOccluded leftX rightX y leftZ rightZ r = (true, r)) /\
  (forall t,
     wellSized r ->
     (isRenderedTriangleOccluded t r).1 = false ->
     endsAtVisiblePixel r (isRenderedTriangleOccluded t r).2).
Proof.
  split.
  - intros lx rx y lz rz H. unfold _isScanlineOccluded.
    assert (He : emptySpan (_clipX r) lx rx = true).
    { unfold emptySpan. rewrite !orb_true_iff, !Z.ltb_lt, Z.gtb_gt. tauto. }
    by rewrite He.
  - intros t. apply isRenderedTriangleOccluded_visible.
Qed.

(** ** Rendering is a max-reduction *)

Lemma sameFrame_sym (r r' : SoftwareRenderer) : sameFrame r r' -> sameFrame r' r.
Proof. unfold sameFrame. intros (?&?&?&?&?&?&?). repeat split; congruence. Qed.

Lemma Forall2_Qle_refl (a : list Q) : Forall2 Qle a a.
Proof. apply Forall_Forall2_diag, Forall_forall. intros x _. apply Qle_refl. Qed.

Lemma depthLe_refl (r : SoftwareRenderer) : depthLe r r.
Proof. split; [apply sameFrame_refl|apply Forall2_Qle_refl]. Qed.

Lemma depthLe_trans (r1 r2 r3 : SoftwareRenderer) :
  depthLe r1 r2 -> depthLe r2 r3 -> depthLe r1 r3.
Proof.
  intros [Hf1 Hd1] [Hf2 Hd2]. split; [eapply sameFrame_trans; eassumption|].
  eapply Forall2_trans; [|exact Hd1|exact Hd2]. intros x y z. apply Qle_trans.
Qed.

Lemma depthLe_intro (f : SoftwareRenderer -> SoftwareRenderer) (r r' : SoftwareRenderer) :
  depthLe r r' -> sameFrame r (f r) -> sameFrame r' (f r') ->
  Forall2 Qle (_depthData (f r)) (_depthData (f r')) ->
  depthLe (f r) (f r').
Proof.
  intros [Hf _] H1 H2 Hd. split; [|exact Hd].
  eapply sameFrame_trans; [apply sameFrame_sym, H1|].
  eapply sameFrame_trans; [exact Hf|exact H2].
Qed.

Lemma write_raises (a : list Q) (i : Z) (d : Q) :
  gtStored d (typedArrayGet a i) = true -> Forall2 Qle a (typedArraySet a i d).
Proof.
  intros H. apply gtStored_true in H as (s & Hget & Hlt).
  unfold typedArrayGet, typedArraySet in *. destruct (i <? 0)%Z; [discriminate|].
  rewrite <- (list_insert_id a (Z.to_nat i) s Hget) at 1.
  apply Forall2_insert; [apply Forall2_Qle_refl|by apply Qlt_le_weak].
Qed.

Lemma write_monotone (a b : list Q) (i : Z) (d : Q) :
  Forall2 Qle a b ->
  Forall2 Qle (if gtStored d (typedArrayGet a i) then typedArraySet a i d else a)
              (if gtStored d (typedArrayGet b i) then typedArraySet b i d else b).
Proof.
  intros H. unfold typedArrayGet, typedArraySet. destruct (i <? 0)%Z; [exact H|].
  destruct (a !! Z.to_nat i) as [x|] eqn:Ha.
  - destruct (Forall2_lookup_l _ _ _ _ _ H Ha) as (y & Hb & Hxy). rewrite Hb. cbn.
    unfold Qgtb. destruct (Qltb x d) eqn:Hx, (Qltb y d) eqn:Hy;
      rewrite ?Qltb_lt, ?Qltb_ge in *.
    + apply Forall2_insert; [exact H|apply Qle_refl].
    + rewrite <- (list_insert_id b (Z.to_nat i) y Hb).
      apply Forall2_insert; [exact H|exact Hy].
    + exfalso. lra.
    + exact H.
  - assert (Hb : b !! Z.to_nat i = None).
    { apply lookup_ge_None. rewrite <- (Forall2_length _ _ _ H).
      by apply lookup_ge_None. }
    rewrite Hb. exact H.
Qed.

Lemma DepthOp_id : DepthOp (fun r => r).
Proof. split; [apply depthLe_refl|auto]. Qed.

Lemma DepthOp_compose (f g : SoftwareRenderer -> SoftwareRenderer) :
  DepthOp f -> DepthOp g -> DepthOp (fun r => g (f r)).
Proof.
  intros [Hf1 Hf2] [Hg1 Hg2]. split.
  - intros r. eapply depthLe_trans; [apply Hf1|apply Hg1].
  - intros r r' H. apply Hg2, Hf2, H.
Qed.

Lemma DepthOp_bind {A : Type} (v : SoftwareRenderer -> A)
    (f : A -> SoftwareRenderer -> SoftwareRenderer) :
  frameOnly v -> (forall a, DepthOp (f a)) -> DepthOp (fun r => f (v r) r).
Proof.
  intros Hv Hf. split.
  - intros r. apply Hf.
  - intros r r' H. rewrite (Hv r r') by apply H. by apply Hf.
Qed.

Lemma DepthOp_ext (f g : SoftwareRenderer -> SoftwareRenderer) :
  (forall r, f r = g r) -> DepthOp f -> DepthOp g.
Proof.
  intros He [H1 H2]. split.
  - intros r. rewrite <- He. apply H1.
  - intros r r' H. rewrite <- !He. by apply H2.
Qed.

Lemma DepthOp_warnDepths (l : string) (lz rz : Q) : DepthOp (warnDepths l lz rz).
Proof.
  split.
  - intros r. split; [apply sameFrame_warnDepths|].
    rewrite depthData_warnDepths. apply Forall2_Qle_refl.
  - intros r r' H. apply (depthLe_intro (warnDepths l lz rz)); [exact H|..].
    + apply sameFrame_warnDepths.
    + apply sameFrame_warnDepths.
    + rewrite !depthData_warnDepths. apply H.
Qed.

(** One depth test of [_fillPixels]. *)
Lemma DepthOp_fillStep (index : Z) (depth : Q) :
  DepthOp (fun r =>
    if gtStored depth (typedArrayGet (_depthData (note_access index depth r)) index)
    then set_depthData (typedArraySet (_depthData (note_access index depth r)) index depth)
                       (note_access index depth r)
    else note_access index depth r).
Proof.
  assert (Hframe : forall r, sameFrame r
    (if gtStored depth (typedArrayGet (_depthData (note_access index depth r)) index)
     then set_depthData (typedArraySet (_depthData (note_access index depth r)) index depth)
                        (note_access index depth r)
     else note_access index depth r)).
  { intros r. destruct (gtStored _ _); [|apply sameFrame_note_access].
    eapply sameFrame_trans; [apply (sameFrame_note_access index depth)|].
    apply sameFrame_set_depthData, typedArraySet_length. }
  split.
  - intros r. split; [apply Hframe|]. cbn.
    destruct (gtStored _ _) eqn:Hg; cbn; [by apply write_raises|apply Forall2_Qle_refl].
  - intros r r' H.
    apply (depthLe_intro (fun r =>
      if gtStored depth (typedArrayGet (_depthData (note_access index depth r)) index)
      then set_depthData (typedArraySet (_depthData (note_access index depth r)) index depth)
                         (note_access index depth r)
      else note_access index depth r)); [exact H|apply Hframe|apply Hframe|].
    cbn. destruct H as [_ Hd].
    pose proof (write_monotone _ _ index depth Hd) as Hm.
    destruct (gtStored depth (typedArrayGet (_depthData r) index)),
             (gtStored depth (typedArrayGet (_depthData r') index)); exact Hm.
Qed.

Lemma DepthOp_fillLoop (n : nat) (index : Z) (depth inc : Q) :
  DepthOp (fillLoop n index depth inc).
Proof.
  revert index depth. induction n as [|n IH]; intros index depth.
  - apply DepthOp_id.
  - cbn [fillLoop].
    apply (DepthOp_compose _ (fillLoop n (index + 1)%Z (depth + inc) inc));
      [apply DepthOp_fillStep|apply IH].
Qed.

Lemma frameOnly_clipX : frameOnly _clipX.
Proof. intros r r' H. apply H. Qed.

Lemma frameOnly_clipY : frameOnly _clipY.
Proof. intros r r' H. apply H. Qed.

Lemma frameOnly_width : frameOnly width.
Proof. intros r r' H. apply H. Qed.

Lemma DepthOp_fillPixels (leftX rightX y : Z) (leftZ rightZ : Q) :
  DepthOp (_fillPixels leftX rightX y leftZ rightZ).
Proof.
  unfold _fillPixels.
  apply (DepthOp_bind _clipX (fun clipX r =>
    if emptySpan clipX leftX rightX then r
    else
      let r := warnDepths "leftz : " leftZ rightZ r in
      let '(leftX, rightX, leftZ, rightZ) := clipSpan (_clipX r) leftX rightX leftZ rightZ in
      fillLoop (Z.to_nat (rightX - leftX + 1)) (y * width r + leftX) leftZ
               ((rightZ - leftZ) / inject_Z (rightX - leftX)) r));
    [apply frameOnly_clipX|].
  intros clipX. destruct (emptySpan _ _ _); [apply DepthOp_id|].
  apply (DepthOp_compose (warnDepths "leftz : " leftZ rightZ) (fun r =>
      let '(leftX, rightX, leftZ, rightZ) := clipSpan (_clipX r) leftX rightX leftZ rightZ in
      fillLoop (Z.to_nat (rightX - leftX + 1)) (y * width r + leftX) leftZ
               ((rightZ - leftZ) / inject_Z (rightX - leftX)) r));
    [apply DepthOp_warnDepths|].
  apply (DepthOp_bind _clipX (fun clipX r =>
      let '(leftX, rightX, leftZ, rightZ) := clipSpan clipX leftX rightX leftZ rightZ in
      fillLoop (Z.to_nat (rightX - leftX + 1)) (y * width r + leftX) leftZ
               ((rightZ - leftZ) / inject_Z (rightX - leftX)) r));
    [apply frameOnly_clipX|].
  intros cx. destruct (clipSpan _ _ _ _ _) as [[[lx rx] lz] rz].
  apply (DepthOp_bind width (fun w r =>
      fillLoop (Z.to_nat (rx - lx + 1)) (y * w + lx) lz ((rz - lz) / inject_Z (rx - lx)) r));
    [apply frameOnly_width|].
  intros w. apply DepthOp_fillLoop.
Qed.

Lemma DepthOp_drawScanline (o : bool * bool) (d : EdgeData) (y : Z) :
  DepthOp (drawScanline o d y).
Proof.
  unfold drawScanline. destruct o as [[] []]; cbn; apply DepthOp_fillPixels.
Qed.

Lemma DepthOp_drawLoop (n : nat) (o : bool * bool) (d : EdgeData) (y : Z) :
  DepthOp (drawLoop n o d y).
Proof.
  revert d y. induction n as [|n IH]; intros d y.
  - apply DepthOp_id.
  - cbn [drawLoop].
    apply (DepthOp_compose (drawScanline o d y)
             (drawLoop n o (_updateEdgeDataToNextLine d) (y + 1)%Z));
      [apply DepthOp_drawScanline|apply IH].
Qed.

Lemma DepthOp_drawEdges (d : EdgeData) (o : bool * bool) : DepthOp (_drawEdges d o).
Proof. apply DepthOp_drawLoop. Qed.

Lemma frameOnly_edgePreRenderProcess (l s : Edge) :
  frameOnly (fun r => _edgePreRenderProcess r l s).
Proof. intros r r' H. by apply edgePreRenderProcess_sameFrame. Qed.

Lemma frameOnly_horizontalLongEdgeCull (l : Edge) (o : bool * bool) :
  frameOnly (fun r => _horizontalLongEdgeCull r l o).
Proof.
  intros r r' (_&_&Hx&_). unfold _horizontalLongEdgeCull. by rewrite Hx.
Qed.

Lemma frameOnly_verticalLongEdgeCull (l : Edge) :
  frameOnly (fun r => _verticalLongEdgeCull r l).
Proof.
  intros r r' (_&_&_&Hy&_). unfold _verticalLongEdgeCull. by rewrite Hy.
Qed.

Lemma DepthOp_renderSecondPortion (es : list Edge) (le : Edge) (s2 : nat)
    (o : option (bool * bool)) :
  DepthOp (renderSecondPortion es le s2 o).
Proof.
  unfold renderSecondPortion.
  apply (DepthOp_bind (fun r => _edgePreRenderProcess r le (es !!! s2))
    (fun e r =>
       match e with
       | Some edgeData =>
           match o with
           | None =>
               if _horizontalLongEdgeCull r le
                    (_calculateOrientationData edgeData (es !!! s2) le)
               then r
               else _drawEdges edgeData
                      (_calculateOrientationData edgeData (es !!! s2) le) r
           | Some orientationData => _drawEdges edgeData orientationData r
           end
       | None => r
       end)); [apply frameOnly_edgePreRenderProcess|].
  intros [d|]; [|apply DepthOp_id].
  destruct o as [o|]; [apply DepthOp_drawEdges|].
  apply (DepthOp_bind
    (fun r => _horizontalLongEdgeCull r le (_calculateOrientationData d (es !!! s2) le))
    (fun (b : bool) r =>
       if b then r
       else _drawEdges d (_calculateOrientationData d (es !!! s2) le) r));
    [apply frameOnly_horizontalLongEdgeCull|].
  intros []; [apply DepthOp_id|apply DepthOp_drawEdges].
Qed.

Lemma DepthOp_renderTriangle (t : Triangle) : DepthOp (_renderTriangle t).
Proof.
  unfold _renderTriangle.
  destruct (_createEdgesForTriangle t) as [es [[li s1] s2]].
  apply (DepthOp_bind (fun r => _verticalLongEdgeCull r (es !!! li))
    (fun (b : bool) r =>
       if b then r
       else
         let _edges := (fun e => invertZ (roundOccluderCoordinates e)) <$> es in
         let longEdge := _edges !!! li in
         let shortEdge := _edges !!! s1 in
         match _edgePreRenderProcess r longEdge shortEdge with
         | Some edgeData =>
             let orientationData := _calculateOrientationData edgeData shortEdge longEdge in
             if _horizontalLongEdgeCull r longEdge orientationData then r
             else
               let r := _drawEdges edgeData orientationData r in
               renderSecondPortion _edges longEdge s2 (Some orientationData) r
         | None => renderSecondPortion _edges longEdge s2 None r
         end)); [apply frameOnly_verticalLongEdgeCull|].
  intros []; [apply DepthOp_id|]. cbv zeta.
  set (edges := (fun e => invertZ (roundOccluderCoordinates e)) <$> es).
  apply (DepthOp_bind (fun r => _edgePreRenderProcess r (edges !!! li) (edges !!! s1))
    (fun e r =>
       match e with
       | Some edgeData =>
           if _horizontalLongEdgeCull r (edges !!! li)
                (_calculateOrientationData edgeData (edges !!! s1) (edges !!! li))
           then r
           else
             renderSecondPortion edges (edges !!! li) s2
               (Some (_calculateOrientationData edgeData (edges !!! s1) (edges !!! li)))
               (_drawEdges edgeData
                  (_calculateOrientationData edgeData (edges !!! s1) (edges !!! li)) r)
       | None => renderSecondPortion edges (edges !!! li) s2 None r
       end)); [apply frameOnly_edgePreRenderProcess|].
  intros [d|]; [|apply DepthOp_renderSecondPortion].
  apply (DepthOp_bind
    (fun r => _horizontalLongEdgeCull r (edges !!! li)
                (_calculateOrientationData d (edges !!! s1) (edges !!! li)))
    (fun (b : bool) r =>
       if b then r
       else
         renderSecondPortion edges (edges !!! li) s2
           (Some (_calculateOrientationData d (edges !!! s1) (edges !!! li)))
           (_drawEdges d (_calculateOrientationData d (edges !!! s1) (edges !!! li)) r)));
    [apply frameOnly_horizontalLongEdgeCull|].
  intros []; [apply DepthOp_id|].
  apply (DepthOp_compose
    (_drawEdges d (_calculateOrientationData d (edges !!! s1) (edges !!! li)))
    (renderSecondPortion edges (edges !!! li) s2
       (Some (_calculateOrientationData d (edges !!! s1) (edges !!! li)))));
    [apply DepthOp_drawEdges|apply DepthOp_renderSecondPortion].
Qed.

Lemma DepthOp_renderTriangles (ts : list Triangle) : DepthOp (renderTriangles ts).
Proof.
  induction ts as [|t ts IH].
  - apply DepthOp_id.
  - apply (DepthOp_compose (_renderTriangle t) (renderTriangles ts));
      [apply DepthOp_renderTriangle|exact IH].
Qed.

Lemma frameOnly_createTrianglesForEntity (cam : Camera) (e : Entity) (V P : Matrix4x4) :
  frameOnly (fun r => _createTrianglesForEntity r cam e V P).
Proof.
  intros r r' (_&_&Hx&Hy&_). unfold _createTrianglesForEntity.
  destruct (transformPositions _ _) as [pos|]; [|reflexivity]. f_equal.
  generalize (@nil Triangle) as acc. generalize (indexData e) as ix.
  fix IH 1. intros [|i1 [|i2 [|i3 rest]]] acc; try reflexivity.
  cbn [trianglesLoop]. rewrite IH. unfold _transformToScreenSpace.
  rewrite Hx, Hy. reflexivity.
Qed.

(** The loop of [render] from two renderers, the second with greater
    depths and a longer list: if the longer run completes, so does the
    shorter, and it ends with smaller depths. *)
Lemma renderLoop_sublist (cam : Camera) (A B : list Entity) :
  A `sublist_of` B ->
  forall rA rB, depthLe rA rB ->
    (renderLoop cam B rB).1 = Normal tt ->
    (renderLoop cam A rA).1 = Normal tt /\
    depthLe (renderLoop cam A rA).2 (renderLoop cam B rB).2.
Proof.
  induction 1 as [|e A B _ IH|e A B _ IH]; intros rA rB Hle; cbn [renderLoop].
  - intros _. split; [reflexivity|exact Hle].
  - rewrite (frameOnly_createTrianglesForEntity cam e _ _ rA rB) by apply Hle.
    destruct (_createTrianglesForEntity rA cam e _ _) as [ts|err]; [|discriminate].
    apply IH. by apply DepthOp_renderTriangles.
  - destruct (_createTrianglesForEntity rB cam e _ _) as [ts|err]; [|discriminate].
    apply IH. eapply depthLe_trans; [exact Hle|]. apply DepthOp_renderTriangles.
Qed.

(** C5: for one camera and occluder lists A and B with A a sublist of
    B, a [render(B)] that completes leaves in every pixel a depth no
    less than [render(A)] does. *)
Theorem render_monotone (A B : list Entity) (r : SoftwareRenderer) :
  A `sublist_of` B ->
  (render B r).1 = Normal tt ->
  (render A r).1 = Normal tt /\
  Forall2 Qle (_depthData (render A r).2) (_depthData (render B r).2).
Proof.
  intros Hsub. unfold render.
  destruct (_clearDepthData r) as [r0|err]; [|discriminate].
  destruct (camera r0) as [cam|]; [|discriminate].
  intros HB.
  destruct (renderLoop_sublist cam A B Hsub r0 r0 (depthLe_refl r0) HB) as [HA Hle].
  split; [exact HA|apply Hle].
Qed.

Lemma render_monotone_witness :
  (render [farOccluder] projectingRenderer).1 = Normal tt /\
  Forall2 Qle (_depthData (render [farOccluder] projectingRenderer).2)
              (_depthData (render [nearOccluder; farOccluder] projectingRenderer).2).
Proof.
  apply (render_monotone [farOccluder] [nearOccluder; farOccluder] projectingRenderer).
  - apply sublist_cons, sublist_skip, sublist_nil.
  - vm_compute. reflexivity.
Defined.

(** ** The properties at sample inputs *)

Lemma depth_accesses_in_bounds_witness :
  (forall longEdge shortEdge edgeData,
     _edgePreRenderProcess sampleRenderer longEdge shortEdge = Some edgeData ->
     (0 <= getStartLine edgeData)%Z /\ (getStopLine edgeData <= _clipY sampleRenderer)%Z) /\
  (forall leftX rightX y leftZ rightZ,
     (0 <= y <= _clipY sampleRenderer)%Z ->
     extendsInBounds sampleRenderer (_fillPixels leftX rightX y leftZ rightZ sampleRenderer) /\
     extendsInBounds sampleRenderer
       (_isScanlineOccluded leftX rightX y leftZ rightZ sampleRenderer).2) /\
  (forall t,
     extendsInBounds sampleRenderer (_renderTriangle t sampleRenderer) /\
     extendsInBounds sampleRenderer (isRenderedTriangleOccluded t sampleRenderer).2).
Proof.
  apply (depth_accesses_in_bounds sampleRenderer). split; reflexivity.
Defined.

Lemma outside_viewport_never_visible_witness :
  _isScanlineOccluded (-3) (-1) 0 (1 # 2) (1 # 2) sampleRenderer = (true, sampleRenderer) /\
  endsAtVisiblePixel sampleRenderer
    (isRenderedTriangleOccluded sampleTriangle sampleRenderer).2.
Proof.
  split.
  - apply (proj1 (outside_viewport_never_visible sampleRenderer)). left. lia.
  - apply (proj2 (outside_viewport_never_visible sampleRenderer) sampleTriangle).
    + split; reflexivity.
    + reflexivity.
Defined.

(** * Further properties of the renderer *)

(** ** Operations built from depth tests *)

Section Closure.

(** A property of renderer operations that holds of the single depth
    test and of the warnings, and is kept by sequencing and by branching
    on the renderer's configuration, holds of everything the occluder
    path does. *)
Variable P : (SoftwareRenderer -> SoftwareRenderer) -> Prop.
Hypothesis P_id : P (fun r => r).
Hypothesis P_compose : forall f g, P f -> P g -> P (fun r => g (f r)).
Hypothesis P_bind :
  forall (A : Type) (v : SoftwareRenderer -> A) (f : A -> SoftwareRenderer -> SoftwareRenderer),
    frameOnly v -> (forall a, P (f a)) -> P (fun r => f (v r) r).
Hypothesis P_fillStep : forall index depth, P (fillStep index depth).
Hypothesis P_warnDepths : forall l lz rz, P (warnDepths l lz rz).

Lemma closure_fillLoop (n : nat) (index : Z) (depth inc : Q) :
  P (fillLoop n index depth inc).
Proof.
  revert index depth. induction n as [|n IH]; intros index depth.
  - apply P_id.
  - apply (P_compose (fillStep index depth) (fillLoop n (index + 1)%Z (depth + inc) inc));
      [apply P_fillStep|apply IH].
Qed.

Lemma closure_fillPixels (leftX rightX y : Z) (leftZ rightZ : Q) :
  P (_fillPixels leftX rightX y leftZ rightZ).
Proof.
  unfold _fillPixels.
  apply (P_bind _ _clipX (fun clipX r =>
    if emptySpan clipX leftX rightX then r
    else
      let r := warnDepths "leftz : " leftZ rightZ r in
      let '(leftX, rightX, leftZ, rightZ) := clipSpan (_clipX r) leftX rightX leftZ rightZ in
      fillLoop (Z.to_nat (rightX - leftX + 1)) (y * width r + leftX) leftZ
               ((rightZ - leftZ) / inject_Z (rightX - leftX)) r));
    [apply frameOnly_clipX|].
  intros clipX. destruct (emptySpan _ _ _); [apply P_id|].
  apply (P_compose (warnDepths "leftz : " leftZ rightZ) (fun r =>
      let '(leftX, rightX, leftZ, rightZ) := clipSpan (_clipX r) leftX rightX leftZ rightZ in
      fillLoop (Z.to_nat (rightX - leftX + 1)) (y * width r + leftX) leftZ
               ((rightZ - leftZ) / inject_Z (rightX - leftX)) r));
    [apply P_warnDepths|].
  apply (P_bind _ _clipX (fun clipX r =>
      let '(leftX, rightX, leftZ, rightZ) := clipSpan clipX leftX rightX leftZ rightZ in
      fillLoop (Z.to_nat (rightX - leftX + 1)) (y * width r + leftX) leftZ
               ((rightZ - leftZ) / inject_Z (rightX - leftX)) r));
    [apply frameOnly_clipX|].
  intros cx. destruct (clipSpan _ _ _ _ _) as [[[lx rx] lz] rz].
  apply (P_bind _ width (fun w r =>
      fillLoop (Z.to_nat (rx - lx + 1)) (y * w + lx) lz ((rz - lz) / inject_Z (rx - lx)) r));
    [apply frameOnly_width|].
  intros w. apply closure_fillLoop.
Qed.

Lemma closure_drawScanline (o : bool * bool) (d : EdgeData) (y : Z) :
  P (drawScanline o d y).
Proof.
  unfold drawScanline. destruct o as [[] []]; cbn; apply closure_fillPixels.
Qed.

Lemma closure_drawLoop (n : nat) (o : bool * bool) (d : EdgeData) (y : Z) :
  P (drawLoop n o d y).
Proof.
  revert d y. induction n as [|n IH]; intros d y.
  - apply P_id.
  - apply (P_compose (drawScanline o d y)
             (drawLoop n o (_updateEdgeDataToNextLine d) (y + 1)%Z));
      [apply closure_drawScanline|apply IH].
Qed.

Lemma closure_drawEdges (d : EdgeData) (o : bool * bool) : P (_drawEdges d o).
Proof. apply closure_drawLoop. Qed.

Lemma closure_renderSecondPortion (es : list Edge) (le : Edge) (s2 : nat)
    (o : option (bool * bool)) :
  P (renderSecondPortion es le s2 o).
Proof.
  unfold renderSecondPortion.
  apply (P_bind _ (fun r => _edgePreRenderProcess r le (es !!! s2))
    (fun e r =>
       match e with
       | Some edgeData =>
           match o with
           | None =>
               if _horizontalLongEdgeCull r le
                    (_calculateOrientationData edgeData (es !!! s2) le)
               then r
               else _drawEdges edgeData
                      (_calculateOrientationData edgeData (es !!! s2) le) r
           | Some orientationData => _drawEdges edgeData orientationData r
           end
       | None => r
       end)); [apply frameOnly_edgePreRenderProcess|].
  intros [d|]; [|apply P_id].
  destruct o as [o|]; [apply closure_drawEdges|].
  apply (P_bind _
    (fun r => _horizontalLongEdgeCull r le (_calculateOrientationData d (es !!! s2) le))
    (fun (b : bool) r =>
       if b then r
       else _drawEdges d (_calculateOrientationData d (es !!! s2) le) r));
    [apply frameOnly_horizontalLongEdgeCull|].
  intros []; [apply P_id|apply closure_drawEdges].
Qed.

Lemma closure_renderTriangle (t : Triangle) : P (_renderTriangle t).
Proof.
  unfold _renderTriangle.
  destruct (_createEdgesForTriangle t) as [es [[li s1] s2]].
  apply (P_bind _ (fun r => _verticalLongEdgeCull r (es !!! li))
    (fun (b : bool) r =>
       if b then r
       else
         let _edges := (fun e => invertZ (roundOccluderCoordinates e)) <$> es in
         let longEdge := _edges !!! li in
         let shortEdge := _edges !!! s1 in
         match _edgePreRenderProcess r longEdge shortEdge with
         | Some edgeData =>
             let orientationData := _calculateOrientationData edgeData shortEdge longEdge in
             if _horizontalLongEdgeCull r longEdge orientationData then r
             else
               let r := _drawEdges edgeData orientationData r in
               renderSecondPortion _edges longEdge s2 (Some orientationData) r
         | None => renderSecondPortion _edges longEdge s2 None r
         end)); [apply frameOnly_verticalLongEdgeCull|].
  intros []; [apply P_id|]. cbv zeta.
  set (edges := (fun e => invertZ (roundOccluderCoordinates e)) <$> es).
  apply (P_bind _ (fun r => _edgePreRenderProcess r (edges !!! li) (edges !!! s1))
    (fun e r =>
       match e with
       | Some edgeData =>
           if _horizontalLongEdgeCull r (edges !!! li)
                (_calculateOrientationData edgeData (edges !!! s1) (edges !!! li))
           then r
           else
             renderSecondPortion edges (edges !!! li) s2
               (Some (_calculateOrientationData edgeData (edges !!! s1) (edges !!! li)))
               (_drawEdges edgeData
                  (_calculateOrientationData edgeData (edges !!! s1) (edges !!! li)) r)
       | None => renderSecondPortion edges (edges !!! li) s2 None r
       end)); [apply frameOnly_edgePreRenderProcess|].
  intros [d|]; [|apply closure_renderSecondPortion].
  apply (P_bind _
    (fun r => _horizontalLongEdgeCull r (edges !!! li)
                (_calculateOrientationData d (edges !!! s1) (edges !!! li)))
    (fun (b : bool) r =>
       if b then r
       else
         renderSecondPortion edges (edges !!! li) s2
           (Some (_calculateOrientationData d (edges !!! s1) (edges !!! li)))
           (_drawEdges d (_calculateOrientationData d (edges !!! s1) (edges !!! li)) r)));
    [apply frameOnly_horizontalLongEdgeCull|].
  intros []; [apply P_id|].
  apply (P_compose
    (_drawEdges d (_calculateOrientationData d (edges !!! s1) (edges !!! li)))
    (renderSecondPortion edges (edges !!! li) s2
       (Some (_calculateOrientationData d (edges !!! s1) (edges !!! li)))));
    [apply closure_drawEdges|apply closure_renderSecondPortion].
Qed.

Lemma closure_renderTriangles (ts : list Triangle) : P (renderTriangles ts).
Proof.
  induction ts as [|t ts IH].
  - apply P_id.
  - apply (P_compose (_renderTriangle t) (renderTriangles ts));
      [apply closure_renderTriangle|exact IH].
Qed.

End Closure.

(** ** The trace explains the buffer *)

Lemma TraceOp_id : TraceOp (fun r => r).
Proof.
  intros r. exists []. intros r' _. split; [apply sameFrame_refl|].
  split; [by rewrite app_nil_r|reflexivity].
Qed.

Lemma TraceOp_compose (f g : SoftwareRenderer -> SoftwareRenderer) :
  TraceOp f -> TraceOp g -> TraceOp (fun r => g (f r)).
Proof.
  intros Hf Hg r. destruct (Hf r) as [t1 H1], (Hg (f r)) as [t2 H2].
  exists (t1 ++ t2). intros r' Hr.
  destruct (H1 r' Hr) as (Hf1 & Ha1 & Hd1).
  destruct (H1 r (sameFrame_refl r)) as (Hf0 & _ & _).
  assert (Hfr : sameFrame (f r) (f r')).
  { eapply sameFrame_trans; [apply sameFrame_sym, Hf0|].
    eapply sameFrame_trans; [exact Hr|exact Hf1]. }
  destruct (H2 (f r') Hfr) as (Hf2 & Ha2 & Hd2).
  split; [eapply sameFrame_trans; eassumption|].
  split.
  - by rewrite Ha2, Ha1, app_assoc.
  - rewrite Hd2, Hd1. unfold applyTests. by rewrite foldl_app.
Qed.

Lemma TraceOp_bind (A : Type) (v : SoftwareRenderer -> A)
    (f : A -> SoftwareRenderer -> SoftwareRenderer) :
  frameOnly v -> (forall a, TraceOp (f a)) -> TraceOp (fun r => f (v r) r).
Proof.
  intros Hv Hf r. destruct (Hf (v r) r) as [t H]. exists t.
  intros r' Hr. rewrite (Hv r r' Hr). by apply H.
Qed.

Lemma TraceOp_fillStep (index : Z) (depth : Q) : TraceOp (fillStep index depth).
Proof.
  intros r. exists [(index, depth)]. intros r' _. unfold fillStep. cbn.
  destruct (gtStored _ _) eqn:Hg; cbn.
  - split; [|split; [reflexivity|]].
    + eapply sameFrame_trans; [apply (sameFrame_note_access index depth)|].
      apply sameFrame_set_depthData, typedArraySet_length.
    + unfold applyTest. cbn. by rewrite Hg.
  - split; [apply sameFrame_note_access|]. split; [reflexivity|].
    unfold applyTest. cbn. by rewrite Hg.
Qed.

Lemma TraceOp_warnDepths (l : string) (lz rz : Q) : TraceOp (warnDepths l lz rz).
Proof.
  intros r. exists []. intros r' _. split; [apply sameFrame_warnDepths|].
  split; [by rewrite accessed_warnDepths, app_nil_r|apply depthData_warnDepths].
Qed.

Lemma TraceOp_renderTriangle (t : Triangle) : TraceOp (_renderTriangle t).
Proof.
  apply closure_renderTriangle;
    auto using TraceOp_id, TraceOp_compose, TraceOp_bind, TraceOp_fillStep,
               TraceOp_warnDepths.
Qed.

Lemma TraceOp_renderTriangles (ts : list Triangle) : TraceOp (renderTriangles ts).
Proof.
  apply closure_renderTriangles;
    auto using TraceOp_id, TraceOp_compose, TraceOp_bind, TraceOp_fillStep,
               TraceOp_warnDepths.
Qed.

(** ** The algebra of depth tests on a buffer *)

Lemma applyTest_length (b : list Q) (t : Z * Q) : length (applyTest b t) = length b.
Proof.
  unfold applyTest. destruct (gtStored _ _); [apply typedArraySet_length|reflexivity].
Qed.

Lemma applyTest_raises (b : list Q) (t : Z * Q) : Forall2 Qle b (applyTest b t).
Proof.
  unfold applyTest. destruct (gtStored _ _) eqn:Hg;
    [by apply write_raises|apply Forall2_Qle_refl].
Qed.

Lemma Forall2_Qle_trans (a b c : list Q) :
  Forall2 Qle a b -> Forall2 Qle b c -> Forall2 Qle a c.
Proof.
  intros H1 H2. eapply Forall2_trans; [|exact H1|exact H2].
  intros x y z. apply Qle_trans.
Qed.

Lemma applyTests_raises (tests : list (Z * Q)) (b : list Q) :
  Forall2 Qle b (applyTests tests b).
Proof.
  revert b. induction tests as [|t T IH]; intros b; cbn.
  - apply Forall2_Qle_refl.
  - eapply Forall2_Qle_trans; [apply (applyTest_raises b t)|apply IH].
Qed.

Lemma applyTest_monotone (b b' : list Q) (t : Z * Q) :
  Forall2 Qle b b' -> Forall2 Qle (applyTest b t) (applyTest b' t).
Proof. intros H. unfold applyTest. by apply write_monotone. Qed.

Lemma applyTests_monotone (tests : list (Z * Q)) (b b' : list Q) :
  Forall2 Qle b b' -> Forall2 Qle (applyTests tests b) (applyTests tests b').
Proof.
  revert b b'. induction tests as [|t T IH]; intros b b' H; cbn; [exact H|].
  by apply IH, applyTest_monotone.
Qed.

Lemma typedArrayGet_Forall2 (b b' : list Q) (i : Z) :
  Forall2 Qle b b' ->
  match typedArrayGet b i, typedArrayGet b' i with
  | Some s, Some s' => s <= s'
  | None, None => True
  | _, _ => False
  end.
Proof.
  intros H. unfold typedArrayGet. destruct (i <? 0)%Z; [exact I|].
  destruct (b !! Z.to_nat i) as [s|] eqn:Hb.
  - destruct (Forall2_lookup_l _ _ _ _ _ H Hb) as (s' & -> & Hle). exact Hle.
  - assert (Hb' : b' !! Z.to_nat i = None).
    { apply lookup_ge_None. rewrite <- (Forall2_length _ _ _ H).
      by apply lookup_ge_None. }
    by rewrite Hb'.
Qed.

Lemma passes_grow (b b' : list Q) (t : Z * Q) :
  Forall2 Qle b b' -> passes b t -> passes b' t.
Proof.
  intros H. unfold passes. pose proof (typedArrayGet_Forall2 b b' t.1 H) as Hg.
  destruct (typedArrayGet b t.1) as [s|], (typedArrayGet b' t.1) as [s'|];
    try done. cbn. unfold Qgtb. rewrite !Qltb_ge. intros Hs. by apply (Qle_trans _ s).
Qed.

Lemma passes_applyTest (b : list Q) (t : Z * Q) : passes (applyTest b t) t.
Proof.
  unfold passes, applyTest.
  destruct (gtStored t.2 (typedArrayGet b t.1)) eqn:Hg; [|exact Hg].
  apply gtStored_true in Hg as (s & Hget & _).
  rewrite typedArrayGet_set_eq by (rewrite Hget; by eexists).
  cbn. unfold Qgtb. apply Qltb_ge, Qle_refl.
Qed.

Lemma applyTests_passes (tests : list (Z * Q)) (b : list Q) :
  Forall (passes (applyTests tests b)) tests.
Proof.
  revert b. induction tests as [|t T IH]; intros b; cbn; [apply Forall_nil_2|].
  apply Forall_cons. split; [|apply IH].
  apply (passes_grow (applyTest b t)); [apply applyTests_raises|apply passes_applyTest].
Qed.

Lemma applyTests_absorb (tests : list (Z * Q)) (b : list Q) :
  Forall (passes b) tests -> applyTests tests b = b.
Proof.
  induction 1 as [|t T Ht _ IH]; [reflexivity|].
  change (applyTests (t :: T) b) with (applyTests T (applyTest b t)).
  unfold applyTest. unfold passes in Ht. rewrite Ht. exact IH.
Qed.

Lemma applyTests_least (tests : list (Z * Q)) (b b' : list Q) :
  Forall2 Qle b b' -> Forall (passes b') tests -> Forall2 Qle (applyTests tests b) b'.
Proof.
  intros Hle Hp. rewrite <- (applyTests_absorb tests b' Hp).
  by apply applyTests_monotone.
Qed.

Lemma Forall2_Qle_antisym (a b : list Q) :
  Forall2 Qle a b -> Forall2 Qle b a -> Forall2 Qeq a b.
Proof.
  induction 1 as [|x y a b Hxy _ IH]; inversion 1 as [|? ? ? ? Hyx Hba]; subst;
    constructor; [by apply Qle_antisym|by apply IH].
Qed.

Lemma applyTests_idempotent (tests : list (Z * Q)) (b : list Q) :
  applyTests tests (applyTests tests b) = applyTests tests b.
Proof. apply applyTests_absorb, applyTests_passes. Qed.

Lemma applyTests_commute (t1 t2 : list (Z * Q)) (b : list Q) :
  Forall2 Qeq (applyTests t1 (applyTests t2 b)) (applyTests t2 (applyTests t1 b)).
Proof.
  assert (Hhalf : forall u v, Forall2 Qle (applyTests u (applyTests v b))
                                          (applyTests v (applyTests u b))).
  { intros u v. apply applyTests_least.
    - apply applyTests_monotone, applyTests_raises.
    - eapply Forall_impl; [apply (applyTests_passes u b)|].
      intros t. apply passes_grow, applyTests_raises. }
  apply Forall2_Qle_antisym; apply Hhalf.
Qed.

(** After a list of tests every cell holds the greatest of its old value
    and the depths tested at it. *)
Lemma applyTests_cell (tests : list (Z * Q)) (b : list Q) (i : Z) (old : Q) :
  typedArrayGet b i = Some old ->
  exists v, typedArrayGet (applyTests tests b) i = Some v /\
            (v = old \/ (i, v) ∈ tests) /\ old <= v /\
            forall d, (i, d) ∈ tests -> d <= v.
Proof.
  revert b old. induction tests as [|[j e] T IH]; intros b old Hget; cbn.
  - exists old. split; [exact Hget|]. split; [by left|]. split; [apply Qle_refl|].
    intros d Hd. by apply elem_of_nil in Hd.
  - assert (H1 : exists v1, typedArrayGet (applyTest b (j, e)) i = Some v1 /\
                   (v1 = old \/ (i, v1) = (j, e)) /\ old <= v1 /\ (j = i -> e <= v1)).
    { unfold applyTest. cbn. destruct (gtStored e (typedArrayGet b j)) eqn:Hg.
      - destruct (decide (j = i)) as [->|Hne].
        + rewrite typedArrayGet_set_eq by (rewrite Hget; by eexists).
          rewrite Hget in Hg. cbn in Hg. apply Qltb_lt in Hg.
          exists e. split; [reflexivity|]. split; [by right|].
          split; [by apply Qlt_le_weak|]. intros _. apply Qle_refl.
        + rewrite typedArrayGet_set_ne by done.
          exists old. split; [exact Hget|]. split; [by left|].
          split; [apply Qle_refl|]. intros Heq. contradiction.
      - exists old. split; [exact Hget|]. split; [by left|].
        split; [apply Qle_refl|]. intros ->. rewrite Hget in Hg. cbn in Hg.
        by apply Qltb_ge in Hg. }
    destruct H1 as (v1 & Hg1 & Hv1 & Hle1 & Hd1).
    destruct (IH _ _ Hg1) as (v & Hgv & Hv & Hle & Hd).
    exists v. split; [exact Hgv|]. split; [|split].
    + destruct Hv as [->|Hin]; [|right; by apply list_elem_of_further].
      destruct Hv1 as [->|Heq]; [by left|]. right. rewrite Heq. apply list_elem_of_here.
    + by apply (Qle_trans _ v1).
    + intros d Hin. apply elem_of_cons in Hin as [[= <- <-]|Hin]; [|by apply Hd].
      apply (Qle_trans _ v1); [by apply Hd1|exact Hle].
Qed.

(** ** Rendering a triangle: what the buffer holds afterwards *)

Lemma TraceOp_twice (f : SoftwareRenderer -> SoftwareRenderer) (r : SoftwareRenderer) :
  TraceOp f -> _depthData (f (f r)) = _depthData (f r).
Proof.
  intros Hf. destruct (Hf r) as [T H].
  destruct (H r (sameFrame_refl r)) as (Hfr & _ & Hd).
  destruct (H (f r) Hfr) as (_ & _ & Hd2).
  rewrite Hd2, Hd. apply applyTests_idempotent.
Qed.

Lemma TraceOp_swap (f g : SoftwareRenderer -> SoftwareRenderer) (r : SoftwareRenderer) :
  TraceOp f -> TraceOp g -> depthEq (f (g r)) (g (f r)).
Proof.
  intros Hf Hg. destruct (Hf r) as [Tf H1], (Hg r) as [Tg H2].
  destruct (H1 r (sameFrame_refl r)) as (Hfr & _ & Hdf).
  destruct (H2 r (sameFrame_refl r)) as (Hgr & _ & Hdg).
  destruct (H1 (g r) Hgr) as (Hfg & _ & Hdfg).
  destruct (H2 (f r) Hfr) as (Hgf & _ & Hdgf).
  split.
  - eapply sameFrame_trans; [apply sameFrame_sym, Hfg|].
    eapply sameFrame_trans; [apply sameFrame_sym, Hgr|].
    eapply sameFrame_trans; [exact Hfr|exact Hgf].
  - rewrite Hdfg, Hdg, Hdgf, Hdf. apply applyTests_commute.
Qed.

(** X1: rendering a triangle a second time changes no cell of the
    depth buffer. *)
Theorem renderTriangle_twice (t : Triangle) (r : SoftwareRenderer) :
  _depthData (_renderTriangle t (_renderTriangle t r)) = _depthData (_renderTriangle t r).
Proof. apply TraceOp_twice, TraceOp_renderTriangle. Qed.

(** X2: the order in which two triangles are rendered does not matter:
    both orders leave the same depth, as a number, in every cell. *)
Theorem renderTriangle_order (t1 t2 : Triangle) (r : SoftwareRenderer) :
  Forall2 Qeq (_depthData (_renderTriangle t1 (_renderTriangle t2 r)))
              (_depthData (_renderTriangle t2 (_renderTriangle t1 r))).
Proof. apply TraceOp_swap; apply TraceOp_renderTriangle. Qed.

(** X4: the depth tests a triangle makes, indices and depths, are fixed
    by the renderer's configuration; the depths already stored have no
    part in them. *)
Theorem renderTriangle_tests_ignore_depth (t : Triangle) (r r' : SoftwareRenderer) :
  sameFrame r r' ->
  exists tests,
    accessed (_renderTriangle t r) = accessed r ++ tests /\
    accessed (_renderTriangle t r') = accessed r' ++ tests.
Proof.
  intros Hf. destruct (TraceOp_renderTriangle t r) as [T H].
  destruct (H r (sameFrame_refl r)) as (_ & Ha & _).
  destruct (H r' Hf) as (_ & Ha' & _).
  exists T. by split.
Qed.

Lemma renderTriangle_tests_ignore_depth_witness :
  exists tests,
    accessed (_renderTriangle sampleTriangle sampleRenderer)
      = accessed sampleRenderer ++ tests /\
    accessed (_renderTriangle sampleTriangle
                (_renderTriangle sampleTriangle sampleRenderer))
      = accessed (_renderTriangle sampleTriangle sampleRenderer) ++ tests.
Proof.
  apply (renderTriangle_tests_ignore_depth sampleTriangle sampleRenderer
           (_renderTriangle sampleTriangle sampleRenderer)).
  vm_compute. repeat split; reflexivity.
Defined.

(** ** Rendering lists of occluders *)

Lemma frameOnly_renderable_triangles (cam : Camera) (e : Entity) :
  frameOnly (fun r => _createTrianglesForEntity r cam e
                        (getViewMatrix cam) (getProjectionMatrix cam)).
Proof. apply frameOnly_createTrianglesForEntity. Qed.

Lemma renderEntity_closure (P : (SoftwareRenderer -> SoftwareRenderer) -> Prop)
    (cam : Camera) (e : Entity) :
  P (fun r => r) ->
  (forall f g, P f -> P g -> P (fun r => g (f r))) ->
  (forall (A : Type) (v : SoftwareRenderer -> A)
          (f : A -> SoftwareRenderer -> SoftwareRenderer),
      frameOnly v -> (forall a, P (f a)) -> P (fun r => f (v r) r)) ->
  (forall index depth, P (fillStep index depth)) ->
  (forall l lz rz, P (warnDepths l lz rz)) ->
  P (renderEntity cam e).
Proof.
  intros Hid Hc Hb Hs Hw. unfold renderEntity.
  apply (Hb _ (fun r => _createTrianglesForEntity r cam e
                          (getViewMatrix cam) (getProjectionMatrix cam))
    (fun c r => match c with Normal ts => renderTriangles ts r | Throw _ => r end));
    [apply frameOnly_renderable_triangles|].
  intros [ts|err]; [by apply closure_renderTriangles|exact Hid].
Qed.

Lemma TraceOp_renderEntity (cam : Camera) (e : Entity) : TraceOp (renderEntity cam e).
Proof.
  apply renderEntity_closure;
    auto using TraceOp_id, TraceOp_compose, TraceOp_bind, TraceOp_fillStep,
               TraceOp_warnDepths.
Qed.

Lemma DepthOp_fillStep' (index : Z) (depth : Q) : DepthOp (fillStep index depth).
Proof. apply DepthOp_fillStep. Qed.

Lemma DepthOp_renderEntity (cam : Camera) (e : Entity) : DepthOp (renderEntity cam e).
Proof.
  apply renderEntity_closure;
    auto using DepthOp_id, DepthOp_compose, DepthOp_fillStep', DepthOp_warnDepths.
  intros A v f. apply DepthOp_bind.
Qed.

Lemma renderable_sameFrame (r r' : SoftwareRenderer) (cam : Camera) (e : Entity) :
  sameFrame r r' -> renderable r cam e -> renderable r' cam e.
Proof.
  intros Hf [ts Hts]. exists ts.
  by rewrite (frameOnly_createTrianglesForEntity cam e _ _ r r' Hf).
Qed.

(** The loop of [render] completes exactly when every entity is
    renderable, and then it is the sequence of the entities'
    renderings. *)
Lemma renderLoop_normal (cam : Camera) (l : list Entity) (r : SoftwareRenderer) :
  ((renderLoop cam l r).1 = Normal tt <-> Forall (renderable r cam) l) /\
  ((renderLoop cam l r).1 = Normal tt ->
   (renderLoop cam l r).2 = foldl (fun r e => renderEntity cam e r) r l).
Proof.
  revert r. induction l as [|e l IH]; intros r; cbn [renderLoop foldl].
  - split; [split; [intros _; apply Forall_nil_2|reflexivity]|reflexivity].
  - assert (He : renderEntity cam e r =
                 match _createTrianglesForEntity r cam e
                         (getViewMatrix cam) (getProjectionMatrix cam) with
                 | Normal ts => renderTriangles ts r
                 | Throw _ => r
                 end) by reflexivity.
    destruct (_createTrianglesForEntity r cam e _ _) as [ts|err] eqn:Hc; rewrite He.
    + destruct (IH (renderTriangles ts r)) as [Hiff Hfold].
      pose proof (sameFrame_renderTriangles ts r) as Hf.
      split; [|exact Hfold]. rewrite Hiff, Forall_cons. split.
      * intros Hall. split; [by exists ts|].
        eapply Forall_impl; [exact Hall|]. intros x.
        apply renderable_sameFrame. by apply sameFrame_sym.
      * intros [_ Hall]. eapply Forall_impl; [exact Hall|]. intros x.
        by apply renderable_sameFrame.
    + split; [|discriminate]. split; [discriminate|].
      intros [[ts Hts] _]%Forall_cons. unfold renderable in *. congruence.
Qed.

Lemma depthEq_refl (r : SoftwareRenderer) : depthEq r r.
Proof.
  split; [apply sameFrame_refl|].
  apply Forall_Forall2_diag, Forall_forall. intros x _. apply Qeq_refl.
Qed.

Lemma depthEq_trans (r1 r2 r3 : SoftwareRenderer) :
  depthEq r1 r2 -> depthEq r2 r3 -> depthEq r1 r3.
Proof.
  intros [Hf1 Hd1] [Hf2 Hd2]. split; [eapply sameFrame_trans; eassumption|].
  eapply Forall2_trans; [|exact Hd1|exact Hd2]. intros x y z. apply Qeq_trans.
Qed.

Lemma Forall2_Qeq_Qle (a b : list Q) :
  Forall2 Qeq a b -> Forall2 Qle a b /\ Forall2 Qle b a.
Proof.
  induction 1 as [|x y a b Hxy _ [IH1 IH2]]; [split; constructor|].
  split; constructor; try assumption.
  - apply Qle_lteq. by right.
  - apply Qle_lteq. right. by apply Qeq_sym.
Qed.

Lemma depthEq_depthLe (r r' : SoftwareRenderer) :
  depthEq r r' <-> depthLe r r' /\ depthLe r' r.
Proof.
  split.
  - intros [Hf Hd]. apply Forall2_Qeq_Qle in Hd as [H1 H2].
    split; (split; [exact Hf || by apply sameFrame_sym|assumption]).
  - intros [[Hf H1] [_ H2]]. split; [exact Hf|]. by apply Forall2_Qle_antisym.
Qed.

Lemma DepthOp_depthEq (f : SoftwareRenderer -> SoftwareRenderer) (r r' : SoftwareRenderer) :
  DepthOp f -> depthEq r r' -> depthEq (f r) (f r').
Proof.
  intros [_ Hm]. rewrite !depthEq_depthLe. intros [H1 H2]. split; by apply Hm.
Qed.

Lemma renderEntities_depthEq (cam : Camera) (l : list Entity) (r r' : SoftwareRenderer) :
  depthEq r r' ->
  depthEq (foldl (fun r e => renderEntity cam e r) r l)
          (foldl (fun r e => renderEntity cam e r) r' l).
Proof.
  revert r r'. induction l as [|e l IH]; intros r r' H; cbn; [exact H|].
  apply IH. by apply DepthOp_depthEq; [apply DepthOp_renderEntity|].
Qed.

Lemma renderEntities_permutation (cam : Camera) (l l' : list Entity) :
  l ≡ₚ l' ->
  forall r r', depthEq r r' ->
    depthEq (foldl (fun r e => renderEntity cam e r) r l)
            (foldl (fun r e => renderEntity cam e r) r' l').
Proof.
  induction 1 as [|x l l' _ IH|x y l|l l' l'' _ IH1 _ IH2]; intros r r' H.
  - exact H.
  - cbn. apply IH. by apply DepthOp_depthEq; [apply DepthOp_renderEntity|].
  - cbn. apply renderEntities_depthEq.
    eapply depthEq_trans;
      [apply (TraceOp_swap (renderEntity cam x) (renderEntity cam y));
       apply TraceOp_renderEntity|].
    apply DepthOp_depthEq; [apply DepthOp_renderEntity|].
    by apply DepthOp_depthEq; [apply DepthOp_renderEntity|].
  - eapply depthEq_trans; [apply (IH1 r r), depthEq_refl|by apply IH2].
Qed.

(** X5: [render] does not depend on the order of the occluders: when
    [render(B)] completes and A is a rearrangement of B, [render(A)]
    completes as well and leaves the same depth, as a number, in every
    cell. *)
Theorem render_order_independent (A B : list Entity) (r : SoftwareRenderer) :
  A ≡ₚ B ->
  (render B r).1 = Normal tt ->
  (render A r).1 = Normal tt /\
  Forall2 Qeq (_depthData (render A r).2) (_depthData (render B r).2).
Proof.
  intros Hp. unfold render.
  destruct (_clearDepthData r) as [r0|err]; [|discriminate].
  destruct (camera r0) as [cam|]; [|discriminate].
  intros HB.
  destruct (renderLoop_normal cam B r0) as [HiffB HfoldB].
  destruct (renderLoop_normal cam A r0) as [HiffA HfoldA].
  assert (HA : (renderLoop cam A r0).1 = Normal tt).
  { apply HiffA. rewrite Hp. by apply HiffB. }
  split; [exact HA|]. rewrite (HfoldA HA), (HfoldB HB).
  apply (renderEntities_permutation cam A B Hp r0 r0), depthEq_refl.
Qed.

Lemma render_order_independent_witness :
  (render [farOccluder; nearOccluder] projectingRenderer).1 = Normal tt /\
  Forall2 Qeq (_depthData (render [farOccluder; nearOccluder] projectingRenderer).2)
              (_depthData (render [nearOccluder; farOccluder] projectingRenderer).2).
Proof.
  apply (render_order_independent [farOccluder; nearOccluder]
           [nearOccluder; farOccluder] projectingRenderer).
  - apply Permutation_swap.
  - vm_compute. reflexivity.
Defined.

(** The loop of [render], like a single triangle, makes tests fixed by
    the configuration, whether it completes or throws. *)
Lemma renderLoop_trace (cam : Camera) (l : list Entity) (r : SoftwareRenderer) :
  exists tests, forall r', sameFrame r r' ->
    (renderLoop cam l r').1 = (renderLoop cam l r).1 /\
    sameFrame r' (renderLoop cam l r').2 /\
    _depthData (renderLoop cam l r').2 = applyTests tests (_depthData r').
Proof.
  revert r. induction l as [|e l IH]; intros r.
  - exists []. intros r' _. cbn. split; [reflexivity|]. split; [apply sameFrame_refl|reflexivity].
  - cbn [renderLoop].
    destruct (_createTrianglesForEntity r cam e _ _) as [ts|err] eqn:Hc.
    + destruct (TraceOp_renderTriangles ts r) as [T1 H1].
      destruct (IH (renderTriangles ts r)) as [T2 H2].
      exists (T1 ++ T2). intros r' Hf.
      rewrite (frameOnly_createTrianglesForEntity cam e _ _ r r' Hf), Hc.
      destruct (H1 r' Hf) as (Hf1 & _ & Hd1).
      destruct (H1 r (sameFrame_refl r)) as (Hf0 & _ & _).
      assert (Hfr : sameFrame (renderTriangles ts r) (renderTriangles ts r')).
      { eapply sameFrame_trans; [apply sameFrame_sym, Hf0|].
        eapply sameFrame_trans; [exact Hf|exact Hf1]. }
      destruct (H2 _ Hfr) as (Hc2 & Hf2 & Hd2).
      split; [exact Hc2|]. split; [eapply sameFrame_trans; eassumption|].
      rewrite Hd2, Hd1. unfold applyTests. by rewrite foldl_app.
    + exists []. intros r' Hf.
      rewrite (frameOnly_createTrianglesForEntity cam e _ _ r r' Hf), Hc. cbn.
      split; [reflexivity|]. split; [apply sameFrame_refl|reflexivity].
Qed.

Lemma reachable_lengths (r : SoftwareRenderer) :
  Reachable r -> length (_depthClear r) = length (_depthData r).
Proof.
  intros Hr. rewrite (reachable_clear_zero r Hr) at 1. apply length_replicate.
Qed.

(** X6: every [render] starts from the cleared buffer: its completion
    and the depth buffer it leaves depend on the occluder list alone,
    not on what was rendered before. *)
Theorem render_forgets_history (l l' : list Entity) (r : SoftwareRenderer) :
  Reachable r ->
  (render l (render l' r).2).1 = (render l r).1 /\
  _depthData (render l (render l' r).2).2 = _depthData (render l r).2.
Proof.
  intros Hr.
  assert (Hr2 : Reachable (render l' r).2) by by apply reach_render.
  pose proof (sameFrame_render l' r) as Hf.
  set (r2 := (render l' r).2) in *.
  unfold render.
  rewrite (clearDepthData_spec r (reachable_lengths r Hr)).
  rewrite (clearDepthData_spec r2 (reachable_lengths r2 Hr2)).
  assert (Hclear : _depthClear r2 = _depthClear r) by apply Hf.
  assert (Hfc : sameFrame (set_depthData (_depthClear r) r)
                          (set_depthData (_depthClear r2) r2)).
  { destruct Hf as (?&?&?&?&?&?&?). unfold sameFrame. cbn.
    repeat split; try assumption. by rewrite Hclear. }
  cbn [camera set_depthData].
  assert (Hcam : camera r2 = camera r) by apply Hf. rewrite Hcam.
  destruct (camera r) as [cam|]; cbn; [|by rewrite Hclear].
  destruct (renderLoop_trace cam l (set_depthData (_depthClear r) r)) as [T H].
  destruct (H _ (sameFrame_refl _)) as (_ & _ & Hd1).
  destruct (H _ Hfc) as (Hc2 & _ & Hd2).
  split; [exact Hc2|]. rewrite Hd1, Hd2. cbn. by rewrite Hclear.
Qed.

Lemma render_forgets_history_witness :
  (render [farOccluder] (render [nearOccluder] projectingRenderer).2).1
    = (render [farOccluder] projectingRenderer).1 /\
  _depthData (render [farOccluder] (render [nearOccluder] projectingRenderer).2).2
    = _depthData (render [farOccluder] projectingRenderer).2.
Proof.
  apply (render_forgets_history [farOccluder] [nearOccluder] projectingRenderer).
  apply (reach_new (mkParameters 8 8 (Some projectingCamera))). reflexivity.
Defined.

(** ** Invariants of the renderer object *)

Lemma Forall2_Qle_nonneg (a b : list Q) :
  Forall2 Qle a b -> Forall (fun d => 0 <= d) a -> Forall (fun d => 0 <= d) b.
Proof.
  induction 1 as [|x y a b Hxy _ IH]; [constructor|].
  intros [Hx Ha]%Forall_cons. constructor; [by apply (Qle_trans _ x)|by apply IH].
Qed.

Lemma reachable_size (r : SoftwareRenderer) :
  Reachable r -> length (_depthData r) = Z.to_nat (width r * height r).
Proof.
  induction 1 as [p r Hnew|l r _ IH|t r _ IH|t r _ IH].
  - rewrite SoftwareRenderer_new_eq in Hnew.
    destruct (_ <? 0)%Z; [discriminate|]. injection Hnew as <-. cbn.
    apply length_replicate.
  - destruct (sameFrame_render l r) as (-> & -> & _ & _ & _ & _ & ->). exact IH.
  - destruct (sameFrame_renderTriangle t r) as (-> & -> & _ & _ & _ & _ & ->). exact IH.
  - destruct (isRenderedTriangleOccluded_depthData t r)
      as [_ (-> & -> & _ & _ & _ & _ & ->)]. exact IH.
Qed.

Lemma reachable_nonneg (r : SoftwareRenderer) :
  Reachable r -> Forall (fun d => 0 <= d) (_depthData r).
Proof.
  induction 1 as [p r Hnew|l r Hr IH|t r Hr IH|t r Hr IH].
  - rewrite SoftwareRenderer_new_eq in Hnew.
    destruct (_ <? 0)%Z; [discriminate|]. injection Hnew as <-. cbn.
    apply Forall_replicate, Qle_refl.
  - unfold render. rewrite (clearDepthData_spec r (reachable_lengths r Hr)).
    cbn [camera set_depthData].
    assert (Hz : Forall (fun d => 0 <= d) (_depthClear r)).
    { rewrite (reachable_clear_zero r Hr). apply Forall_replicate, Qle_refl. }
    destruct (camera r) as [cam|]; cbn; [|exact Hz].
    destruct (renderLoop_trace cam l (set_depthData (_depthClear r) r)) as [T H].
    destruct (H _ (sameFrame_refl _)) as (_ & _ & Hd). rewrite Hd. cbn.
    eapply Forall2_Qle_nonneg; [apply applyTests_raises|exact Hz].
  - eapply Forall2_Qle_nonneg; [|exact IH].
    apply (proj1 (DepthOp_renderTriangle t) r).
  - destruct (isRenderedTriangleOccluded_depthData t r) as [Hd _].
    rewrite Hd. exact IH.
Qed.

(** X7: at every moment of a renderer's life the clip bounds are
    width - 1 and height - 1, the depth and the clear buffer have
    width * height cells, the clear buffer is all zero and no stored
    depth is negative. *)
Theorem renderer_invariants (r : SoftwareRenderer) :
  Reachable r ->
  wellSized r /\
  length (_depthData r) = Z.to_nat (width r * height r) /\
  _depthClear r = replicate (Z.to_nat (width r * height r)) 0 /\
  Forall (fun d => 0 <= d) (_depthData r).
Proof.
  intros Hr. split; [by apply reachable_wellSized|].
  split; [by apply reachable_size|].
  split; [rewrite <- (reachable_size r Hr); by apply reachable_clear_zero|].
  by apply reachable_nonneg.
Qed.

Lemma renderer_invariants_witness :
  wellSized sampleRenderer /\
  length (_depthData sampleRenderer)
    = Z.to_nat (width sampleRenderer * height sampleRenderer) /\
  _depthClear sampleRenderer
    = replicate (Z.to_nat (width sampleRenderer * height sampleRenderer)) 0 /\
  Forall (fun d => 0 <= d) (_depthData sampleRenderer).
Proof.
  apply (renderer_invariants sampleRenderer).
  apply (reach_new sampleParameters). reflexivity.
Defined.

(** ** The probe *)

(** X8: probing a triangle reads the depth buffer only: the buffer and
    the renderer's configuration are the same afterwards. *)
Theorem probe_leaves_depth (t : Triangle) (r : SoftwareRenderer) :
  _depthData (isRenderedTriangleOccluded t r).2 = _depthData r /\
  sameFrame r (isRenderedTriangleOccluded t r).2.
Proof. apply isRenderedTriangleOccluded_depthData. Qed.

Lemma depthLe_after_probe (r r' p p' : SoftwareRenderer) :
  depthLe r r' ->
  _depthData p = _depthData r /\ sameFrame r p ->
  _depthData p' = _depthData r' /\ sameFrame r' p' ->
  depthLe p p'.
Proof.
  intros [Hf Hd] [Hd1 Hf1] [Hd2 Hf2]. split; [|by rewrite Hd1, Hd2].
  eapply sameFrame_trans; [apply sameFrame_sym, Hf1|].
  eapply sameFrame_trans; [exact Hf|exact Hf2].
Qed.

Lemma depthLe_note_access (i : Z) (d : Q) (r r' : SoftwareRenderer) :
  depthLe r r' -> depthLe (note_access i d r) (note_access i d r').
Proof.
  intros H. apply (depthLe_after_probe r r'); [exact H|..];
    (split; [reflexivity|apply sameFrame_note_access]).
Qed.

Lemma probeLoop_grow (n : nat) (index : Z) (depth inc : Q) (r r' : SoftwareRenderer) :
  depthLe r r' ->
  (probeLoop n index depth inc r).1 = true ->
  (probeLoop n index depth inc r').1 = true.
Proof.
  revert index depth r r'. induction n as [|n IH]; intros index depth r r' Hle;
    cbn [probeLoop]; [done|].
  destruct (gtStored depth (typedArrayGet (_depthData (note_access index depth r)) index))
    eqn:Hg; [discriminate|].
  assert (Hg' : gtStored depth
            (typedArrayGet (_depthData (note_access index depth r')) index) = false).
  { apply (passes_grow (_depthData r) (_depthData r') (index, depth)); [apply Hle|exact Hg]. }
  rewrite Hg'. apply IH. by apply depthLe_note_access.
Qed.

Lemma isScanlineOccluded_grow (leftX rightX y : Z) (leftZ rightZ : Q)
    (r r' : SoftwareRenderer) :
  depthLe r r' ->
  (_isScanlineOccluded leftX rightX y leftZ rightZ r).1 = true ->
  (_isScanlineOccluded leftX rightX y leftZ rightZ r').1 = true.
Proof.
  intros Hle. unfold _isScanlineOccluded.
  assert (Hcx : _clipX r' = _clipX r) by apply Hle.
  assert (Hw : width r' = width r) by apply Hle.
  rewrite Hcx. destruct (emptySpan _ _ _); [done|].
  assert (Hwle : depthLe (warnDepths "leftZ : " leftZ rightZ r)
                         (warnDepths "leftZ : " leftZ rightZ r'))
    by by apply DepthOp_warnDepths.
  assert (Hcx1 : forall s, _clipX (warnDepths "leftZ : " leftZ rightZ s) = _clipX s)
    by (intros s; apply sameFrame_warnDepths).
  assert (Hw1 : forall s, width (warnDepths "leftZ : " leftZ rightZ s) = width s)
    by (intros s; apply sameFrame_warnDepths).
  rewrite !Hcx1, !Hw1, Hcx, Hw.
  destruct (clipSpan _ _ _ _ _) as [[[lx rx] lz] rz].
  by apply probeLoop_grow.
Qed.

Lemma probeScanline_grow (o : bool * bool) (d : EdgeData) (y : Z) (r r' : SoftwareRenderer) :
  depthLe r r' ->
  (probeScanline o d y r).1 = true -> (probeScanline o d y r').1 = true.
Proof.
  intros Hle. unfold probeScanline.
  repeat match goal with
         | |- context [let '(_, _) := ?x in _] => destruct x
         | |- context [if ?b then _ else _] => destruct b
         end; by apply isScanlineOccluded_grow.
Qed.

Lemma probeLines_grow (n : nat) (o : bool * bool) (d : EdgeData) (y : Z)
    (r r' : SoftwareRenderer) :
  depthLe r r' ->
  (probeLines n o d y r).1 = true -> (probeLines n o d y r').1 = true.
Proof.
  revert d y r r'. induction n as [|n IH]; intros d y r r' Hle; cbn [probeLines]; [done|].
  pose proof (probeScanline_grow o d y r r' Hle) as Hs.
  pose proof (depthLe_after_probe r r' _ _ Hle
                (probeScanline_depthData o d y r) (probeScanline_depthData o d y r')) as Hle1.
  destruct (probeScanline o d y r) as [[] r1]; cbn [negb fst snd] in *; [|discriminate].
  rewrite (surjective_pairing (probeScanline o d y r')), (Hs eq_refl). cbn [negb].
  by apply IH.
Qed.

Lemma isEdgeOccluded_grow (d : EdgeData) (o : bool * bool) (r r' : SoftwareRenderer) :
  depthLe r r' ->
  (_isEdgeOccluded d o r).1 = true -> (_isEdgeOccluded d o r').1 = true.
Proof. apply probeLines_grow. Qed.

Lemma probeSecondPortion_grow (es : list Edge) (le : Edge) (s2 : nat)
    (o : option (bool * bool)) (r r' : SoftwareRenderer) :
  depthLe r r' ->
  (probeSecondPortion es le s2 o r).1 = true ->
  (probeSecondPortion es le s2 o r').1 = true.
Proof.
  intros Hle. unfold probeSecondPortion.
  rewrite (edgePreRenderProcess_sameFrame r r') by apply Hle.
  destruct (_edgePreRenderProcess _ _ _) as [d|]; [|done].
  destruct o; [by apply isEdgeOccluded_grow|].
  rewrite (frameOnly_horizontalLongEdgeCull le _ r r') by apply Hle.
  destruct (_horizontalLongEdgeCull _ _ _); [done|by apply isEdgeOccluded_grow].
Qed.

Lemma isRenderedTriangleOccluded_grow (t : Triangle) (r r' : SoftwareRenderer) :
  depthLe r r' ->
  (isRenderedTriangleOccluded t r).1 = true ->
  (isRenderedTriangleOccluded t r').1 = true.
Proof.
  intros Hle. unfold isRenderedTriangleOccluded.
  destruct (_createEdgesForTriangle t) as [es [[li s1] s2]].
  rewrite (frameOnly_verticalLongEdgeCull (es !!! li) r r') by apply Hle.
  destruct (_verticalLongEdgeCull _ _); [done|].
  rewrite (edgePreRenderProcess_sameFrame r r') by apply Hle.
  destruct (_edgePreRenderProcess _ _ _) as [d|]; [|by apply probeSecondPortion_grow].
  rewrite (frameOnly_horizontalLongEdgeCull _ _ r r') by apply Hle.
  destruct (_horizontalLongEdgeCull _ _ _); [done|].
  match goal with |- context [_isEdgeOccluded ?d ?o r] =>
    pose proof (isEdgeOccluded_grow d o r r' Hle) as Hs;
    pose proof (depthLe_after_probe r r' _ _ Hle
                  (isEdgeOccluded_depthData d o r) (isEdgeOccluded_depthData d o r')) as Hle1;
    destruct (_isEdgeOccluded d o r) as [[] r1];
    rewrite (surjective_pairing (_isEdgeOccluded d o r')) end;
    cbn [negb fst snd] in *; [|discriminate].
  rewrite (Hs eq_refl). cbn [negb]. by apply probeSecondPortion_grow.
Qed.

(** X9: a triangle that probes as occluded still does so against any
    buffer of the same size that holds greater or equal depths. *)
Theorem probe_occluded_grows (t : Triangle) (r r' : SoftwareRenderer) :
  depthLe r r' ->
  (isRenderedTriangleOccluded t r).1 = true ->
  (isRenderedTriangleOccluded t r').1 = true.
Proof. apply isRenderedTriangleOccluded_grow. Qed.

Lemma probe_occluded_grows_witness :
  (isRenderedTriangleOccluded sampleTriangle
     (_renderTriangle sampleTriangle
        (_renderTriangle sampleTriangle sampleRenderer))).1 = true.
Proof.
  apply (probe_occluded_grows sampleTriangle
           (_renderTriangle sampleTriangle sampleRenderer)).
  - apply (proj1 (DepthOp_renderTriangle sampleTriangle)).
  - vm_compute. reflexivity.
Defined.

(** X10: occluders only hide more: when A is a sublist of B and
    [render(B)] completes, a triangle that probes as occluded after
    [render(A)] probes as occluded after [render(B)]. *)
Theorem more_occluders_hide_more (A B : list Entity) (t : Triangle) (r : SoftwareRenderer) :
  A `sublist_of` B ->
  (render B r).1 = Normal tt ->
  (isRenderedTriangleOccluded t (render A r).2).1 = true ->
  (isRenderedTriangleOccluded t (render B r).2).1 = true.
Proof.
  intros Hsub HB. apply isRenderedTriangleOccluded_grow. revert HB. unfold render.
  destruct (_clearDepthData r) as [r0|err]; [|discriminate].
  destruct (camera r0) as [cam|]; [|discriminate].
  intros HB. by apply (renderLoop_sublist cam A B Hsub r0 r0 (depthLe_refl r0)).
Qed.

Lemma more_occluders_hide_more_witness :
  (isRenderedTriangleOccluded hiddenTriangle
     (render [nearOccluder; farOccluder] projectingRenderer).2).1 = true.
Proof.
  apply (more_occluders_hide_more [farOccluder] [nearOccluder; farOccluder]
           hiddenTriangle projectingRenderer).
  - apply sublist_cons, sublist_skip, sublist_nil.
  - vm_compute. reflexivity.
  - vm_compute. reflexivity.
Defined.

(** ** Back-face tests *)

Lemma Qgtb_iff (a b : Q) : Qgtb a b = true <-> b < a.
Proof. unfold Qgtb. apply Qltb_lt. Qed.

Lemma Qltb_proper (a b c d : Q) : a == c -> b == d -> Qltb a b = Qltb c d.
Proof.
  intros H1 H2. destruct (Qltb a b) eqn:Hab, (Qltb c d) eqn:Hcd; try reflexivity;
    rewrite ?Qltb_lt, ?Qltb_ge in *; rewrite H1, H2 in Hab; exfalso; lra.
Qed.

Lemma backface_triple (v1 v2 v3 : Vector4) :
  _isBackFacingCameraViewSpace v1 v2 v3 = Qgtb (triple3 (xyz v1) (xyz v2) (xyz v3)) 0.
Proof.
  destruct v1 as [x1 y1 z1 w1], v2 as [x2 y2 z2 w2], v3 as [x3 y3 z3 w3].
  unfold _isBackFacingCameraViewSpace, Qgtb, triple3;
    cbn [vx vy vz vw xyz sub3 cross3 dot3].
  apply Qltb_proper; [reflexivity|ring].
Qed.

(** X11: in exact arithmetic, with no product or sum rounded, the
    camera-space back-face test looks at the sign of the triple product
    v1 . (v2 x v3): it gives the same answer whichever vertex of the
    triangle comes first, and a triangle and its reversal are never both
    back-facing; both are kept exactly when the plane of the triangle
    passes through the eye. *)
Theorem backface_winding (v1 v2 v3 : Vector4) :
  _isBackFacingCameraViewSpace v2 v3 v1 = _isBackFacingCameraViewSpace v1 v2 v3 /\
  (_isBackFacingCameraViewSpace v1 v2 v3 = true ->
   _isBackFacingCameraViewSpace v1 v3 v2 = false) /\
  (_isBackFacingCameraViewSpace v1 v2 v3 = false /\
   _isBackFacingCameraViewSpace v1 v3 v2 = false <->
   triple3 (xyz v1) (xyz v2) (xyz v3) == 0).
Proof.
  rewrite !backface_triple.
  assert (Hc : triple3 (xyz v2) (xyz v3) (xyz v1) == triple3 (xyz v1) (xyz v2) (xyz v3)).
  { destruct v1, v2, v3. unfold triple3; cbn. ring. }
  assert (Hr : triple3 (xyz v1) (xyz v3) (xyz v2) == - triple3 (xyz v1) (xyz v2) (xyz v3)).
  { destruct v1, v2, v3. unfold triple3; cbn. ring. }
  split; [|split].
  - unfold Qgtb. apply Qltb_proper; [reflexivity|exact Hc].
  - unfold Qgtb. rewrite Qltb_lt, Qltb_ge. rewrite Hr. lra.
  - unfold Qgtb. rewrite !Qltb_ge, Hr. split; [intros [H1 H2]|intros H]; lra.
Qed.

(** X12: in exact arithmetic, with no product or difference rounded,
    the test on projected vertices answers [true] exactly for triangles
    that are clockwise on the screen; it does not depend on which vertex
    comes first, and reversing a triangle that is not degenerate
    reverses the answer. *)
Theorem backface_projected_winding (v1 v2 v3 : Vector4) :
  (_isBackFacingProjected v1 v2 v3 = true <-> signedArea2 v1 v2 v3 < 0) /\
  _isBackFacingProjected v2 v3 v1 = _isBackFacingProjected v1 v2 v3 /\
  (~ signedArea2 v1 v2 v3 == 0 ->
   _isBackFacingProjected v1 v3 v2 = negb (_isBackFacingProjected v1 v2 v3)).
Proof.
  assert (Ha : forall a b c, _isBackFacingProjected a b c = Qltb (signedArea2 a b c) 0).
  { intros a b c. unfold _isBackFacingProjected, signedArea2.
    apply Qltb_proper; [ring|reflexivity]. }
  rewrite !Ha.
  assert (Hc : signedArea2 v2 v3 v1 == signedArea2 v1 v2 v3)
    by (unfold signedArea2; ring).
  assert (Hr : signedArea2 v1 v3 v2 == - signedArea2 v1 v2 v3)
    by (unfold signedArea2; ring).
  split; [apply Qltb_lt|]. split.
  - apply Qltb_proper; [exact Hc|reflexivity].
  - intros Hn.
    destruct (Qltb (signedArea2 v1 v2 v3) 0) eqn:H1, (Qltb (signedArea2 v1 v3 v2) 0) eqn:H2;
      try reflexivity; rewrite ?Qltb_lt, ?Qltb_ge in *; rewrite Hr in H2; exfalso;
      [lra|apply Hn; lra].
Qed.

Lemma backface_projected_winding_witness :
  (_isBackFacingProjected ccw_v1 ccw_v2 ccw_v3 = true
   <-> signedArea2 ccw_v1 ccw_v2 ccw_v3 < 0) /\
  _isBackFacingProjected ccw_v2 ccw_v3 ccw_v1 = _isBackFacingProjected ccw_v1 ccw_v2 ccw_v3 /\
  _isBackFacingProjected ccw_v1 ccw_v3 ccw_v2
    = negb (_isBackFacingProjected ccw_v1 ccw_v2 ccw_v3).
Proof.
  destruct (backface_projected_winding ccw_v1 ccw_v2 ccw_v3) as (H1 & H2 & H3).
  split; [exact H1|]. split; [exact H2|]. apply H3. vm_compute. discriminate.
Defined.

(** ** Near-plane clipping: coverage of the cases *)

(** X13: [_categorizeVertices] puts each of the indices 0, 1, 2 in
    exactly one list: the inside list holds, in increasing order, the
    vertices with z <= cameraNear, the outside list the others. *)
Theorem categorize_partitions (a b c : Vector4) (cameraNear : Q) :
  let vertices := [a; b; c] in
  let '(outsideIndices, insideIndices) := _categorizeVertices [] [] vertices cameraNear in
  insideIndices
    = List.filter (fun i => Qleb (vz (vertices !!! i)) cameraNear) [0; 1; 2]%nat /\
  outsideIndices
    = List.filter (fun i => negb (Qleb (vz (vertices !!! i)) cameraNear)) [0; 1; 2]%nat /\
  outsideIndices ++ insideIndices ≡ₚ [0; 1; 2]%nat.
Proof.
  unfold _categorizeVertices. simpl.
  destruct (Qleb (vz a) cameraNear), (Qleb (vz b) cameraNear), (Qleb (vz c) cameraNear);
    simpl; (split; [reflexivity|split; [reflexivity|]]);
    apply (bool_decide_unpack _); vm_compute; exact I.
Qed.

(** X14: a triangle is dropped before projection exactly when it is
    back-facing or has all three vertices in front of the near plane. *)
Theorem clipStage_drops (near : Q) (a b c : Vector4) :
  clipStage near a b c = None <->
  _isBackFacingCameraViewSpace a b c = true \/
  (- near < vz a /\ - near < vz b /\ - near < vz c).
Proof.
  unfold clipStage. destruct (_isBackFacingCameraViewSpace a b c);
    [split; [by left|reflexivity]|].
  unfold _categorizeVertices. simpl.
  destruct (Qleb (vz a) (- near)) eqn:Ha, (Qleb (vz b) (- near)) eqn:Hb,
           (Qleb (vz c) (- near)) eqn:Hc; simpl;
    rewrite ?Qleb_le, ?Qleb_gt in *;
    (split; [try discriminate|try reflexivity]);
    try (intros [Hf|(H1 & H2 & H3)]; [discriminate|exfalso; lra]).
  intros _. right. by repeat split.
Qed.

(** X15: a front-facing triangle that lies behind the near plane with
    all three vertices passes the clipper unchanged, as one triangle. *)
Theorem clip_inside_unchanged (near : Q) (a b c : Vector4) :
  _isBackFacingCameraViewSpace a b c = false ->
  vz a <= - near -> vz b <= - near -> vz c <= - near ->
  clipStage near a b c = Some ([a; b; c], [], [0; 1; 2]%nat) /\
  _createTriangles [a; b; c] [] [0; 1; 2]%nat [] = [mkTriangle a b c].
Proof.
  intros Hf Ha Hb Hc. split; [|reflexivity].
  unfold clipStage. rewrite Hf. unfold _categorizeVertices. simpl.
  apply Qleb_le in Ha, Hb, Hc. by rewrite Ha, Hb, Hc.
Qed.

Lemma clip_inside_unchanged_witness :
  clipStage (1 # 2) ccw_v1 ccw_v2 ccw_v3
    = Some ([ccw_v1; ccw_v2; ccw_v3], [], [0; 1; 2]%nat) /\
  _createTriangles [ccw_v1; ccw_v2; ccw_v3] [] [0; 1; 2]%nat []
    = [mkTriangle ccw_v1 ccw_v2 ccw_v3].
Proof.
  apply (clip_inside_unchanged (1 # 2) ccw_v1 ccw_v2 ccw_v3);
    [reflexivity|vm_compute; discriminate..].
Defined.

(** X16: a triangle that passes the back-face test and the clipper is
    added behind the triangles collected before, which are kept as they
    are: as two triangles when exactly one vertex is in front of the
    near plane and as one triangle otherwise. *)
Theorem clip_triangle_count (near : Q) (a b c : Vector4) (triangles : list Triangle) :
  match clipStage near a b c with
  | Some (clipped, outsideIndices, insideIndices) =>
      exists emitted,
        _createTriangles clipped outsideIndices insideIndices triangles
        = triangles ++ emitted /\
        length emitted = if (length outsideIndices =? 1)%nat then 2%nat else 1%nat
  | None => True
  end.
Proof.
  unfold clipStage. destruct (_isBackFacingCameraViewSpace a b c); [exact I|].
  unfold _categorizeVertices. simpl.
  destruct (Qleb (vz a) (- near)), (Qleb (vz b) (- near)), (Qleb (vz c) (- near));
    simpl; try exact I; unfold _createTriangles; simpl;
    eexists; (split; [reflexivity|reflexivity]).
Qed.

(** X17: when the origin is in front of the near plane and the target
    on or behind it, the intersection ratio lies in (0, 1]: the new
    vertex is a point of the edge from origin to target. *)
Theorem intersection_ratio_bounds (origin target : Vector4) (near : Q) :
  - near < vz origin -> vz target <= - near ->
  0 < _calculateIntersectionRatio origin target near /\
  _calculateIntersectionRatio origin target near <= 1.
Proof.
  intros Ho Ht. unfold _calculateIntersectionRatio.
  assert (Hd : 0 < vz origin - vz target) by lra.
  split.
  - apply Qlt_shift_div_l; [exact Hd|lra].
  - apply Qle_shift_div_r; [exact Hd|lra].
Qed.

Lemma intersection_ratio_bounds_witness :
  0 < _calculateIntersectionRatio split_v1 split_v2 1 /\
  _calculateIntersectionRatio split_v1 split_v2 1 <= 1.
Proof.
  apply (intersection_ratio_bounds split_v1 split_v2 1); vm_compute; [reflexivity|discriminate].
Defined.

(** ** Screen mapping and edges *)

(** X18: the screen mapping sends the normalised range [-1, 1] onto
    [0, _clipX] and [0, _clipY]: -1 goes to pixel 0, 1 to the last pixel,
    and what lies between stays on screen; z and w are kept. *)
Theorem screen_mapping_range (r : SoftwareRenderer) (v : Vector4) :
  (0 <= _clipX r)%Z -> (0 <= _clipY r)%Z ->
  match _transformToScreenSpace r [v] with
  | [p] =>
      vz p = vz v /\ vw p = vw v /\
      (vx v == -1 -> vx p == 0) /\ (vx v == 1 -> vx p == inject_Z (_clipX r)) /\
      (vy v == -1 -> vy p == 0) /\ (vy v == 1 -> vy p == inject_Z (_clipY r)) /\
      (-1 <= vx v <= 1 -> 0 <= vx p <= inject_Z (_clipX r)) /\
      (-1 <= vy v <= 1 -> 0 <= vy p <= inject_Z (_clipY r))
  | _ => False
  end.
Proof.
  intros Hx Hy. cbn.
  assert (Hcx : 0 <= inject_Z (_clipX r)) by (change 0 with (inject_Z 0); by rewrite <- Zle_Qle).
  assert (Hcy : 0 <= inject_Z (_clipY r)) by (change 0 with (inject_Z 0); by rewrite <- Zle_Qle).
  set (cx := inject_Z (_clipX r)) in *. set (cy := inject_Z (_clipY r)) in *.
  split; [reflexivity|]. split; [reflexivity|].
  split; [intros ->; field|]. split; [intros ->; field|].
  split; [intros ->; field|]. split; [intros ->; field|].
  assert (Hhalf : forall c x, 0 <= c -> -1 <= x <= 1 ->
            0 <= (x + 1) * (c / 2) <= c).
  { intros c x Hc [Hl Hu].
    assert (Hh : 0 <= c / 2) by (apply Qle_shift_div_l; lra).
    assert (Hc2 : c == 2 * (c / 2)) by field.
    split; [apply Qmult_le_0_compat; lra|].
    rewrite Hc2 at 2. apply Qmult_le_compat_r; [lra|exact Hh]. }
  split; intros H; by apply Hhalf.
Qed.

Lemma screen_mapping_range_witness :
  match _transformToScreenSpace sampleRenderer [mkVector4 1 (-1) (-2) 2] with
  | [p] =>
      vz p = -2 /\ vw p = 2 /\
      (1 == -1 -> vx p == 0) /\ (1 == 1 -> vx p == inject_Z (_clipX sampleRenderer)) /\
      (-1 == -1 -> vy p == 0) /\ (-1 == 1 -> vy p == inject_Z (_clipY sampleRenderer)) /\
      (-1 <= 1 <= 1 -> 0 <= vx p <= inject_Z (_clipX sampleRenderer)) /\
      (-1 <= -1 <= 1 -> 0 <= vy p <= inject_Z (_clipY sampleRenderer))
  | _ => False
  end.
Proof.
  apply (screen_mapping_range sampleRenderer (mkVector4 1 (-1) (-2) 2)); cbn; lia.
Defined.

Lemma Edge_new_ordered (a b : Vector4) : y0 (Edge_new a b) <= y1 (Edge_new a b).
Proof.
  unfold Edge_new. destruct (Qleb (vy a) (vy b)) eqn:H; cbn.
  - by apply Qleb_le.
  - apply Qleb_gt in H. by apply Qlt_le_weak.
Qed.

(** X19: the edge [_createEdgesForTriangle] names as the long one is at
    least as high as each of the three edges, and the three indices it
    returns are the three edges, each once. *)
Theorem long_edge_is_highest (t : Triangle) :
  let '(edges, (longEdge, shortEdge1, shortEdge2)) := _createEdgesForTriangle t in
  Forall (fun e => edgeHeight e <= edgeHeight (edges !!! longEdge)) edges /\
  [longEdge; shortEdge1; shortEdge2] ≡ₚ [0; 1; 2]%nat.
Proof.
  unfold _createEdgesForTriangle.
  pose proof (Edge_new_ordered (v1 t) (v2 t)) as H0.
  pose proof (Edge_new_ordered (v2 t) (v3 t)) as H1.
  pose proof (Edge_new_ordered (v3 t) (v1 t)) as H2.
  set (e0 := Edge_new (v1 t) (v2 t)) in *.
  set (e1 := Edge_new (v2 t) (v3 t)) in *.
  set (e2 := Edge_new (v3 t) (v1 t)) in *.
  simpl. unfold Qgtb.
  destruct (Qltb 0 (y1 e0 - y0 e0)) eqn:Ha; simpl.
  - destruct (Qltb (y1 e0 - y0 e0) (y1 e1 - y0 e1)) eqn:Hb; simpl.
    + destruct (Qltb (y1 e1 - y0 e1) (y1 e2 - y0 e2)) eqn:Hc; simpl;
        rewrite ?Qltb_lt, ?Qltb_ge in *;
        (split; [repeat constructor; unfold edgeHeight; simpl; lra
                |apply (bool_decide_unpack _); vm_compute; exact I]).
    + destruct (Qltb (y1 e0 - y0 e0) (y1 e2 - y0 e2)) eqn:Hc; simpl;
        rewrite ?Qltb_lt, ?Qltb_ge in *;
        (split; [repeat constructor; unfold edgeHeight; simpl; lra
                |apply (bool_decide_unpack _); vm_compute; exact I]).
  - destruct (Qltb 0 (y1 e1 - y0 e1)) eqn:Hb; simpl.
    + destruct (Qltb (y1 e1 - y0 e1) (y1 e2 - y0 e2)) eqn:Hc; simpl;
        rewrite ?Qltb_lt, ?Qltb_ge in *;
        (split; [repeat constructor; unfold edgeHeight; simpl; lra
                |apply (bool_decide_unpack _); vm_compute; exact I]).
    + destruct (Qltb 0 (y1 e2 - y0 e2)) eqn:Hc; simpl;
        rewrite ?Qltb_lt, ?Qltb_ge in *;
        (split; [repeat constructor; unfold edgeHeight; simpl; lra
                |apply (bool_decide_unpack _); vm_compute; exact I]).
Qed.

Lemma afterLines_values (k : nat) (d : EdgeData) :
  getStartLine (afterLines k d) = getStartLine d /\
  getStopLine (afterLines k d) = getStopLine d /\
  getLongX (afterLines k d) == getLongX d + inject_Z (Z.of_nat k) * getLongXIncrement d /\
  getShortX (afterLines k d) == getShortX d + inject_Z (Z.of_nat k) * getShortXIncrement d /\
  getLongZ (afterLines k d) == getLongZ d + inject_Z (Z.of_nat k) * getLongZIncrement d /\
  getShortZ (afterLines k d) == getShortZ d + inject_Z (Z.of_nat k) * getShortZIncrement d /\
  getLongXIncrement (afterLines k d) = getLongXIncrement d /\
  getShortXIncrement (afterLines k d) = getShortXIncrement d /\
  getLongZIncrement (afterLines k d) = getLongZIncrement d /\
  getShortZIncrement (afterLines k d) = getShortZIncrement d.
Proof.
  induction k as [|k (Hs & Ht & Hlx & Hsx & Hlz & Hsz & Ha & Hb & Hc & He)].
  - cbn. repeat split; try reflexivity; ring.
  - unfold afterLines in *. rewrite Nat.iter_succ.
    set (d' := Nat.iter k _updateEdgeDataToNextLine d) in *.
    unfold _updateEdgeDataToNextLine, updateXValues.
    cbn [getStartLine getStopLine getLongX getShortX getLongZ getShortZ
         getLongXIncrement getShortXIncrement getLongZIncrement getShortZIncrement].
    rewrite Nat2Z.inj_succ, <- Z.add_1_r, inject_Z_plus.
    repeat split; try assumption;
      rewrite ?Ha, ?Hb, ?Hc, ?He, ?Hlx, ?Hsx, ?Hlz, ?Hsz;
      change (inject_Z 1) with 1; ring.
Qed.

(** X20: in exact arithmetic, with no quotient or sum rounded, vertical
    coherence is exact.  For a long edge with height and a short edge
    that starts on an integer line, the interpolants of an [EdgeData],
    after any number of steps to the next line, are the x coordinates
    and the depths of the long and the short edge on the line reached,
    as linear interpolation between the endpoints gives them. *)
Theorem vertical_coherence_exact (r : SoftwareRenderer) (longEdge shortEdge : Edge)
    (edgeData : EdgeData) (a : Z) (k : nat) :
  y0 longEdge < y1 longEdge ->
  y0 shortEdge = inject_Z a ->
  _edgePreRenderProcess r longEdge shortEdge = Some edgeData ->
  let y := inject_Z (getStartLine edgeData + Z.of_nat k) in
  getLongX (afterLines k edgeData) == edgeXAt longEdge y /\
  getShortX (afterLines k edgeData) == edgeXAt shortEdge y /\
  getLongZ (afterLines k edgeData) == edgeZAt longEdge y /\
  getShortZ (afterLines k edgeData) == edgeZAt shortEdge y.
Proof.
  intros Hlong Ha Hpre y.
  destruct (afterLines_values k edgeData) as (_ & _ & Hlx & Hsx & Hlz & Hsz & _).
  rewrite Hlx, Hsx, Hlz, Hsz. subst y. clear Hlx Hsx Hlz Hsz.
  revert Hpre. unfold _edgePreRenderProcess. rewrite Ha.
  destruct (Qleb _ _) eqn:Hshort; [discriminate|].
  apply Qleb_gt in Hshort.
  assert (Hl : ~ y1 longEdge - y0 longEdge == 0) by lra.
  assert (Hs : ~ y1 shortEdge - inject_Z a == 0) by lra.
  destruct (Qltb (inject_Z a) 0);
    destruct (Qgtb (y1 shortEdge) (inject_Z (_clipY r)));
    intros [= <-];
    cbn [getStartLine getStopLine getLongX getShortX getLongZ getShortZ
         getLongXIncrement getShortXIncrement getLongZIncrement getShortZIncrement
         EdgeData_new];
    rewrite ?Qfloor_Z; change (Qfloor 0) with 0%Z;
    rewrite inject_Z_plus; unfold edgeXAt, edgeZAt; rewrite ?Ha;
    change (inject_Z 0) with 0; repeat split; field; assumption.
Qed.

Lemma vertical_coherence_exact_witness :
  let e := mkEdge 1 1 (1 # 2) 5 5 (1 # 4) in
  let s := mkEdge 1 1 (1 # 2) 3 3 (1 # 2) in
  let d := EdgeData_new 1 3
             (1 + (5 - 1) * ((1 - 1) / (5 - 1))) 1
             ((1 # 2) + ((1 # 4) - (1 # 2)) * ((1 - 1) / (5 - 1))) (1 # 2)
             ((5 - 1) / (5 - 1)) ((3 - 1) / (3 - 1))
             (((1 # 4) - (1 # 2)) / (5 - 1)) (((1 # 2) - (1 # 2)) / (3 - 1)) in
  let y := inject_Z (getStartLine d + Z.of_nat 2) in
  getLongX (afterLines 2 d) == edgeXAt e y /\
  getShortX (afterLines 2 d) == edgeXAt s y /\
  getLongZ (afterLines 2 d) == edgeZAt e y /\
  getShortZ (afterLines 2 d) == edgeZAt s y.
Proof.
  intros e s d.
  apply (vertical_coherence_exact sampleRenderer e s d 1 2); reflexivity.
Defined.

(** ** Triangles off the screen *)

Lemma createEdges_long_cases (t : Triangle) :
  exists li s1 s2,
    _createEdgesForTriangle t
    = ([Edge_new (v1 t) (v2 t); Edge_new (v2 t) (v3 t); Edge_new (v3 t) (v1 t)],
       (li, s1, s2)) /\
    (li < 3)%nat.
Proof.
  unfold _createEdgesForTriangle. simpl.
  repeat match goal with
         | |- context [if ?b then _ else _] => destruct b; simpl
         end; eexists _, _, _; (split; [reflexivity|lia]).
Qed.

Lemma Edge_new_lines (a b : Vector4) :
  (y1 (Edge_new a b) == vy a \/ y1 (Edge_new a b) == vy b) /\
  (y0 (Edge_new a b) == vy a \/ y0 (Edge_new a b) == vy b).
Proof.
  unfold Edge_new. destruct (Qleb (vy a) (vy b)); cbn; split;
    (by left) || (by right).
Qed.

(** X21: a triangle whose three vertices all lie above the first line
    of the screen, or all below the last, is culled at once: rendering
    it changes nothing and probing it answers "occluded" without a
    single depth test. *)
Theorem offscreen_triangle_culled (t : Triangle) (r : SoftwareRenderer) :
  (vy (v1 t) < 0 /\ vy (v2 t) < 0 /\ vy (v3 t) < 0) \/
  (inject_Z (_clipY r) < vy (v1 t) /\ inject_Z (_clipY r) < vy (v2 t) /\
   inject_Z (_clipY r) < vy (v3 t)) ->
  _renderTriangle t r = r /\ isRenderedTriangleOccluded t r = (true, r).
Proof.
  intros H.
  destruct (createEdges_long_cases t) as (li & s1 & s2 & He & Hli).
  unfold _renderTriangle, isRenderedTriangleOccluded. rewrite He.
  assert (Hcull : _verticalLongEdgeCull r
            ([Edge_new (v1 t) (v2 t); Edge_new (v2 t) (v3 t); Edge_new (v3 t) (v1 t)]
               !!! li) = true).
  { unfold _verticalLongEdgeCull. apply orb_true_iff. unfold Qgtb.
    rewrite !Qltb_lt.
    pose proof (Edge_new_lines (v1 t) (v2 t)) as [A1 A0].
    pose proof (Edge_new_lines (v2 t) (v3 t)) as [B1 B0].
    pose proof (Edge_new_lines (v3 t) (v1 t)) as [C1 C0].
    destruct li as [|[|[|?]]]; [| | |lia]; simpl;
      (destruct H as [(H1 & H2 & H3)|(H1 & H2 & H3)]; [left|right]);
      match goal with
      | |- y1 ?e < 0 =>
          match goal with
          | D : y1 e == _ \/ y1 e == _ |- _ => destruct D as [D|D]; rewrite D; assumption
          end
      | |- _ < y0 ?e =>
          match goal with
          | D : y0 e == _ \/ y0 e == _ |- _ => destruct D as [D|D]; rewrite D; assumption
          end
      end. }
  by rewrite Hcull.
Qed.

Lemma offscreen_triangle_culled_witness :
  let t := mkTriangle (mkVector4 1 (-3) (-2) 2) (mkVector4 5 (-1) (-2) 2)
                      (mkVector4 1 (-2) (-2) 2) in
  _renderTriangle t sampleRenderer = sampleRenderer /\
  isRenderedTriangleOccluded t sampleRenderer = (true, sampleRenderer).
Proof.
  intros t. apply (offscreen_triangle_culled t sampleRenderer).
  left. repeat split; reflexivity.
Defined.

(** ** The span a scanline fills *)

Lemma fillLoop_trace (n : nat) (index : Z) (depth inc : Q) (r : SoftwareRenderer) :
  accessed (fillLoop n index depth inc r) = accessed r ++ spanTests n index depth inc /\
  _depthData (fillLoop n index depth inc r)
  = applyTests (spanTests n index depth inc) (_depthData r).
Proof.
  revert index depth r. induction n as [|n IH]; intros index depth r.
  - cbn. by rewrite app_nil_r.
  - change (fillLoop (S n) index depth inc r)
      with (fillLoop n (index + 1)%Z (depth + inc) inc (fillStep index depth r)).
    destruct (IH (index + 1)%Z (depth + inc) (fillStep index depth r)) as [Ha Hd].
    rewrite Ha, Hd. cbn [spanTests].
    change (applyTests ((index, depth) :: ?T) ?b) with (applyTests T (applyTest b (index, depth))).
    assert (Hacc : accessed (fillStep index depth r) = accessed r ++ [(index, depth)]).
    { unfold fillStep. cbn. by destruct (gtStored _ _). }
    assert (Hdep : _depthData (fillStep index depth r)
                   = applyTest (_depthData r) (index, depth)).
    { unfold fillStep, applyTest. cbn. by destruct (gtStored _ _). }
    rewrite Hacc, Hdep, <- app_assoc. done.
Qed.

Lemma spanTests_lookup (n : nat) (index : Z) (depth inc : Q) (k : nat) (t : Z * Q) :
  spanTests n index depth inc !! k = Some t ->
  (k < n)%nat /\ t.1 = (index + Z.of_nat k)%Z /\
  t.2 == depth + inject_Z (Z.of_nat k) * inc.
Proof.
  revert index depth k. induction n as [|n IH]; intros index depth k; [done|].
  destruct k as [|k]; cbn [spanTests].
  - intros [= <-]. cbn. split; [lia|]. split; [lia|]. change (inject_Z 0) with 0. ring.
  - intros Hk. apply IH in Hk as (Hlt & Hi & Hd).
    split; [lia|]. split; [lia|]. rewrite Hd, Nat2Z.inj_succ, <- Z.add_1_r, inject_Z_plus.
    change (inject_Z 1) with 1. ring.
Qed.

Lemma spanTests_length (n : nat) (index : Z) (depth inc : Q) :
  length (spanTests n index depth inc) = n.
Proof.
  revert index depth. induction n as [|n IH]; intros index depth; [done|].
  cbn. by rewrite IH.
Qed.

Lemma applyTests_length (tests : list (Z * Q)) (b : list Q) :
  length (applyTests tests b) = length b.
Proof.
  revert b. induction tests as [|t T IH]; intros b; [done|].
  change (applyTests (t :: T) b) with (applyTests T (applyTest b t)).
  by rewrite IH, applyTest_length.
Qed.

Lemma typedArrayGet_length (a b : list Q) (i : Z) :
  length a = length b -> typedArrayGet a i = None -> typedArrayGet b i = None.
Proof.
  unfold typedArrayGet. destruct (i <? 0)%Z; [done|].
  rewrite !lookup_ge_None. lia.
Qed.

(** A cell after a list of tests holds its old value or a tested depth. *)
Lemma applyTests_origin (tests : list (Z * Q)) (b : list Q) (i : Z) (d : Q) :
  typedArrayGet (applyTests tests b) i = Some d ->
  typedArrayGet b i = Some d \/ (i, d) ∈ tests.
Proof.
  intros Hget. destruct (typedArrayGet b i) as [old|] eqn:Hold.
  - destruct (applyTests_cell tests b i old Hold) as (v & Hv & [->|Hin] & _).
    + left. by rewrite <- Hv, Hget.
    + right. rewrite Hget in Hv. by injection Hv as ->.
  - apply (typedArrayGet_length _ (applyTests tests b)) in Hold;
      [congruence|by rewrite applyTests_length].
Qed.

Lemma unit_ratio (p q : Z) : (0 <= p <= q)%Z -> (0 < q)%Z ->
  0 <= inject_Z p / inject_Z q <= 1.
Proof.
  intros [Hp Hpq] Hq.
  assert (Hq' : 0 < inject_Z q) by (change 0 with (inject_Z 0); by rewrite <- Zlt_Qlt).
  assert (Hp' : 0 <= inject_Z p) by (change 0 with (inject_Z 0); by rewrite <- Zle_Qle).
  assert (Hpq' : inject_Z p <= inject_Z q) by (by rewrite <- Zle_Qle).
  split.
  - apply Qle_shift_div_l; [exact Hq'|]. lra.
  - apply Qle_shift_div_r; [exact Hq'|]. lra.
Qed.

Lemma convex_between (t a b lo hi : Q) :
  0 <= t <= 1 -> lo <= a <= hi -> lo <= b <= hi ->
  lo <= (1 - t) * a + t * b <= hi.
Proof.
  intros [Ht0 Ht1] [Ha0 Ha1] [Hb0 Hb1].
  assert (H1 : 0 <= (1 - t) * (a - lo)) by (apply Qmult_le_0_compat; lra).
  assert (H2 : 0 <= t * (b - lo)) by (apply Qmult_le_0_compat; lra).
  assert (H3 : 0 <= (1 - t) * (hi - a)) by (apply Qmult_le_0_compat; lra).
  assert (H4 : 0 <= t * (hi - b)) by (apply Qmult_le_0_compat; lra).
  split.
  - assert (E : (1 - t) * a + t * b == lo + ((1 - t) * (a - lo) + t * (b - lo)))
      by ring.
    rewrite E. lra.
  - assert (E : (1 - t) * a + t * b == hi - ((1 - t) * (hi - a) + t * (hi - b)))
      by ring.
    rewrite E. lra.
Qed.

(** Horizontal clipping of a span that reaches the screen: the clipped
    ends are the span's ends clamped to the screen, and the clipped end
    depths lie between the end depths. *)
Lemma clipSpan_between (clipX leftX rightX : Z) (leftZ rightZ lo hi : Q) :
  emptySpan clipX leftX rightX = false ->
  lo <= leftZ <= hi -> lo <= rightZ <= hi ->
  exists lz rz,
    clipSpan clipX leftX rightX leftZ rightZ
    = (Z.max leftX 0, Z.min rightX clipX, lz, rz) /\
    ((Z.max leftX 0 <= Z.min rightX clipX)%Z -> lo <= lz <= hi /\ lo <= rz <= hi).
Proof.
  intros He Hl Hr. unfold emptySpan in He.
  apply orb_false_iff in He as [He H3]. apply orb_false_iff in He as [H1 H2].
  apply Z.ltb_ge in H1, H3. rewrite Z.gtb_ltb in H2. apply Z.ltb_ge in H2.
  unfold clipSpan.
  destruct (Z.ltb_spec leftX 0) as [Hlx|Hlx].
  - set (lz := (1 - _) * leftZ + _ * rightZ).
    assert (Hlz : lo <= lz <= hi).
    { apply convex_between; [|done|done]. apply unit_ratio; lia. }
    rewrite Z.gtb_ltb. destruct (Z.ltb_spec 0 (rightX - clipX + 1)) as [Hd|Hd].
    + eexists _, _. rewrite Z.max_r, Z.min_r by lia. split; [reflexivity|].
      intros Hle. split; [exact Hlz|].
      apply convex_between; [|done|done]. apply unit_ratio; lia.
    + eexists _, _. rewrite Z.max_r, Z.min_l by lia. split; [reflexivity|]. done.
  - rewrite Z.gtb_ltb. destruct (Z.ltb_spec 0 (rightX - clipX + 1)) as [Hd|Hd].
    + eexists _, _. rewrite Z.max_l, Z.min_r by lia. split; [reflexivity|].
      intros Hle. split; [done|].
      apply convex_between; [|done|done]. apply unit_ratio; lia.
    + eexists _, _. rewrite Z.max_l, Z.min_l by lia. split; [reflexivity|]. done.
Qed.

(** The tests of one call of [_fillPixels]. *)
Lemma fillPixels_tests (leftX rightX y : Z) (leftZ rightZ lo hi : Q)
    (r : SoftwareRenderer) :
  lo <= leftZ <= hi -> lo <= rightZ <= hi ->
  exists tests,
    accessed (_fillPixels leftX rightX y leftZ rightZ r) = accessed r ++ tests /\
    _depthData (_fillPixels leftX rightX y leftZ rightZ r)
    = applyTests tests (_depthData r) /\
    forall i d, (i, d) ∈ tests ->
      (y * width r + Z.max leftX 0 <= i <= y * width r + Z.min rightX (_clipX r))%Z /\
      lo <= d <= hi.
Proof.
  intros Hl Hr. unfold _fillPixels.
  destruct (emptySpan _ _ _) eqn:He.
  { exists []. rewrite app_nil_r. repeat split; try done.
    all: by apply elem_of_nil in H. }
  destruct (clipSpan_between _ _ _ leftZ rightZ lo hi He Hl Hr) as (lz & rz & Hc & Hb).
  cbv zeta.
  assert (Hcx : _clipX (warnDepths "leftz : " leftZ rightZ r) = _clipX r)
    by apply (sameFrame_warnDepths "leftz : " leftZ rightZ r).
  assert (Hw : width (warnDepths "leftz : " leftZ rightZ r) = width r)
    by apply (sameFrame_warnDepths "leftz : " leftZ rightZ r).
  rewrite Hcx, Hw, Hc.
  set (lx := Z.max leftX 0) in *. set (rx := Z.min rightX (_clipX r)) in *.
  eexists. destruct (fillLoop_trace (Z.to_nat (rx - lx + 1)) (y * width r + lx) lz
                       ((rz - lz) / inject_Z (rx - lx))
                       (warnDepths "leftz : " leftZ rightZ r)) as [Ha Hd].
  rewrite accessed_warnDepths in Ha. rewrite depthData_warnDepths in Hd.
  split; [exact Ha|]. split; [exact Hd|].
  intros i d Hin. apply list_elem_of_lookup in Hin as [k Hk].
  apply spanTests_lookup in Hk as (Hlt & Hi & Hdk). cbn in Hi, Hdk.
  assert (Hle : (lx <= rx)%Z) by lia.
  destruct (Hb Hle) as [Hlz Hrz]. split; [lia|].
  rewrite Hdk. destruct (decide (rx = lx)) as [Heq|Hne].
  - assert (k = 0)%nat as -> by lia. change (inject_Z (Z.of_nat 0)) with 0.
    assert (E : lz + 0 * ((rz - lz) / inject_Z (rx - lx)) == lz) by ring.
    rewrite E. done.
  - assert (Hn : ~ inject_Z (rx - lx) == 0).
    { change 0 with (inject_Z 0). rewrite inject_Z_injective. lia. }
    assert (E : lz + inject_Z (Z.of_nat k) * ((rz - lz) / inject_Z (rx - lx))
                == (1 - inject_Z (Z.of_nat k) / inject_Z (rx - lx)) * lz
                   + inject_Z (Z.of_nat k) / inject_Z (rx - lx) * rz)
      by (field; exact Hn).
    rewrite E.
    apply convex_between; [|done|done]. apply unit_ratio; lia.
Qed.

(** ** Depths outside the expected range are used as they are *)

Lemma fillPixels_unfold (leftX rightX y lx rx : Z) (leftZ rightZ lz rz : Q)
    (r : SoftwareRenderer) :
  emptySpan (_clipX r) leftX rightX = false ->
  clipSpan (_clipX r) leftX rightX leftZ rightZ = (lx, rx, lz, rz) ->
  _fillPixels leftX rightX y leftZ rightZ r
  = fillLoop (Z.to_nat (rx - lx + 1)) (y * width r + lx) lz
      ((rz - lz) / inject_Z (rx - lx)) (warnDepths "leftz : " leftZ rightZ r).
Proof.
  intros He Hc. unfold _fillPixels. rewrite He. cbv zeta.
  destruct (sameFrame_warnDepths "leftz : " leftZ rightZ r) as (-> & _ & -> & _).
  by rewrite Hc.
Qed.

Lemma isScanlineOccluded_unfold (leftX rightX y lx rx : Z) (leftZ rightZ lz rz : Q)
    (r : SoftwareRenderer) :
  emptySpan (_clipX r) leftX rightX = false ->
  clipSpan (_clipX r) leftX rightX leftZ rightZ = (lx, rx, lz, rz) ->
  _isScanlineOccluded leftX rightX y leftZ rightZ r
  = probeLoop (Z.to_nat (rx - lx + 1)) (y * width r + lx) lz
      ((rz - lz) / inject_Z (rx - lx)) (warnDepths "leftZ : " leftZ rightZ r).
Proof.
  intros He Hc. unfold _isScanlineOccluded. rewrite He. cbv zeta.
  destruct (sameFrame_warnDepths "leftZ : " leftZ rightZ r) as (-> & _ & -> & _).
  by rewrite Hc.
Qed.

(** The probe makes the tests of the span in order, up to the first
    that does not pass, and answers [true] when all pass. *)
Lemma probeLoop_trace (n : nat) (index : Z) (depth inc : Q) (r : SoftwareRenderer) :
  ((probeLoop n index depth inc r).1 = true <->
   Forall (passes (_depthData r)) (spanTests n index depth inc)) /\
  exists k, accessed (probeLoop n index depth inc r).2
            = accessed r ++ take k (spanTests n index depth inc).
Proof.
  revert index depth r. induction n as [|n IH]; intros index depth r.
  - cbn. split; [split; [constructor|done]|]. exists 0%nat. by rewrite app_nil_r.
  - cbn [probeLoop spanTests].
    change (_depthData (note_access index depth r)) with (_depthData r).
    destruct (gtStored depth (typedArrayGet (_depthData r) index)) eqn:Hg.
    + split.
      * split; [discriminate|]. intros H. apply Forall_cons in H as [H _].
        unfold passes in H. cbn in H. congruence.
      * exists 1%nat. reflexivity.
    + destruct (IH (index + 1)%Z (depth + inc) (note_access index depth r)) as [Hi [k Hk]].
      change (_depthData (note_access index depth r)) with (_depthData r) in Hi.
      split.
      * rewrite Hi. split; [intros H; apply Forall_cons; split; [exact Hg|exact H]|].
        intros H. by apply Forall_cons in H as [_ H].
      * exists (S k). rewrite Hk. cbn. by rewrite <- app_assoc.
Qed.

(** The test at the last pixel of a span of more than one pixel is made
    with the right depth. *)
Lemma spanTests_last (lx rx index : Z) (lz rz : Q) :
  (lx < rx)%Z ->
  exists d,
    spanTests (Z.to_nat (rx - lx + 1)) index lz ((rz - lz) / inject_Z (rx - lx))
      !! Z.to_nat (rx - lx) = Some ((index + (rx - lx))%Z, d) /\ d == rz.
Proof.
  intros Hlt.
  destruct (lookup_lt_is_Some_2
              (spanTests (Z.to_nat (rx - lx + 1)) index lz ((rz - lz) / inject_Z (rx - lx)))
              (Z.to_nat (rx - lx))) as [[i d] Ht].
  { rewrite spanTests_length. lia. }
  destruct (spanTests_lookup _ _ _ _ _ _ Ht) as (_ & Hi & Hd). cbn in Hi, Hd.
  exists d. split.
  - rewrite Ht. f_equal. f_equal. lia.
  - rewrite Hd, Z2Nat.id by lia.
    assert (Hn : ~ inject_Z (rx - lx) == 0).
    { change 0 with (inject_Z 0). rewrite inject_Z_injective. lia. }
    field. exact Hn.
Qed.

(** In a span every pixel is tested once. *)
Lemma spanTests_at (n : nat) (index : Z) (depth inc : Q) (k : nat) (i : Z) (d e : Q) :
  spanTests n index depth inc !! k = Some (i, d) ->
  (i, e) ∈ spanTests n index depth inc -> e = d.
Proof.
  intros Hk Hin. apply list_elem_of_lookup in Hin as [k' Hk'].
  destruct (spanTests_lookup _ _ _ _ _ _ Hk) as (_ & Hi & _).
  destruct (spanTests_lookup _ _ _ _ _ _ Hk') as (_ & Hi' & _).
  cbn in Hi, Hi'. assert (k' = k) as -> by lia. congruence.
Qed.

(** A test of the span whose depth exceeds the stored one is written
    and makes the probe answer [false]. *)
Lemma spanTests_visible (tests : list (Z * Q)) (b : list Q) (k : nat) (i : Z)
    (d stored : Q) :
  (forall e, (i, e) ∈ tests -> e = d) ->
  tests !! k = Some (i, d) ->
  typedArrayGet b i = Some stored -> stored < d ->
  typedArrayGet (applyTests tests b) i = Some d /\ ~ Forall (passes b) tests.
Proof.
  intros Huniq Hk Hget Hlt.
  assert (Hin : (i, d) ∈ tests) by (by apply list_elem_of_lookup_2 in Hk).
  split.
  - destruct (applyTests_cell tests b i stored Hget) as (v & Hv & Hor & _ & Hmax).
    destruct Hor as [->|Hiv].
    + specialize (Hmax d Hin). lra.
    + by rewrite (Huniq v Hiv) in Hv.
  - intros Hall. rewrite Forall_forall in Hall. specialize (Hall _ Hin).
    unfold passes in Hall. cbn in Hall. rewrite Hget in Hall. cbn in Hall.
    apply Qltb_ge in Hall. lra.
Qed.

(** C3, amended: a left or right depth outside [0, 1.0000001] handed to
    [_fillPixels], or to [_isScanlineOccluded] on a line of the viewport
    of a renderer built by the constructor, with a span that is not
    empty, is reported through [console.error] and then used as it is;
    nothing clamps it, and the call completes.  In exact arithmetic the
    depths tested along the span are those interpolated from the two
    depths as passed, horizontal clipping apart: [_fillPixels] makes
    exactly these tests and leaves the buffer they produce; the probe
    makes them up to the first that is visible, answers [true] exactly
    when none is, and its debug colour write stays inside the colour
    buffer.  In particular a left or a right depth that exceeds the
    stored one at its end of the span is written unchanged by
    [_fillPixels] and makes [_isScanlineOccluded] answer [false],
    whatever its size. *)
Theorem depth_out_of_range_logged_not_clamped
    (leftX rightX y : Z) (leftZ rightZ : Q) (r : SoftwareRenderer)
    (lx rx : Z) (lz rz : Q) :
  emptySpan (_clipX r) leftX rightX = false ->
  clipSpan (_clipX r) leftX rightX leftZ rightZ = (lx, rx, lz, rz) ->
  let tests := spanTests (Z.to_nat (rx - lx + 1)) (y * width r + lx) lz
                 ((rz - lz) / inject_Z (rx - lx)) in
  let filled := _fillPixels leftX rightX y leftZ rightZ r in
  let probed := _isScanlineOccluded leftX rightX y leftZ rightZ r in
  (((0 <= leftX)%Z -> lx = leftX /\ lz = leftZ) /\
   ((rightX < _clipX r)%Z -> rx = rightX /\ rz = rightZ)) /\
  (console filled = console r ++ depthWarnings "leftz : " leftZ rightZ /\
   accessed filled = accessed r ++ tests /\
   _depthData filled = applyTests tests (_depthData r) /\
   (forall stored,
      (lx <= rx)%Z ->
      typedArrayGet (_depthData r) (y * width r + lx) = Some stored -> stored < lz ->
      typedArrayGet (_depthData filled) (y * width r + lx) = Some lz) /\
   (forall stored,
      (lx < rx)%Z ->
      typedArrayGet (_depthData r) (y * width r + rx) = Some stored -> stored < rz ->
      exists d, typedArrayGet (_depthData filled) (y * width r + rx) = Some d /\ d == rz)) /\
  (Reachable r -> (0 <= y <= _clipY r)%Z ->
   Forall (fun test => colorWriteFits r test.1) tests /\
   console probed.2 = console r ++ depthWarnings "leftZ : " leftZ rightZ /\
   (exists k, accessed probed.2 = accessed r ++ take k tests) /\
   (probed.1 = true <-> Forall (passes (_depthData r)) tests) /\
   (forall stored,
      (lx <= rx)%Z ->
      typedArrayGet (_depthData r) (y * width r + lx) = Some stored -> stored < lz ->
      probed.1 = false) /\
   (forall stored,
      (lx < rx)%Z ->
      typedArrayGet (_depthData r) (y * width r + rx) = Some stored -> stored < rz ->
      probed.1 = false)).
Proof.
  intros He Hc tests filled probed.
  assert (Hclip := Hc).
  assert (Hends : (0 <= lx)%Z /\ (rx <= _clipX r)%Z /\
                  ((0 <= leftX)%Z -> lx = leftX /\ lz = leftZ) /\
                  ((rightX < _clipX r)%Z -> rx = rightX /\ rz = rightZ)).
  { revert He Hc. unfold emptySpan, clipSpan. intros He.
    apply orb_false_iff in He as [He H3]. apply orb_false_iff in He as [H1 H2].
    apply Z.ltb_ge in H1, H3. rewrite Z.gtb_ltb in H2. apply Z.ltb_ge in H2.
    rewrite Z.gtb_ltb.
    destruct (Z.ltb_spec leftX 0), (Z.ltb_spec 0 (rightX - _clipX r + 1));
      intros [= <- <- <- <-];
      (split; [lia|]); (split; [lia|]);
      split; intros Hx; ((exfalso; lia) || (split; reflexivity)). }
  destruct Hends as (Hlx & Hrx & HL & HR).
  assert (Hfirst : forall stored, (lx <= rx)%Z ->
            typedArrayGet (_depthData r) (y * width r + lx) = Some stored -> stored < lz ->
            typedArrayGet (applyTests tests (_depthData r)) (y * width r + lx) = Some lz /\
            ~ Forall (passes (_depthData r)) tests).
  { intros stored Hle Hget Hlt.
    assert (Hk : tests !! 0%nat = Some ((y * width r + lx)%Z, lz)).
    { subst tests. replace (Z.to_nat (rx - lx + 1)) with (S (Z.to_nat (rx - lx))) by lia.
      reflexivity. }
    apply (spanTests_visible tests _ 0%nat _ lz stored); try done.
    intros e Hin. unfold tests in Hk, Hin. by apply (spanTests_at _ _ _ _ _ _ _ _ Hk Hin). }
  assert (Hlast : forall stored, (lx < rx)%Z ->
            typedArrayGet (_depthData r) (y * width r + rx) = Some stored -> stored < rz ->
            (exists d, typedArrayGet (applyTests tests (_depthData r)) (y * width r + rx)
                       = Some d /\ d == rz) /\
            ~ Forall (passes (_depthData r)) tests).
  { intros stored Hlt Hget Hsr.
    destruct (spanTests_last lx rx (y * width r + lx) lz rz Hlt) as (d & Hk & Hd).
    fold tests in Hk.
    replace (y * width r + lx + (rx - lx))%Z with (y * width r + rx)%Z in Hk by lia.
    destruct (spanTests_visible tests (_depthData r) (Z.to_nat (rx - lx))
                (y * width r + rx)%Z d stored) as [Hv Hn]; try done.
    - intros e Hin. unfold tests in Hk, Hin. by apply (spanTests_at _ _ _ _ _ _ _ _ Hk Hin).
    - by rewrite Hd.
    - split; [by exists d|exact Hn]. }
  split; [by split|]. split.
  - subst filled. rewrite (fillPixels_unfold _ _ _ _ _ _ _ _ _ _ He Hclip).
    destruct (fillLoop_trace (Z.to_nat (rx - lx + 1)) (y * width r + lx) lz
                ((rz - lz) / inject_Z (rx - lx))
                (warnDepths "leftz : " leftZ rightZ r)) as [Ha Hd].
    rewrite accessed_warnDepths in Ha. rewrite depthData_warnDepths in Hd.
    fold tests in Ha, Hd.
    split; [rewrite console_fillLoop; apply console_warnDepths|].
    split; [exact Ha|]. split; [exact Hd|]. rewrite Hd. split.
    + intros stored Hle Hget Hlt. by apply (Hfirst stored).
    + intros stored Hlt Hget Hsr. by apply (Hlast stored).
  - intros Hreach Hy. subst probed.
    rewrite (isScanlineOccluded_unfold _ _ _ _ _ _ _ _ _ _ He Hclip).
    destruct (probeLoop_trace (Z.to_nat (rx - lx + 1)) (y * width r + lx) lz
                ((rz - lz) / inject_Z (rx - lx))
                (warnDepths "leftZ : " leftZ rightZ r)) as [Hans [k Hk]].
    rewrite accessed_warnDepths in Hk. rewrite depthData_warnDepths in Hans.
    fold tests in Hans, Hk.
    assert (Hfalse : ~ Forall (passes (_depthData r)) tests ->
              (probeLoop (Z.to_nat (rx - lx + 1)) (y * width r + lx) lz
                 ((rz - lz) / inject_Z (rx - lx))
                 (warnDepths "leftZ : " leftZ rightZ r)).1 = false).
    { intros Hn. apply not_true_is_false. intros Ht. by apply Hn, Hans. }
    split; [|split; [|split; [|split; [|split]]]].
    + destruct (reachable_wellSized r Hreach) as [Hcx Hcy].
      apply Forall_lookup. intros j [i d] Hj.
      destruct (spanTests_lookup _ _ _ _ _ _ Hj) as (Hlt & Hi & _). cbn in Hi.
      unfold colorWriteFits. cbn [fst]. subst i. nia.
    + rewrite console_probeLoop. apply console_warnDepths.
    + by exists k.
    + exact Hans.
    + intros stored Hle Hget Hlt. by apply Hfalse, (Hfirst stored).
    + intros stored Hlt Hget Hsr. by apply Hfalse, (Hlast stored).
Qed.

Lemma depth_out_of_range_logged_not_clamped_witness :
  console (_fillPixels 0 2 0 (-1) 2 sampleRenderer)
    = [("leftz : "%string, -1); ("rightZ : "%string, 2)] /\
  accessed (_fillPixels 0 2 0 (-1) 2 sampleRenderer)
    = spanTests 3 0 (-1) ((2 - -1) / inject_Z (2 - 0)) /\
  (exists d, typedArrayGet (_depthData (_fillPixels 0 2 0 (-1) 2 sampleRenderer)) 2
             = Some d /\ d == 2) /\
  console (_isScanlineOccluded 0 2 0 (-1) 2 sampleRenderer).2
    = [("leftZ : "%string, -1); ("rightZ : "%string, 2)] /\
  (_isScanlineOccluded 0 2 0 (-1) 2 sampleRenderer).1 = false.
Proof.
  destruct (depth_out_of_range_logged_not_clamped 0 2 0 (-1) 2 sampleRenderer
              0 2 (-1) 2 eq_refl eq_refl)
    as (_ & (Hcon & Hacc & _ & _ & Hright) & Hprobe).
  destruct Hprobe as (_ & Hpcon & _ & _ & _ & Hpright).
  - apply (reach_new sampleParameters). reflexivity.
  - cbn. lia.
  - split; [exact Hcon|]. split; [exact Hacc|].
    split; [apply (Hright 0); [lia|reflexivity|reflexivity]|].
    split; [exact Hpcon|].
    apply (Hpright 0); [lia|reflexivity|reflexivity].
Defined.

(** X22: [_fillPixels] leaves every cell of the depth buffer outside the
    part of line [y] between the span's ends, clamped to the screen, as
    it was. *)
Theorem fillPixels_touches_only_span (leftX rightX y : Z) (leftZ rightZ : Q)
    (r : SoftwareRenderer) (j : Z) :
  ~ (y * width r + Z.max leftX 0 <= j <= y * width r + Z.min rightX (_clipX r))%Z ->
  typedArrayGet (_depthData (_fillPixels leftX rightX y leftZ rightZ r)) j
  = typedArrayGet (_depthData r) j.
Proof.
  intros Hj.
  assert (Hb : exists lo hi, lo <= leftZ <= hi /\ lo <= rightZ <= hi).
  { destruct (Qlt_le_dec leftZ rightZ);
      [exists leftZ, rightZ|exists rightZ, leftZ]; repeat split; lra. }
  destruct Hb as (lo & hi & Hl & Hr).
  destruct (fillPixels_tests leftX rightX y leftZ rightZ lo hi r Hl Hr)
    as (tests & _ & Hd & Hin).
  rewrite Hd.
  destruct (typedArrayGet (_depthData r) j) as [old|] eqn:Hold.
  - destruct (applyTests_cell tests _ j old Hold) as (v & Hv & [->|Hjv] & _); [exact Hv|].
    apply Hin in Hjv as [Hjv _]. contradiction.
  - apply (typedArrayGet_length (_depthData r)); [by rewrite applyTests_length|exact Hold].
Qed.

Lemma fillPixels_touches_only_span_witness :
  typedArrayGet (_depthData (_fillPixels (-2) 3 1 (1 # 2) (1 # 4) sampleRenderer)) 12
  = typedArrayGet (_depthData sampleRenderer) 12.
Proof.
  apply (fillPixels_touches_only_span (-2) 3 1 (1 # 2) (1 # 4) sampleRenderer 12).
  vm_compute. intros [H1 H2]. apply H2. reflexivity.
Defined.

(** X23: in exact arithmetic, with neither the interpolation nor the
    store rounded, the depths [_fillPixels] stores lie between the two
    end depths it is given, also after horizontal clipping: a cell of
    the depth buffer after the call holds its old value or a depth
    between [leftZ] and [rightZ]. *)
Theorem fillPixels_depths_between (leftX rightX y : Z) (leftZ rightZ lo hi : Q)
    (r : SoftwareRenderer) (j : Z) (d : Q) :
  lo <= leftZ <= hi -> lo <= rightZ <= hi ->
  typedArrayGet (_depthData (_fillPixels leftX rightX y leftZ rightZ r)) j = Some d ->
  typedArrayGet (_depthData r) j = Some d \/ lo <= d <= hi.
Proof.
  intros Hl Hr Hget.
  destruct (fillPixels_tests leftX rightX y leftZ rightZ lo hi r Hl Hr)
    as (tests & _ & Hd & Hin).
  rewrite Hd in Hget. apply applyTests_origin in Hget as [Hold|Ht]; [by left|].
  right. by apply Hin in Ht as [_ Ht].
Qed.

Lemma fillPixels_depths_between_witness :
  typedArrayGet (_depthData sampleRenderer) 8 = Some (1 # 2) \/
  (1 # 4) <= (1 # 2) <= (1 # 2).
Proof.
  apply (fillPixels_depths_between 0 3 1 (1 # 2) (1 # 4) (1 # 4) (1 # 2)
           sampleRenderer 8 (1 # 2)).
  - split; vm_compute; discriminate.
  - split; vm_compute; discriminate.
  - vm_compute. reflexivity.
Defined.

(** ** Malformed entities *)

Lemma transformPositions_spec (M : Matrix4x4) (ps : list Q) :
  if (length ps mod 3 =? 0)%nat
  then exists out, transformPositions M ps = Normal out
  else transformPositions M ps = Throw RangeError.
Proof.
  remember (length ps) as n eqn:Hn. revert ps Hn.
  induction n as [n IH] using lt_wf_ind. intros ps Hn.
  destruct ps as [|x [|y [|z rest]]]; cbn in Hn; subst n.
  - cbn. by eexists.
  - reflexivity.
  - reflexivity.
  - assert (Hm : (S (S (S (length rest))) mod 3 = length rest mod 3)%nat).
    { change (S (S (S (length rest)))) with (3 + length rest)%nat.
      rewrite <- Nat.Div0.add_mod_idemp_l. reflexivity. }
    rewrite Hm. specialize (IH (length rest) ltac:(lia) rest eq_refl).
    cbn [transformPositions]. destruct (length rest mod 3 =? 0)%nat.
    + destruct IH as [out ->]. by eexists.
    + by rewrite IH.
Qed.

Lemma createTriangles_spec (r : SoftwareRenderer) (cam : Camera) (entity : Entity)
    (V P : Matrix4x4) :
  if (length (POSITION entity) mod 3 =? 0)%nat
  then exists triangles, _createTrianglesForEntity r cam entity V P = Normal triangles
  else _createTrianglesForEntity r cam entity V P = Throw RangeError.
Proof.
  unfold _createTrianglesForEntity.
  pose proof (transformPositions_spec (combine V (worldTransform entity))
                (POSITION entity)) as H.
  destruct (length (POSITION entity) mod 3 =? 0)%nat.
  - destruct H as [out ->]. by eexists.
  - by rewrite H.
Qed.

Lemma renderLoop_app (cam : Camera) (l1 l2 : list Entity) (r : SoftwareRenderer) :
  renderLoop cam (l1 ++ l2) r
  = match renderLoop cam l1 r with
    | (Normal _, r') => renderLoop cam l2 r'
    | (Throw e, r') => (Throw e, r')
    end.
Proof.
  revert r. induction l1 as [|e l1 IH]; intros r; [reflexivity|].
  cbn [app renderLoop]. destruct (_createTrianglesForEntity _ _ _ _ _); [apply IH|reflexivity].
Qed.

Lemma renderLoop_good (cam : Camera) (l : list Entity) (r : SoftwareRenderer) :
  Forall (fun e => (length (POSITION e) mod 3 = 0)%nat) l ->
  (renderLoop cam l r).1 = Normal tt.
Proof.
  revert r. induction l as [|e l IH]; intros r Hl; [reflexivity|].
  apply Forall_cons in Hl as [He Hl]. cbn [renderLoop].
  pose proof (createTriangles_spec r cam e (getViewMatrix cam) (getProjectionMatrix cam)) as H.
  rewrite He in H. cbn in H. destruct H as [ts ->]. by apply IH.
Qed.

(** X24: [_createTrianglesForEntity] completes exactly when the
    positions of the entity come in whole triples; otherwise it throws a
    [RangeError], whatever the indices, the matrices and the renderer. *)
Theorem createTriangles_throws_iff (r : SoftwareRenderer) (cam : Camera)
    (entity : Entity) (V P : Matrix4x4) :
  ((length (POSITION entity) mod 3 = 0)%nat <->
   exists triangles, _createTrianglesForEntity r cam entity V P = Normal triangles) /\
  ((length (POSITION entity) mod 3 <> 0)%nat <->
   _createTrianglesForEntity r cam entity V P = Throw RangeError).
Proof.
  pose proof (createTriangles_spec r cam entity V P) as H.
  destruct (Nat.eqb_spec (length (POSITION entity) mod 3) 0) as [He|He].
  - destruct H as [ts Hts]. split; split; try done.
    + intros _. by exists ts.
    + rewrite Hts. discriminate.
  - split; split; try done.
    intros [ts Hts]. rewrite Hts in H. discriminate.
Qed.

(** X25: an entity whose positions do not come in whole triples aborts
    the frame: [render] throws a [RangeError] and leaves the renderer as
    it is after rendering the entities before that one; the entities
    after it are not drawn. *)
Theorem render_stops_at_malformed_entity (good rest : list Entity) (bad : Entity)
    (r : SoftwareRenderer) (cam : Camera) :
  camera r = Some cam ->
  Forall (fun e => (length (POSITION e) mod 3 = 0)%nat) good ->
  (length (POSITION bad) mod 3 <> 0)%nat ->
  render (good ++ bad :: rest) r = (Throw RangeError, (render good r).2).
Proof.
  intros Hcam Hgood Hbad. unfold render.
  destruct (_clearDepthData r) as [r0|e] eqn:Hclear.
  - assert (Hc0 : camera r0 = Some cam).
    { revert Hclear. unfold _clearDepthData.
      destruct (typedArraySetAll _ _); intros [= <-]. exact Hcam. }
    rewrite Hc0, renderLoop_app.
    pose proof (renderLoop_good cam good r0 Hgood) as Hn.
    destruct (renderLoop cam good r0) as [c r1]. cbn in Hn. subst c. cbn [snd renderLoop].
    pose proof (createTriangles_spec r1 cam bad (getViewMatrix cam)
                  (getProjectionMatrix cam)) as H.
    apply Nat.eqb_neq in Hbad. rewrite Hbad in H. by rewrite H.
  - revert Hclear. unfold _clearDepthData, typedArraySetAll.
    destruct (_ <=? _)%nat; [discriminate|]. by intros [= <-].
Qed.

Lemma render_stops_at_malformed_entity_witness :
  render ([nearOccluder] ++ mkEntity "Dynamic" OtherBound [1; 2; 3; 4] [] identity4
            :: [farOccluder]) projectingRenderer
  = (Throw RangeError, (render [nearOccluder] projectingRenderer).2).
Proof.
  apply (render_stops_at_malformed_entity [nearOccluder] [farOccluder]
           (mkEntity "Dynamic" OtherBound [1; 2; 3; 4] [] identity4)
           projectingRenderer projectingCamera).
  - reflexivity.
  - repeat constructor.
  - vm_compute. discriminate.
Defined.

(** ** The number of triangles of an entity *)

Lemma createTriangles_length (vertices : list Vector4) (o i : list nat)
    (triangles : list Triangle) :
  (length (_createTriangles vertices o i triangles) <= length triangles + 2)%nat.
Proof.
  unfold _createTriangles. destruct (_ =? _)%nat; rewrite length_app; cbn; lia.
Qed.

Lemma trianglesLoop_length (r : SoftwareRenderer) (cam : Camera) (P : Matrix4x4)
    (posArray : list Q) (vertIndexArray : list nat) (triangles : list Triangle) :
  (length (trianglesLoop r cam P posArray vertIndexArray triangles)
   <= length triangles + 2 * (length vertIndexArray / 3))%nat.
Proof.
  remember (length vertIndexArray) as n eqn:Hn. revert vertIndexArray triangles Hn.
  induction n as [n IH] using lt_wf_ind. intros idx triangles Hn.
  destruct idx as [|i1 [|i2 [|i3 rest]]]; cbn in Hn; subst n; cbn [trianglesLoop]; try lia.
  assert (Hd : (S (S (S (length rest))) / 3 = S (length rest / 3))%nat).
  { change (S (S (S (length rest)))) with (1 * 3 + length rest)%nat.
    rewrite Nat.div_add_l by lia. lia. }
  rewrite Hd.
  etransitivity; [apply (IH (length rest)); [lia|reflexivity]|].
  destruct (clipStage _ _ _ _) as [[[vs o] i]|]; [|lia].
  pose proof (createTriangles_length
                (_transformToScreenSpace r (_projectionTransform vs P)) o i triangles).
  lia.
Qed.

(** X26: an entity whose index data come in whole triples gives at most
    two screen-space triangles for each of them. *)
Theorem entity_triangle_count (r : SoftwareRenderer) (cam : Camera) (entity : Entity)
    (V P : Matrix4x4) (triangles : list Triangle) :
  (length (indexData entity) mod 3 = 0)%nat ->
  _createTrianglesForEntity r cam entity V P = Normal triangles ->
  (length triangles <= 2 * (length (indexData entity) / 3))%nat.
Proof.
  intros _. unfold _createTrianglesForEntity.
  destruct (transformPositions _ _) as [posArray|]; [|discriminate].
  intros [= <-]. apply (trianglesLoop_length r cam P posArray (indexData entity) []).
Qed.

Lemma entity_triangle_count_witness :
  (length (trianglesLoop projectingRenderer projectingCamera
             (getProjectionMatrix projectingCamera)
             [-1; -1; -2; 1; -1; -2; -1; 1; -2]%Q [0; 1; 2]%nat [])
   <= 2 * (length (indexData nearOccluder) / 3))%nat.
Proof.
  apply (entity_triangle_count projectingRenderer projectingCamera nearOccluder
           (getViewMatrix projectingCamera) (getProjectionMatrix projectingCamera)).
  - reflexivity.
  - vm_compute. reflexivity.
Defined.

(** ** The colour buffer *)

Lemma ToUint8_grey (d : Q) : 0 <= d <= 1 ->
  ToUint8 (d * 255) = Qfloor (d * 255) /\ (0 <= Qfloor (d * 255) <= 255)%Z.
Proof.
  intros [H0 H1].
  assert (Hlo : (0 <= Qfloor (d * 255))%Z).
  { change 0%Z with (Qfloor 0). apply Qfloor_resp_le. apply Qmult_le_0_compat; lra. }
  assert (Hhi : (Qfloor (d * 255) <= 255)%Z).
  { apply (Z.le_trans _ (Qfloor 255)); [apply Qfloor_resp_le; lra|reflexivity]. }
  split; [|lia]. unfold ToUint8.
  assert (Hq : Z.quot (Qnum (d * 255)) (Z.pos (Qden (d * 255))) = Qfloor (d * 255)).
  { unfold Qfloor. destruct (d * 255) as [n m] eqn:E. cbn [Qnum Qden].
    apply Z.quot_div_nonneg; [|lia].
    assert (Hp : 0 <= n # m) by (rewrite <- E; apply Qmult_le_0_compat; lra).
    unfold Qle in Hp. cbn in Hp. lia. }
  rewrite Hq. apply Z.mod_small. lia.
Qed.

Lemma copyLoop_grey (depthData : list Q) (pre old : list Z) :
  length old = (4 * length depthData)%nat ->
  Forall (fun d => 0 <= d <= 1) depthData ->
  copyLoop depthData (Z.of_nat (length pre)) (pre ++ old)
  = pre ++ flat_map greyPixel depthData.
Proof.
  revert pre old. induction depthData as [|d ds IH]; intros pre old Hlen Hr.
  - destruct old; [reflexivity|discriminate].
  - apply Forall_cons in Hr as [Hd Hr].
    destruct old as [|a [|b [|c [|e old']]]];
      try (exfalso; cbn [length] in Hlen; lia).
    cbn [copyLoop flat_map]. unfold uint8ArraySet.
    destruct (ToUint8_grey d Hd) as [-> _].
    assert (H255 : ToUint8 255 = 255%Z) by reflexivity. rewrite H255.
    repeat match goal with
           | |- context [(?i <? 0)%Z] =>
               destruct (Z.ltb_spec i 0); [lia|]
           end.
    replace (Z.to_nat (Z.of_nat (length pre))) with (length pre + 0)%nat by lia.
    replace (Z.to_nat (Z.of_nat (length pre) + 1)) with (length pre + 1)%nat by lia.
    replace (Z.to_nat (Z.of_nat (length pre) + 1 + 1)) with (length pre + 2)%nat by lia.
    replace (Z.to_nat (Z.of_nat (length pre) + 1 + 1 + 1)) with (length pre + 3)%nat by lia.
    rewrite !insert_app_r. cbn [list_insert insert].
    replace (Z.of_nat (length pre) + 1 + 1 + 1 + 1)%Z
      with (Z.of_nat (length (pre ++ greyPixel d))) by (rewrite length_app; cbn; lia).
    change (pre ++ ?g1 :: ?g2 :: ?g3 :: ?g4 :: old')
      with (pre ++ [g1; g2; g3; g4] ++ old').
    rewrite app_assoc. rewrite IH; [|cbn [length] in Hlen; lia|exact Hr].
    by rewrite <- app_assoc.
Qed.

(** X27: on a depth buffer with every cell in [0, 1] and a colour
    buffer of four cells per pixel, [copyDepthToColor] overwrites the
    whole colour buffer with one opaque grey pixel per depth cell, of
    brightness floor(255 * depth) in all three channels; nothing of the
    colours before is left. *)
Theorem copyDepthToColor_grey (r : SoftwareRenderer) (_colorData : list Z) :
  length _colorData = (4 * length (_depthData r))%nat ->
  Forall (fun d => 0 <= d <= 1) (_depthData r) ->
  copyDepthToColor r _colorData = flat_map greyPixel (_depthData r) /\
  Forall (fun c => (0 <= c <= 255)%Z) (copyDepthToColor r _colorData).
Proof.
  intros Hlen Hr. unfold copyDepthToColor.
  pose proof (copyLoop_grey (_depthData r) [] _colorData Hlen Hr) as H.
  change (copyLoop (_depthData r) 0 _colorData = flat_map greyPixel (_depthData r)) in H.
  rewrite H. split; [reflexivity|].
  clear H Hlen. induction Hr as [|d ds Hd Hr IH]; [constructor|].
  cbn [flat_map]. apply Forall_app. split; [|exact IH].
  destruct (ToUint8_grey d Hd) as [_ Hg]. unfold greyPixel.
  repeat (apply Forall_cons; split; [lia|]). apply Forall_nil. exact I.
Qed.

Lemma copyDepthToColor_grey_witness :
  copyDepthToColor sampleRenderer (replicate 256 7%Z)
  = flat_map greyPixel (_depthData sampleRenderer) /\
  Forall (fun c => (0 <= c <= 255)%Z) (copyDepthToColor sampleRenderer (replicate 256 7%Z)).
Proof.
  apply (copyDepthToColor_grey sampleRenderer (replicate 256 7%Z)).
  - reflexivity.
  - apply Forall_forall. intros d Hd. apply elem_of_replicate in Hd as [-> _].
    split; vm_compute; discriminate.
Defined.

(** ** Culling with nothing occluded *)

Lemma cullLoop_nothing_hidden
    (sphereCull : SoftwareRenderer -> Entity -> Matrix4x4 -> Matrix4x4 -> Q ->
                  bool * SoftwareRenderer)
    (boxCull : SoftwareRenderer -> Entity -> Matrix4x4 -> bool * SoftwareRenderer)
    (V P VP : Matrix4x4) (nearZ : Q) (renderList : list Entity) (s : CullState) :
  (forall r e V P n, (sphereCull r e V P n).1 = false) ->
  (forall r e VP, (boxCull r e VP).1 = false) ->
  cull s <> Some true ->
  visibleEntities (foldl (cullStep sphereCull boxCull V P VP nearZ) s renderList)
  = visibleEntities s ++ renderList.
Proof.
  intros Hs Hb. revert s. induction renderList as [|e l IH]; intros s Hc.
  - cbn. by rewrite app_nil_r.
  - cbn [foldl].
    assert (Hstep : visibleEntities (cullStep sphereCull boxCull V P VP nearZ s e)
                    = visibleEntities s ++ [e] /\
                    cull (cullStep sphereCull boxCull V P VP nearZ s e) <> Some true).
    { unfold cullStep. destruct (negb _); [|done].
      destruct (modelBound e).
      - specialize (Hs (renderer s) e V P nearZ).
        destruct (sphereCull _ _ _ _ _) as [c r']. cbn in Hs. subst c. cbn. done.
      - specialize (Hb (renderer s) e VP).
        destruct (boxCull _ _ _) as [c r']. cbn in Hb. subst c. cbn. done.
      - destruct (cull s) as [[|]|] eqn:Hcs; cbn; rewrite ?Hcs; done. }
    destruct Hstep as [Hv Hc']. rewrite IH by exact Hc'. rewrite Hv, <- app_assoc. done.
Qed.

(** X28: culling drops nothing on its own: when neither occlusion
    module reports an entity as occluded, [performOcclusionCulling]
    returns the whole list, in its order. *)
Theorem culling_nothing_hidden
    (sphereCull : SoftwareRenderer -> Entity -> Matrix4x4 -> Matrix4x4 -> Q ->
                  bool * SoftwareRenderer)
    (boxCull : SoftwareRenderer -> Entity -> Matrix4x4 -> bool * SoftwareRenderer)
    (r : SoftwareRenderer) (cam : Camera) (renderList : list Entity) :
  camera r = Some cam ->
  (forall r e V P n, (sphereCull r e V P n).1 = false) ->
  (forall r e VP, (boxCull r e VP).1 = false) ->
  (performOcclusionCulling sphereCull boxCull renderList r).1 = Normal renderList.
Proof.
  intros Hcam Hs Hb. unfold performOcclusionCulling. rewrite Hcam. cbn [fst].
  unfold cullLoop. by rewrite (cullLoop_nothing_hidden _ _ _ _ _ _ _ _ Hs Hb).
Qed.

Lemma culling_nothing_hidden_witness :
  (performOcclusionCulling (fun r _ _ _ _ => (false, r)) (fun r _ _ => (false, r))
     [hiddenSphere; unboundedEntity; exemptEntity] sampleRenderer).1
  = Normal [hiddenSphere; unboundedEntity; exemptEntity].
Proof.
  apply (culling_nothing_hidden (fun r _ _ _ _ => (false, r)) (fun r _ _ => (false, r))
           sampleRenderer sampleCamera [hiddenSphere; unboundedEntity; exemptEntity]);
    reflexivity.
Defined.
